(** * sentinelsat: a shallow embedding of [sentinelsat/sentinel.py]

    The development follows the layering of the program:
    - the query builder ([format_date], [format_query]),
    - the catalog client ([get_products], [get_products_size]),
    - the single-file download ([md5_compare], [download]),
    - the batch download ([download_all]).

    Python values are modelled as follows.  Strings are byte strings
    ([string]); [str.lower] is ASCII lower-casing and string comparison is
    the code-point order ([String.leb]).  Integers are [Z].  Floats are
    binary64 ([PrimFloat.float]).  A raised exception is a value of [exn]
    and a call that may raise returns a [res].  A loop that the source does
    not bound takes a fuel argument and answers [None] when the fuel runs
    out.  Everything the program does to the outside (catalog requests,
    transfers, the file system, the terminal, sleeping) is recorded in the
    [trace] of a [World]. *)

From Stdlib Require Import ZArith String Ascii List Bool Lia DecimalString.
From Stdlib Require Import Uint63 Floats.PrimFloat.
From stdpp Require Import base option gmap strings list sorting.

Local Open Scope string_scope.
Local Open Scope Z_scope.

#[local] Arguments String.append : simpl nomatch.

(* ===================================================================== *)
(** ** Exceptions and fallible calls *)
(* ===================================================================== *)

(** The exception classes the program raises, catches or lets through. *)
Inductive exn : Type :=
| KeyboardInterrupt
| SystemExit
| SystemError
| MemoryError
| InvalidChecksumError (msg : string)
| SentinelAPIError (http_status : Z) (msg : string)
| AssertionError (msg : string)
| TypeError
| ValueError
| KeyError (key : string)
| IndexError
| StopIteration
| AttributeError
| OverflowError
| IOError
| OtherError (class_name : string).

Inductive res (A : Type) : Type :=
| Ok (a : A)
| Raise (e : exn).
Arguments Ok {A} a.
Arguments Raise {A} e.

Definition res_bind {A B} (m : res A) (k : A -> res B) : res B :=
  match m with
  | Ok a => k a
  | Raise e => Raise e
  end.

Notation "'let*' x ':=' m 'in' k" :=
  (res_bind m (fun x => k))
  (at level 10, x name, m at level 100, k at level 200, only parsing).

(** [except (KeyboardInterrupt, SystemExit, SystemError, MemoryError)]. *)
Definition is_fatal (e : exn) : bool :=
  match e with
  | KeyboardInterrupt | SystemExit | SystemError | MemoryError => true
  | _ => false
  end.

(** [except SentinelAPIError]. *)
Definition is_SentinelAPIError (e : exn) : bool :=
  match e with
  | SentinelAPIError _ _ => true
  | _ => false
  end.

(** The call raised a [SentinelAPIError]. *)
Definition is_SentinelAPIError_res {A} (r : res A) : bool :=
  match r with
  | Raise e => is_SentinelAPIError e
  | Ok _ => false
  end.

(* ===================================================================== *)
(** ** Strings *)
(* ===================================================================== *)

Definition ascii_lower (c : ascii) : ascii :=
  let n := nat_of_ascii c in
  if ((65 <=? n) && (n <=? 90))%nat then ascii_of_nat (n + 32) else c.

(** [s.lower()] *)
Fixpoint lower (s : string) : string :=
  match s with
  | EmptyString => EmptyString
  | String c r => String (ascii_lower c) (lower r)
  end.

(** [s.split(sep)] for a one-character separator: every occurrence cuts,
    empty pieces are kept. *)
Fixpoint py_split (s : string) (sep : ascii) : list string :=
  match s with
  | EmptyString => [EmptyString]
  | String c r =>
      if Ascii.eqb c sep then EmptyString :: py_split r sep
      else
        match py_split r sep with
        | piece :: pieces => String c piece :: pieces
        | [] => [String c EmptyString]
        end
  end.

(** [s.split()]: cut at runs of (ASCII) white space, no empty pieces. *)
Definition py_split_ws (s : string) : list string := String.words s.

(** [l[i]] on a list. *)
Definition py_index {A} (l : list A) (i : nat) : res A :=
  match l !! i with
  | Some x => Ok x
  | None => Raise IndexError
  end.

(** [os.path.join(a, p)] (posix, two components). *)
Definition ends_with_slash (a : string) : bool :=
  match String.rev a with
  | String c _ => Ascii.eqb c "/"
  | EmptyString => false
  end.

Definition join (a p : string) : string :=
  match p with
  | String "/" _ => p
  | _ =>
      match a with
      | EmptyString => p
      | _ => if ends_with_slash a then a ++ p else a ++ "/" ++ p
      end
  end.

(* ===================================================================== *)
(** ** JSON values, as [response.json()] builds them *)
(* ===================================================================== *)

(** A [dict] keeps its pairs in insertion order and has no repeated key. *)
#[warnings="-register-all"]
Inductive json : Type :=
| JNull
| JBool (b : bool)
| JInt (z : Z)
| JFloat (f : float)
| JStr (s : string)
| JList (l : list json)
| JDict (kvs : list (string * json)).

Fixpoint assoc {A} (k : string) (kvs : list (string * A)) : option A :=
  match kvs with
  | [] => None
  | (k', v) :: r => if String.eqb k k' then Some v else assoc k r
  end.

(** [v[key]] with a string key. *)
Definition subscript (v : json) (key : string) : res json :=
  match v with
  | JDict kvs =>
      match assoc key kvs with
      | Some x => Ok x
      | None => Raise (KeyError key)
      end
  | _ => Raise TypeError
  end.

(** [v is not None] for an optional argument. *)
Definition is_Some_b {A} (o : option A) : bool :=
  match o with
  | Some _ => true
  | None => false
  end.

(** [type(v) == dict] *)
Definition is_dict (v : json) : bool :=
  match v with
  | JDict _ => true
  | _ => false
  end.

Fixpoint chars (s : string) : list json :=
  match s with
  | EmptyString => []
  | String c r => JStr (String c EmptyString) :: chars r
  end.

(** The items [for x in v] visits. *)
Definition py_iter (v : json) : res (list json) :=
  match v with
  | JList l => Ok l
  | JDict kvs => Ok (map (fun kv => JStr (fst kv)) kvs)
  | JStr s => Ok (chars s)
  | _ => Raise TypeError
  end.

(** [len(v)] *)
Definition py_len (v : json) : res nat :=
  match v with
  | JList l => Ok (length l)
  | JDict kvs => Ok (length kvs)
  | JStr s => Ok (String.length s)
  | _ => Raise TypeError
  end.

(** [v == s] for a string [s]. *)
Definition eq_str (v : json) (s : string) : bool :=
  match v with
  | JStr t => String.eqb t s
  | _ => false
  end.

(* ===================================================================== *)
(** ** The client object *)
(* ===================================================================== *)

(** A [requests] response: [body_json] is [None] when [.json()] raises
    [ValueError]. *)
Record Response : Type := {
  status_code : Z;
  body_json : option json;
  raw_content : string
}.

(** The mutable attributes of a [SentinelAPI] instance that the modelled
    methods read or write. *)
Record Api : Type := {
  last_query : option string;
  content : option Response;
  products : option json
}.

Definition set_products (a : Api) (p : json) : Api :=
  {| last_query := last_query a; content := content a; products := Some p |}.

(** [self.content.json()] *)
Definition content_json (a : Api) : res json :=
  match content a with
  | None => Raise AttributeError
  | Some r =>
      match body_json r with
      | Some j => Ok j
      | None => Raise ValueError
      end
  end.

Definition content_status (a : Api) : Z :=
  match content a with
  | Some r => status_code r
  | None => 0
  end.

(** What [print] writes, one constructor per call site. *)
Inductive Message : Type :=
| MsgNoProducts
| MsgInvalidResponse (e : exn)
| MsgDownloading (id : json) (path : string)
| MsgAlreadyDownloaded (path : string)
| MsgCorrupt (path : string)
| MsgWillDownload (n : nat)
| MsgInvalidChecksum
| MsgErrorDownloading (title : string)
| MsgTraceback (e : exn)
| MsgProgress (i n : nat).

(** [get_products]: the new attributes, what was printed, and the result. *)
Definition get_products (a : Api) : Api * list Message * res json :=
  match (let* j := content_json a in
         let* feed := subscript j "feed" in
         subscript feed "entry") with
  | Ok entry =>
      if is_dict entry
      then (set_products a entry, [], Ok (JList [entry]))
      else (set_products a entry, [], Ok entry)
  | Raise (KeyError _) => (a, [MsgNoProducts], Ok (JList []))
  | Raise ValueError =>
      (a, [],
       Raise (SentinelAPIError (content_status a)
                "API response not valid. JSON decoding failed."))
  | Raise e => (a, [], Raise e)
  end.

(* ===================================================================== *)
(** ** Dates: the part of [datetime] the query builder uses *)
(* ===================================================================== *)

Record date : Type := { d_year : Z; d_month : Z; d_day : Z }.

Record datetime : Type := {
  dt_date : date;
  dt_hour : Z;
  dt_minute : Z;
  dt_second : Z;
  dt_microsecond : Z
}.

(** What a caller may pass as [initial_date] or [end_date]. *)
Inductive date_arg : Type :=
| ANone
| ADatetime (d : datetime)
| ADate (d : date)
| AStr (s : string).

Definition is_leap (y : Z) : bool :=
  (y mod 4 =? 0) && (negb (y mod 100 =? 0) || (y mod 400 =? 0)).

Definition month_lengths : list Z :=
  [31; 28; 31; 30; 31; 30; 31; 31; 30; 31; 30; 31].

Definition days_in_month (y m : Z) : Z :=
  if (m =? 2) && is_leap y then 29
  else nth (Z.to_nat (m - 1)) month_lengths 0.

Definition days_before_year (y : Z) : Z :=
  let y := y - 1 in y * 365 + y / 4 - y / 100 + y / 400.

Definition days_before_month (y m : Z) : Z :=
  fold_right Z.add 0 (firstn (Z.to_nat (m - 1)) month_lengths)
  + (if (m >? 2) && is_leap y then 1 else 0).

(** [date.toordinal()] *)
Definition toordinal (d : date) : Z :=
  days_before_year (d_year d) + days_before_month (d_year d) (d_month d)
  + d_day d.

Definition DI400Y : Z := days_before_year 401.
Definition DI100Y : Z := days_before_year 101.
Definition DI4Y : Z := days_before_year 5.
Definition MAXORDINAL : Z := 3652059.

(** [date.fromordinal(n)] *)
Definition fromordinal (n : Z) : date :=
  let n := n - 1 in
  let n400 := n / DI400Y in
  let n := n mod DI400Y in
  let year := n400 * 400 + 1 in
  let n100 := n / DI100Y in
  let n := n mod DI100Y in
  let n4 := n / DI4Y in
  let n := n mod DI4Y in
  let n1 := n / 365 in
  let n := n mod 365 in
  let year := year + n100 * 100 + n4 * 4 + n1 in
  if (n1 =? 4) || (n100 =? 4)
  then {| d_year := year - 1; d_month := 12; d_day := 31 |}
  else
    let leapyear := (n1 =? 3) && (negb (n4 =? 24) || (n100 =? 3)) in
    let month := Z.shiftr (n + 50) 5 in
    let preceding :=
      fold_right Z.add 0 (firstn (Z.to_nat (month - 1)) month_lengths)
      + (if (month >? 2) && leapyear then 1 else 0) in
    if preceding >? n
    then
      let month := month - 1 in
      let preceding :=
        preceding
        - (nth (Z.to_nat (month - 1)) month_lengths 0
           + (if (month =? 2) && leapyear then 1 else 0)) in
      {| d_year := year; d_month := month; d_day := n - preceding + 1 |}
    else {| d_year := year; d_month := month; d_day := n - preceding + 1 |}.

(** [d - timedelta(hours=24)] on a [date]: one day back. *)
Definition date_minus_24h (d : date) : res date :=
  let o := toordinal d - 1 in
  if (0 <? o) && (o <=? MAXORDINAL) then Ok (fromordinal o)
  else Raise OverflowError.

(** [d - timedelta(hours=24)] on a [datetime]: one day back, same time. *)
Definition datetime_minus_24h (d : datetime) : res datetime :=
  let* day := date_minus_24h (dt_date d) in
  Ok {| dt_date := day; dt_hour := dt_hour d; dt_minute := dt_minute d;
        dt_second := dt_second d; dt_microsecond := dt_microsecond d |}.

(** [end_date - timedelta(hours=24)] *)
Definition minus_24h (a : date_arg) : res date_arg :=
  match a with
  | ADatetime d => let* r := datetime_minus_24h d in Ok (ADatetime r)
  | ADate d => let* r := date_minus_24h d in Ok (ADate r)
  | AStr _ | ANone => Raise TypeError
  end.

Definition digit_char (z : Z) : ascii := ascii_of_nat (48 + Z.to_nat (z mod 10)).

(** [z] in decimal on exactly [width] digits, zero padded. *)
Fixpoint zero_padded (width : nat) (z : Z) : string :=
  match width with
  | O => EmptyString
  | S w => zero_padded w (z / 10) ++ String (digit_char z) EmptyString
  end.

(** [%Y]: the year in decimal and without padding, as Python 3 prints it
    with the C library of Linux; that is four digits from the year 1000
    on, and fewer before. *)
Definition year_digits (y : Z) : string :=
  DecimalString.NilZero.string_of_uint (N.to_uint (Z.to_N y)).

(** [strftime('%Y-%m-%dT%H:%M:%SZ')] *)
Definition strftime (d : datetime) : string :=
  year_digits (d_year (dt_date d)) ++ "-"
  ++ zero_padded 2 (d_month (dt_date d)) ++ "-"
  ++ zero_padded 2 (d_day (dt_date d)) ++ "T"
  ++ zero_padded 2 (dt_hour d) ++ ":"
  ++ zero_padded 2 (dt_minute d) ++ ":"
  ++ zero_padded 2 (dt_second d) ++ "Z".

Definition midnight (d : date) : datetime :=
  {| dt_date := d; dt_hour := 0; dt_minute := 0; dt_second := 0;
     dt_microsecond := 0 |}.

(** One digit in the range [lo .. hi] at the head of [s]. *)
Definition digit_in (lo hi : Z) (s : string) : option (Z * string) :=
  match s with
  | String c r =>
      let v := Z.of_nat (nat_of_ascii c) - 48 in
      if (lo <=? v) && (v <=? hi) then Some (v, r) else None
  | EmptyString => None
  end.

Definition two_digits (lo1 hi1 lo2 hi2 : Z) (s : string) : option (Z * string) :=
  match digit_in lo1 hi1 s with
  | Some (a, r) =>
      match digit_in lo2 hi2 r with
      | Some (b, r') => Some (10 * a + b, r')
      | None => None
      end
  | None => None
  end.

Definition space_digit (s : string) : option (Z * string) :=
  match s with
  | String " " r => digit_in 1 9 r
  | _ => None
  end.

(** The alternatives of [%m] and [%d] in [strptime]'s pattern, in the
    order the matcher tries them. *)
Definition month_alternatives : list (string -> option (Z * string)) :=
  [two_digits 1 1 0 2; two_digits 0 0 1 9; digit_in 1 9].

Definition day_alternatives : list (string -> option (Z * string)) :=
  [two_digits 3 3 0 1; two_digits 1 2 0 9; two_digits 0 0 1 9;
   digit_in 1 9; space_digit].

Fixpoint first_match {A} (alts : list (string -> option A)) (s : string)
  : option A :=
  match alts with
  | [] => None
  | f :: r =>
      match f s with
      | Some x => Some x
      | None => first_match r s
      end
  end.

(** A month alternative counts only if a day can follow it. *)
Definition month_then_day (s : string) : option (Z * Z * string) :=
  first_match
    (map (fun (alt : string -> option (Z * string)) (s0 : string) =>
            match alt s0 with
            | Some (m, r) =>
                match first_match day_alternatives r with
                | Some (d, r') => Some (m, d, r')
                | None => None
                end
            | None => None
            end)
         month_alternatives)
    s.

Definition four_digits (s : string) : option (Z * string) :=
  match two_digits 0 9 0 9 s with
  | Some (hi, r) =>
      match two_digits 0 9 0 9 r with
      | Some (lo, r') => Some (100 * hi + lo, r')
      | None => None
      end
  | None => None
  end.

(** [datetime.strptime(s, '%Y%m%d')]; [None] stands for [ValueError]. *)
Definition strptime_Ymd (s : string) : option datetime :=
  match four_digits s with
  | Some (y, r) =>
      match month_then_day r with
      | Some (m, d, EmptyString) =>
          if (1 <=? y) && (d <=? days_in_month y m)
          then Some (midnight {| d_year := y; d_month := m; d_day := d |})
          else None
      | _ => None
      end
  | None => None
  end.

Definition format_date (in_date : date_arg) : res string :=
  match in_date with
  | ADatetime d => Ok (strftime d)
  | ADate d => Ok (strftime (midnight d))
  | AStr s =>
      match strptime_Ymd s with
      | Some d => Ok (strftime d)
      | None => Ok s
      end
  | ANone => Raise TypeError
  end.

(* ===================================================================== *)
(** ** The query builder *)
(* ===================================================================== *)

(** The class object: each default [end_date=datetime.now()] is evaluated
    when its [def] statement runs, and kept. *)
Record SentinelAPI_class : Type := {
  query_end_date_default : datetime;
  format_query_end_date_default : datetime
}.

(** Executing the class body reads the clock once per [def]. *)
Definition class_body (now_at_query_def now_at_format_query_def : datetime)
  : SentinelAPI_class :=
  {| query_end_date_default := now_at_query_def;
     format_query_end_date_default := now_at_format_query_def |}.

(** [**keywords]: pairs in the order the caller wrote them. *)
Definition keys (keywords : list (string * string)) : list string :=
  map fst keywords.

(** [sorted(l)] on strings. *)
Definition sorted (l : list string) : list string := merge_sort String.le l.

Definition date_clause (initial_date end_date : string) : string :=
  "(beginPosition:[" ++ initial_date ++ " TO " ++ end_date ++ "])".

(** The double-quote character. *)
Definition dquote : string := String (ascii_of_nat 34) EmptyString.

Definition area_clause (area : option string) : string :=
  match area with
  | Some a =>
      " AND (footprint:" ++ dquote ++ "Intersects(POLYGON((" ++ a ++ ")))"
      ++ dquote ++ ")"
  | None => ""
  end.

Definition point_clause (point : option string) : string :=
  match point with
  | Some p =>
      " AND (footprint:" ++ dquote ++ "intersects(" ++ p ++ ")" ++ dquote ++ ")"
  | None => ""
  end.

Definition filter_clause (kw value : string) : string :=
  " AND (" ++ kw ++ ":" ++ value ++ ")".

(** The [for kw in sorted(keywords.keys())] loop, from the accumulated
    [filters]. *)
Fixpoint filters_loop (keywords : list (string * string)) (kws : list string)
  (filters : string) : res string :=
  match kws with
  | [] => Ok filters
  | kw :: rest =>
      match assoc kw keywords with
      | Some v => filters_loop keywords rest (filters ++ filter_clause kw v)
      | None => Raise (KeyError kw)
      end
  end.

(** [format_query]; [end_date = None] is the argument left out. *)
Definition format_query (cls : SentinelAPI_class) (area point : option string)
  (initial_date : date_arg) (end_date : option date_arg)
  (keywords : list (string * string)) : res string :=
  let end_date :=
    match end_date with
    | Some d => d
    | None => ADatetime (format_query_end_date_default cls)
    end in
  if negb (is_Some_b area || is_Some_b point)
  then Raise (AssertionError "Either an area or a point must be given.")
  else
    let* initial_date :=
      match initial_date with
      | ANone => minus_24h end_date
      | _ => Ok initial_date
      end in
    let* d1 := format_date initial_date in
    let* d2 := format_date end_date in
    let acquisition_date := date_clause d1 d2 in
    let query_area := area_clause area in
    let query_point := point_clause point in
    let* filters := filters_loop keywords (sorted (keys keywords)) "" in
    Ok (acquisition_date ++ query_area ++ query_point ++ filters).

(** [query] up to the string it hands to [query_raw] (stored in
    [last_query] and posted to the catalog). *)
Definition query_string (cls : SentinelAPI_class) (area point : option string)
  (initial_date : date_arg) (end_date : option date_arg)
  (keywords : list (string * string)) : res string :=
  let end_date :=
    match end_date with
    | Some d => d
    | None => ADatetime (query_end_date_default cls)
    end in
  format_query cls area point initial_date (Some end_date) keywords.

(** The running interpreter: the wall clock, and the class object made when
    the module was imported. *)
Record Runtime : Type := {
  rt_clock : datetime;
  rt_class : SentinelAPI_class
}.

(** [import sentinelsat]: the class body runs, reading the clock at each
    of the two [def]s ([later] is the time it reaches the second). *)
Definition import_module (now later : datetime) : Runtime :=
  {| rt_clock := later; rt_class := class_body now later |}.

(** Time passes. *)
Definition elapse (rt : Runtime) (now : datetime) : Runtime :=
  {| rt_clock := now; rt_class := rt_class rt |}.

(** A call of [SentinelAPI.format_query] in a running interpreter. *)
Definition call_format_query (rt : Runtime) (area point : option string)
  (initial_date : date_arg) (end_date : option date_arg)
  (keywords : list (string * string)) : res string :=
  format_query (rt_class rt) area point initial_date end_date keywords.

(** A call of [api.query], up to the query string. *)
Definition call_query (rt : Runtime) (area point : option string)
  (initial_date : date_arg) (end_date : option date_arg)
  (keywords : list (string * string)) : res string :=
  query_string (rt_class rt) area point initial_date end_date keywords.

(* ===================================================================== *)
(** ** The catalog client: total size of the products *)
(* ===================================================================== *)

(** A Python number: [size_total] starts as the integer [0] and becomes a
    float at the first addition. *)
Inductive number : Type :=
| NInt (z : Z)
| NFloat (f : float).

(** The float of a small non-negative integer (exact below [2^53]). *)
Definition float_of_int (z : Z) : float := PrimFloat.of_uint63 (Uint63.of_Z z).

(** [n + f] for a float [f]. *)
Definition add_float (n : number) (f : float) : float :=
  match n with
  | NInt z => (float_of_int z + f)%float
  | NFloat g => (g + f)%float
  end.

(** [next(x for x in xs if x["name"] == name)] *)
Fixpoint next_named (name : string) (xs : list json) : res json :=
  match xs with
  | [] => Raise StopIteration
  | x :: rest =>
      let* n := subscript x "name" in
      if eq_str n name then Ok x else next_named name rest
  end.

Section ProductsSize.

(** Two functions of the Python runtime are taken as given: [float(s)]
    ([None] for [ValueError]) and [round(x, 2)] on a float. *)
Variable py_float : string -> option float.
Variable py_round2 : float -> float.

(** [round(size_total, 2)]: an integer is returned as it is. *)
Definition round2 (n : number) : number :=
  match n with
  | NInt z => NInt z
  | NFloat f => NFloat (py_round2 f)
  end.

(** [next(x for x in product["str"] if x["name"] == "size")["content"]] *)
Definition size_content (product : json) : res json :=
  let* strs := subscript product "str" in
  let* items := py_iter strs in
  let* x := next_named "size" items in
  subscript x "content".

(** The body of the loop up to [size_total += size_value]: the size of
    one product in GB. *)
Definition product_size (product : json) : res float :=
  let* size_product := size_content product in
  match size_product with
  | JStr s =>
      let* piece0 := py_index (py_split s " ") 0 in
      let* size_value :=
        match py_float piece0 with
        | Some f => Ok f
        | None => Raise ValueError
        end in
      let* size_unit := py_index (py_split s " ") 1 in
      let size_value :=
        if String.eqb size_unit "MB"
        then (size_value / float_of_int 1024)%float else size_value in
      let size_value :=
        if String.eqb size_unit "KB"
        then (size_value / float_of_int (1024 * 1024))%float
        else size_value in
      Ok size_value
  | _ => Raise AttributeError
  end.

Fixpoint size_loop (ps : list json) (size_total : number) : res number :=
  match ps with
  | [] => Ok size_total
  | product :: rest =>
      let* size_value := product_size product in
      size_loop rest (NFloat (add_float size_total size_value))
  end.

Definition get_products_size (a : Api) : Api * list Message * res number :=
  let '(a', out, r) := get_products a in
  (a', out,
   let* ps := r in
   let* items := py_iter ps in
   let* size_total := size_loop items (NInt 0) in
   Ok (round2 size_total)).

End ProductsSize.

(* ===================================================================== *)
(** ** The world a download runs in *)
(* ===================================================================== *)

(** What [get_product_info] returns. *)
Record ProductInfo : Type := {
  pi_id : string;
  pi_title : string;
  pi_size : Z;
  pi_md5 : string;
  pi_date : string;
  pi_footprint : string;
  pi_url : string
}.

(** A file on disk: its length in bytes and the MD5 hex digest of its
    bytes. *)
Record File : Type := { f_size : Z; f_md5 : string }.

Inductive Event : Type :=
| EvPrint (m : Message)                      (* standard output *)
| EvPrintErr (m : Message)                   (* standard error *)
| EvGetProductInfo (id : json)               (* metadata request *)
| EvSleep (seconds : Z)
| EvChecksum (path : string)                 (* the file is read and hashed *)
| EvRemove (path : string)
| EvTransfer (url path : string) (resume_from : option Z)
| EvDownloadCall (i : nat) (id : json).
(** [EvTransfer url path (Some n)] is a transfer that finds [n] bytes at
    [path] and resumes from there; [EvDownloadCall i id] marks the call of
    [self.download] that [download_all] makes for the product of index
    [i] (the program itself is silent at that point). *)

(** The outside: the answer to the [n]-th metadata request, the outcome of
    the [n]-th archive transfer (the file left at the target path, given
    the file found there, and the exception raised if any), and the
    installed [pycurl.version]. *)
Record Env : Type := {
  catalog : nat -> json -> res ProductInfo;
  archive : nat -> string -> option File -> option File * option exn;
  pycurl_version : string
}.

Record World : Type := {
  fs : gmap string File;
  requests_made : nat;
  transfers_made : nat;
  trace : list Event
}.

Definition log (e : Event) (w : World) : World :=
  {| fs := fs w; requests_made := requests_made w;
     transfers_made := transfers_made w; trace := (trace w ++ [e])%list |}.

Definition log_all (es : list Event) (w : World) : World :=
  {| fs := fs w; requests_made := requests_made w;
     transfers_made := transfers_made w; trace := (trace w ++ es)%list |}.

(** [exists(path)] *)
Definition file_exists (w : World) (path : string) : bool :=
  is_Some_b (fs w !! path).

(** [getsize(path)] of a file that exists. *)
Definition getsize (w : World) (path : string) : Z :=
  match fs w !! path with
  | Some f => f_size f
  | None => 0
  end.

(** [remove(path)] *)
Definition remove (path : string) (w : World) : World :=
  {| fs := delete path (fs w); requests_made := requests_made w;
     transfers_made := transfers_made w;
     trace := (trace w ++ [EvRemove path])%list |}.

(** The comparison on the last line of [md5_compare]. *)
Definition checksum_eq (hexdigest checksum : string) : bool :=
  String.eqb (lower hexdigest) (lower checksum).

Definition md5_compare (file_path checksum : string) (w : World)
  : World * res bool :=
  match fs w !! file_path with
  | None => (w, Raise IOError)
  | Some f => (log (EvChecksum file_path) w, Ok (checksum_eq (f_md5 f) checksum))
  end.

(** [self.get_product_info(id)]: one request, answered by the catalog. *)
Definition get_product_info (env : Env) (id : json) (w : World)
  : World * res ProductInfo :=
  ({| fs := fs w; requests_made := S (requests_made w);
      transfers_made := transfers_made w;
      trace := (trace w ++ [EvGetProductInfo id])%list |},
   catalog env (requests_made w) id).

(** [homura.download(url, path=path, session=...)]: the transfer resumes
    from the length of the file found at [path]. *)
Definition homura_download (env : Env) (url path : string) (w : World)
  : World * res unit :=
  let found := fs w !! path in
  let '(kept, raised) := archive env (transfers_made w) url found in
  let w' :=
    {| fs := match kept with
             | Some f => <[path := f]> (fs w)
             | None => delete path (fs w)
             end;
       requests_made := requests_made w;
       transfers_made := S (transfers_made w);
       trace := (trace w ++ [EvTransfer url path (f_size <$> found)])%list |} in
  match raised with
  | Some e => (w', Raise e)
  | None => (w', Ok tt)
  end.

(* ===================================================================== *)
(** ** The download of one product *)
(* ===================================================================== *)

(** The [while product_info is None] loop.  A [SentinelAPIError] is
    printed, the program sleeps 60 seconds and asks again; any other
    exception leaves the loop. *)
Fixpoint resolve_product_info (fuel : nat) (env : Env) (id : json) (w : World)
  : option (World * res ProductInfo) :=
  match fuel with
  | O => None
  | S fuel' =>
      match get_product_info env id w with
      | (w1, Ok info) => Some (w1, Ok info)
      | (w1, Raise e) =>
          if is_SentinelAPIError e
          then resolve_product_info fuel' env id
                 (log (EvSleep 60) (log (EvPrint (MsgInvalidResponse e)) w1))
          else Some (w1, Raise e)
      end
  end.

(** [if exists(path) and getsize(path) == product_info['size']: ...];
    the result [true] is the early [return path, product_info]. *)
Definition skip_existing (info : ProductInfo) (path : string)
  (check_existing : bool) (w : World) : World * res bool :=
  if file_exists w path && (getsize w path =? pi_size info)
  then
    if negb check_existing
    then (log (EvPrint (MsgAlreadyDownloaded path)) w, Ok true)
    else
      match md5_compare path (pi_md5 info) w with
      | (w1, Raise e) => (w1, Raise e)
      | (w1, Ok true) => (log (EvPrint (MsgAlreadyDownloaded path)) w1, Ok true)
      | (w1, Ok false) => (remove path (log (EvPrint (MsgCorrupt path)) w1), Ok false)
      end
  else (w, Ok false).

(** [pycurl.version.split()[0].lower() <= 'pycurl/7.43.0'] *)
Definition pycurl_known_broken (env : Env) : res bool :=
  let* token := py_index (py_split_ws (pycurl_version env)) 0 in
  Ok (String.leb (lower token) "pycurl/7.43.0").

(** The workaround for PycURL's bug when continuing files over 2 GB. *)
Definition pycurl_workaround (env : Env) (path : string) (w : World)
  : World * res unit :=
  if file_exists w path && (getsize w path >=? 2 ^ 31)
  then
    match pycurl_known_broken env with
    | Raise e => (w, Raise e)
    | Ok true => (remove path w, Ok tt)
    | Ok false => (w, Ok tt)
    end
  else (w, Ok tt).

(** The end of [download]: [if checksum is True: ...] and the [return]. *)
Definition verify_download (info : ProductInfo) (path : string)
  (checksum : bool) (w : World) : World * res (string * ProductInfo) :=
  if checksum
  then
    match md5_compare path (pi_md5 info) w with
    | (w, Raise e) => (w, Raise e)
    | (w, Ok true) => (w, Ok (path, info))
    | (w, Ok false) =>
        (w, Raise (InvalidChecksumError "File corrupt: checksums do not match"))
    end
  else (w, Ok (path, info)).

(** [download] from the workaround on: the file at [path], if any, is
    not a complete download. *)
Definition transfer_and_verify (env : Env) (info : ProductInfo) (path : string)
  (checksum : bool) (w : World) : World * res (string * ProductInfo) :=
  match pycurl_workaround env path w with
  | (w, Raise e) => (w, Raise e)
  | (w, Ok _) =>
      match homura_download env (pi_url info) path w with
      | (w, Raise e) => (w, Raise e)
      | (w, Ok _) => verify_download info path checksum w
      end
  end.

(** [download] once the product info is known. *)
Definition download_resolved (env : Env) (id : json) (directory_path : string)
  (checksum check_existing : bool) (info : ProductInfo) (w : World)
  : World * res (string * ProductInfo) :=
  let path := join directory_path (pi_title info ++ ".zip") in
  let w := log (EvPrint (MsgDownloading id path)) w in
  match skip_existing info path check_existing w with
  | (w, Raise e) => (w, Raise e)
  | (w, Ok true) => (w, Ok (path, info))
  | (w, Ok false) => transfer_and_verify env info path checksum w
  end.

(** [SentinelAPI.download]; [None] when the metadata loop outlives the
    fuel.  The extra keyword arguments, which [_fillin_cainfo] completes
    and [homura] receives, play no part in what follows and are left
    out. *)
Definition download (fuel : nat) (env : Env) (id : json)
  (directory_path : string) (checksum check_existing : bool) (w : World)
  : option (World * res (string * ProductInfo)) :=
  match resolve_product_info fuel env id w with
  | None => None
  | Some (w1, Raise e) => Some (w1, Raise e)
  | Some (w1, Ok info) =>
      Some (download_resolved env id directory_path checksum check_existing
              info w1)
  end.

(* ===================================================================== *)
(** ** The batch download *)
(* ===================================================================== *)

(** The variables of the [while] loop of [download_all]. *)
Record Attempts : Type := {
  at_path : string;
  at_product_info : option ProductInfo;
  at_download_successful : bool;
  at_remaining_attempts : Z
}.

Section BatchDownloader.

(** [self.download], as bound at the call: the instance method, or
    whatever a test has put in its place. *)
Variable download_method :
  json -> string -> bool -> bool -> World ->
  option (World * res (string * ProductInfo)).

(** The [try] block: [product['id']] is evaluated inside it. *)
Definition try_download (i : nat) (product : json) (directory_path : string)
  (checksum check_existing : bool) (w : World)
  : option (World * res (string * ProductInfo)) :=
  match subscript product "id" with
  | Raise e => Some (w, Raise e)
  | Ok id =>
      download_method id directory_path checksum check_existing
        (log (EvDownloadCall i id) w)
  end.

(** The [while not download_successful and remaining_attempts > 0]
    loop.  [fuel] bounds the passes; [Z.to_nat remaining_attempts] is
    always enough. *)
Fixpoint attempts_loop (fuel : nat) (i : nat) (product : json)
  (title directory_path : string) (checksum check_existing : bool)
  (st : Attempts) (w : World) : option (World * res Attempts) :=
  if negb (at_download_successful st) && (at_remaining_attempts st >? 0)
  then
    match fuel with
    | O => None
    | S fuel' =>
        match try_download i product directory_path checksum check_existing w with
        | None => None
        | Some (w1, Ok (path, product_info)) =>
            attempts_loop fuel' i product title directory_path checksum
              check_existing
              {| at_path := path; at_product_info := Some product_info;
                 at_download_successful := true;
                 at_remaining_attempts := at_remaining_attempts st - 1 |}
              w1
        | Some (w1, Raise e) =>
            if is_fatal e then Some (w1, Raise e)
            else
              let w2 :=
                match e with
                | InvalidChecksumError _ => log (EvPrint MsgInvalidChecksum) w1
                | _ =>
                    log (EvPrintErr (MsgTraceback e))
                      (log (EvPrintErr (MsgErrorDownloading title)) w1)
                end in
              attempts_loop fuel' i product title directory_path checksum
                check_existing
                {| at_path := at_path st;
                   at_product_info := at_product_info st;
                   at_download_successful := at_download_successful st;
                   at_remaining_attempts := at_remaining_attempts st - 1 |}
                w2
        end
    end
  else Some (w, Ok st).

(** [product['title'] + '.zip'] needs a string. *)
Definition title_of (product : json) : res string :=
  let* t := subscript product "title" in
  match t with
  | JStr s => Ok s
  | _ => Raise TypeError
  end.

(** The [for i, product in enumerate(products)] loop; [n] is
    [len(products)]. *)
Fixpoint products_loop (ps : list json) (i n : nat) (directory_path : string)
  (max_attempts : Z) (checksum check_existing : bool)
  (result : gmap string (option ProductInfo)) (w : World)
  : option (World * res (gmap string (option ProductInfo))) :=
  match ps with
  | [] => Some (w, Ok result)
  | product :: rest =>
      match title_of product with
      | Raise e => Some (w, Raise e)
      | Ok title =>
          match attempts_loop (Z.to_nat max_attempts) i product title
                  directory_path checksum check_existing
                  {| at_path := join directory_path (title ++ ".zip");
                     at_product_info := None;
                     at_download_successful := false;
                     at_remaining_attempts := max_attempts |} w with
          | None => None
          | Some (w1, Raise e) => Some (w1, Raise e)
          | Some (w1, Ok st) =>
              products_loop rest (S i) n directory_path max_attempts checksum
                check_existing
                (<[at_path st := at_product_info st]> result)
                (log (EvPrint (MsgProgress (S i) n)) w1)
          end
      end
  end.

Definition download_all (a : Api) (directory_path : string)
  (max_attempts : Z) (checksum check_existing : bool) (w : World)
  : option (Api * World * res (gmap string (option ProductInfo))) :=
  let '(a', out, r) := get_products a in
  let w := log_all (map EvPrint out) w in
  match (let* products := r in
         let* n := py_len products in
         let* ps := py_iter products in
         Ok (n, ps)) with
  | Raise e => Some (a', w, Raise e)
  | Ok (n, ps) =>
      match products_loop ps 0 n directory_path max_attempts checksum
              check_existing ∅ (log (EvPrint (MsgWillDownload n)) w) with
      | None => None
      | Some (w', r') => Some (a', w', r')
      end
  end.

End BatchDownloader.

(** [SentinelAPI.download_all] with the method of the class. *)
Definition api_download_all (fuel : nat) (env : Env) :=
  download_all (download fuel env).

(* ===================================================================== *)
(** ** Vocabulary of the statements *)
(* ===================================================================== *)

(** A response whose body is the JSON value [j]. *)
Definition response_of (j : json) : Api :=
  {| last_query := None;
     content := Some {| status_code := 200; body_json := Some j;
                        raw_content := "" |};
     products := None |}.

(** The result of a method, without the attributes and the output. *)
Definition returned {S O A} (x : S * O * A) : A := snd x.

(** What [n] refused metadata requests leave in the trace, the first of
    them being request number [k]: the request, the printed error and a
    sleep of 60 seconds, [n] times. *)
Fixpoint retry_events (env : Env) (id : json) (k n : nat) : list Event :=
  match n with
  | O => []
  | S n' =>
      match catalog env k id with
      | Raise e =>
          EvGetProductInfo id :: EvPrint (MsgInvalidResponse e) :: EvSleep 60
          :: retry_events env id (S k) n'
      | Ok _ => []
      end
  end.

Definition after_requests (w : World) (n : nat) (events : list Event) : World :=
  {| fs := fs w; requests_made := (requests_made w + n)%nat;
     transfers_made := transfers_made w;
     trace := (trace w ++ events)%list |}.

(** A version number, most significant component first, and the order of
    version numbers: component by component, as numbers. *)
Fixpoint version_leb (v1 v2 : list Z) : bool :=
  match v1, v2 with
  | [], _ => true
  | _ :: _, [] => false
  | a :: r1, b :: r2 =>
      if a <? b then true else if a =? b then version_leb r1 r2 else false
  end.

(** The version whose resumed transfers are known to be broken. *)
Definition known_broken_version : list Z := [7; 43; 0].

Definition decimal (z : Z) : string :=
  DecimalString.NilZero.string_of_uint (N.to_uint (Z.to_N z)).

Fixpoint dotted (v : list Z) : string :=
  match v with
  | [] => ""
  | [a] => decimal a
  | a :: r => decimal a ++ "." ++ dotted r
  end.

(** [pycurl.version] of PycURL release [v] (built against some libcurl). *)
Definition pycurl_version_of (v : list Z) : string :=
  "PycURL/" ++ dotted v ++ " libcurl/7.47.0 OpenSSL/1.0.2g zlib/1.2.8".

(** A world with one file, nothing done yet. *)
Definition world_with_file (path : string) (f : File) : World :=
  {| fs := {[ path := f ]}; requests_made := 0; transfers_made := 0;
     trace := [] |}.

Definition empty_world : World :=
  {| fs := ∅; requests_made := 0; transfers_made := 0; trace := [] |}.

(** A product of 3 GiB, and an outside where the catalog answers at once
    and every transfer completes the file. *)
Definition big_product : ProductInfo :=
  {| pi_id := "a8dd0cfd"; pi_title := "S1A_EW_GRDH"; pi_size := 3 * 2 ^ 30;
     pi_md5 := "0123456789ABCDEF0123456789ABCDEF";
     pi_date := "2016-01-01T00:00:00Z"; pi_footprint := "";
     pi_url := "https://scihub.copernicus.eu/apihub/odata/v1/Products('a8dd0cfd')/$value" |}.

Definition complete_file (info : ProductInfo) : File :=
  {| f_size := pi_size info; f_md5 := lower (pi_md5 info) |}.

Definition reliable_env (info : ProductInfo) (version : string) : Env :=
  {| catalog := fun _ _ => Ok info;
     archive := fun _ _ _ => (Some (complete_file info), None);
     pycurl_version := version |}.

(** The trace of a download of [big_product] into the current directory
    that finds a partial file of 2 GiB, with PycURL release [v]. *)
Definition resumed_big_download (v : list Z) : option (list Event) :=
  match download 1 (reliable_env big_product (pycurl_version_of v))
          (JStr "a8dd0cfd") "." false false
          (world_with_file "./S1A_EW_GRDH.zip"
             {| f_size := 2 ^ 31; f_md5 := "d41d8cd98f00b204e9800998ecf8427e" |})
  with
  | Some (w, _) => Some (trace w)
  | None => None
  end.

(** The filter clauses of the keys [ks], one after the other. *)
Fixpoint filter_clauses (keywords : list (string * string)) (ks : list string)
  : string :=
  match ks with
  | [] => ""
  | k :: rest =>
      filter_clause k (default "" (assoc k keywords))
      ++ filter_clauses keywords rest
  end.

(** The end date [format_query] works with, and the initial date. *)
Definition effective_end_date (cls : SentinelAPI_class)
  (end_date : option date_arg) : date_arg :=
  match end_date with
  | Some d => d
  | None => ADatetime (format_query_end_date_default cls)
  end.

Definition effective_initial_date (initial_date end_date : date_arg)
  : res date_arg :=
  match initial_date with
  | ANone => minus_24h end_date
  | _ => Ok initial_date
  end.

(** [c in s] *)
Fixpoint contains (c : ascii) (s : string) : bool :=
  match s with
  | EmptyString => false
  | String x r => Ascii.eqb x c || contains c r
  end.

(** The size in GB of a value in the unit [unit]: a value in MB divided by
    1024, a value in KB divided by 1024 * 1024, any other left as it is. *)
Definition size_in_gb (value : float) (unit : string) : float :=
  if String.eqb unit "MB" then (value / 1024)%float
  else if String.eqb unit "KB" then (value / (1024 * 1024))%float
  else value.

(** The sum the loop builds, from the integer [0]. *)
Definition total_size (sizes : list float) : number :=
  fold_left (fun total g => NFloat (add_float total g)) sizes (NInt 0).

(** A catalog entry that reports the size [size]. *)
Definition entry_with_size (size : string) : json :=
  JDict [("title", JStr "S2A_OPER_PRD_MSIL1C");
         ("id", JStr "a8dd0cfd-613e-45ce-868c-d79177b916ed");
         ("str", JList [JDict [("name", JStr "platformname");
                               ("content", JStr "Sentinel-2")];
                        JDict [("name", JStr "size");
                               ("content", JStr size)]])].

(** The body of a search response with the entries [entries]. *)
Definition feed_of (entries : json) : json :=
  JDict [("feed", JDict [("opensearch:totalResults", JStr "2");
                         ("entry", entries)])].

(** A [float(s)] for strings of decimal digits (exact below [2^53]);
    any other string is refused. *)
Fixpoint digits_value (s : string) (acc : Z) : option Z :=
  match s with
  | EmptyString => Some acc
  | String c r =>
      let v := Z.of_nat (nat_of_ascii c) - 48 in
      if (0 <=? v) && (v <=? 9) then digits_value r (10 * acc + v) else None
  end.

Definition float_of_digits (s : string) : option float :=
  match s with
  | EmptyString => None
  | _ =>
      match digits_value s 0 with
      | Some z => Some (float_of_int z)
      | None => None
      end
  end.

(** A rounding to two decimals of a small non-negative float: scaled by
    100, rounded to an integer, scaled back. *)
Definition round_hundredths (x : float) : float :=
  ((x * 100 + 4503599627370496 - 4503599627370496) / 100)%float.

(** The calls of [download] that [download_all] made for the product of
    index [i], counted in a list of events. *)
Definition is_call (i : nat) (e : Event) : bool :=
  match e with
  | EvDownloadCall j _ => Nat.eqb j i
  | _ => false
  end.

Fixpoint calls (i : nat) (events : list Event) : nat :=
  match events with
  | [] => 0
  | e :: rest => ((if is_call i e then 1 else 0) + calls i rest)%nat
  end.

(** None of the events is a call of [download] by [download_all]. *)
Definition is_not_call (e : Event) : Prop :=
  match e with
  | EvDownloadCall _ _ => False
  | _ => True
  end.

(** [w'] is [w] after some more events, none of them a call of [download]
    by [download_all]. *)
Definition extends (w w' : World) : Prop :=
  exists events : list Event,
    trace w' = (trace w ++ events)%list /\ Forall is_not_call events.

(** A [download] method only adds events of its own to the trace. *)
Definition adds_own_events
  (download_method : json -> string -> bool -> bool -> World ->
                     option (World * res (string * ProductInfo))) : Prop :=
  forall (id : json) (directory_path : string) (checksum check_existing : bool)
         (w w' : World) (r : res (string * ProductInfo)),
    download_method id directory_path checksum check_existing w = Some (w', r) ->
    extends w w'.

(** Every call of the method for [id] raises an exception that is not one
    of the four fatal ones, in whatever world it is made: a method that a
    test has put in the place of [download], say. *)
Definition always_fails
  (download_method : json -> string -> bool -> bool -> World ->
                     option (World * res (string * ProductInfo)))
  (id : json) (directory_path : string) (checksum check_existing : bool)
  : Prop :=
  forall w : World,
    exists (w' : World) (e : exn),
      download_method id directory_path checksum check_existing w
      = Some (w', Raise e)
      /\ is_fatal e = false.

(** No call of the method for a product of [ps], with the arguments of
    the batch, returns [path]. *)
Definition never_filed_at
  (download_method : json -> string -> bool -> bool -> World ->
                     option (World * res (string * ProductInfo)))
  (directory_path : string) (checksum check_existing : bool)
  (ps : list json) (path : string) : Prop :=
  forall (p id : json) (w w' : World) (path' : string) (info : ProductInfo),
    In p ps ->
    subscript p "id" = Ok id ->
    download_method id directory_path checksum check_existing w
    = Some (w', Ok (path', info)) ->
    path' <> path.

(** The variables of the [while] loop when it starts. *)
Definition first_attempt (directory_path title : string) (max_attempts : Z)
  : Attempts :=
  {| at_path := join directory_path (title ++ ".zip");
     at_product_info := None;
     at_download_successful := false;
     at_remaining_attempts := max_attempts |}.

(** One pass of the [while] loop that caught an exception. *)
Definition one_attempt_less (st : Attempts) : Attempts :=
  {| at_path := at_path st;
     at_product_info := at_product_info st;
     at_download_successful := at_download_successful st;
     at_remaining_attempts := at_remaining_attempts st - 1 |}.

(** What the handlers of [download_all] print for a caught exception. *)
Definition log_caught (title : string) (e : exn) (w : World) : World :=
  match e with
  | InvalidChecksumError _ => log (EvPrint MsgInvalidChecksum) w
  | _ =>
      log (EvPrintErr (MsgTraceback e))
        (log (EvPrintErr (MsgErrorDownloading title)) w)
  end.

(** The world in which the [for] loop of [download_all] starts, over [n]
    products. *)
Definition batch_start (n : nat) (out : list Message) (w : World) : World :=
  log (EvPrint (MsgWillDownload n)) (log_all (map EvPrint out) w).

(** The result of [download_all], from the attributes [get_products] left
    and the outcome of the [for] loop. *)
Definition batch_from (a : Api)
  (outcome : option (World * res (gmap string (option ProductInfo))))
  : option (Api * World * res (gmap string (option ProductInfo))) :=
  match outcome with
  | Some (w, r) => Some (a, w, r)
  | None => None
  end.

(** The path under which [download_all] first files a product. *)
Definition target_path (directory_path title : string) : string :=
  join directory_path (title ++ ".zip").

(** No product of [ps] has the target path [path]. *)
Definition no_product_at (directory_path : string) (ps : list json)
  (path : string) : Prop :=
  forall (p : json) (title : string),
    In p ps -> subscript p "title" = Ok (JStr title) ->
    target_path directory_path title <> path.

(** What [download_all] prints when it catches [e]. *)
Definition caught_messages (title : string) (e : exn) : list Event :=
  match e with
  | InvalidChecksumError _ => [EvPrint MsgInvalidChecksum]
  | _ => [EvPrintErr (MsgErrorDownloading title); EvPrintErr (MsgTraceback e)]
  end.

(** Every one of the [n] attempts that [download_all] makes from the world
    [w] on, for the product [id] of index [i] and title [title], raises an
    exception that is not one of the four fatal ones.  The first call is
    made in [w]; every other one in the world that the call before it and
    the handler of its exception left. *)
Fixpoint every_attempt_fails
  (download_method : json -> string -> bool -> bool -> World ->
                     option (World * res (string * ProductInfo)))
  (n i : nat) (id : json) (title directory_path : string)
  (checksum check_existing : bool) (w : World) : Prop :=
  match n with
  | O => True
  | S n' =>
      exists (w' : World) (e : exn),
        download_method id directory_path checksum check_existing
          (log (EvDownloadCall i id) w)
        = Some (w', Raise e)
        /\ is_fatal e = false
        /\ every_attempt_fails download_method n' i id title directory_path
             checksum check_existing (log_caught title e w')
  end.

(** ** Concrete situations the statements are tried on *)

(** A small product, and a catalog entry with an id and a title. *)
Definition small_product : ProductInfo :=
  {| pi_id := "good"; pi_title := "T2"; pi_size := 100; pi_md5 := "ABC123";
     pi_date := "2016-01-01T00:00:00Z"; pi_footprint := "";
     pi_url := "https://scihub.copernicus.eu/apihub/odata/v1/Products('good')/$value" |}.

Definition entry (id title : string) : json :=
  JDict [("title", JStr title); ("id", JStr id)].

(** An outside where the metadata request for the product [bad] raises
    [fails_with] and every other product downloads well. *)
Definition env_failing_with (fails_with : exn) : Env :=
  {| catalog := fun _ id =>
                  if eq_str id "bad" then Raise fails_with else Ok small_product;
     archive := fun _ _ _ => (Some (complete_file small_product), None);
     pycurl_version := pycurl_version_of [7; 43; 0] |}.

Definition connection_error : exn := OtherError "ConnectionError".

Definition bad_then_good : Api :=
  response_of (feed_of (JList [entry "bad" "T1"; entry "good" "T2"])).

Definition good_bad_good : Api :=
  response_of (feed_of (JList [entry "good" "T2"; entry "bad" "T1";
                               entry "good" "T3"])).

(** An outside where the catalog refuses the first two metadata requests,
    and one where it refuses them all. *)
Definition env_catalog_back_after_two : Env :=
  {| catalog := fun n _ =>
                  if (n <? 2)%nat
                  then Raise (SentinelAPIError 503 "Service Unavailable")
                  else Ok small_product;
     archive := fun _ _ _ => (Some (complete_file small_product), None);
     pycurl_version := pycurl_version_of [7; 43; 0] |}.

Definition env_catalog_down : Env :=
  {| catalog := fun _ _ => Raise (SentinelAPIError 503 "Service Unavailable");
     archive := fun _ _ _ => (Some (complete_file small_product), None);
     pycurl_version := pycurl_version_of [7; 43; 0] |}.

(** An outside where every transfer leaves a file of the right size and
    the wrong content. *)
Definition corrupt_file : File := {| f_size := 100; f_md5 := "ffffff" |}.

Definition env_corrupting : Env :=
  {| catalog := fun _ _ => Ok small_product;
     archive := fun _ _ _ => (Some corrupt_file, None);
     pycurl_version := pycurl_version_of [7; 43; 0] |}.

(** An outside where every transfer of the product [bad] leaves a file of
    the right size and the wrong content, and every other product
    downloads well. *)
Definition bad_product : ProductInfo :=
  {| pi_id := "bad"; pi_title := "T1"; pi_size := 100; pi_md5 := "ABC123";
     pi_date := "2016-01-01T00:00:00Z"; pi_footprint := "";
     pi_url := "https://scihub.copernicus.eu/apihub/odata/v1/Products('bad')/$value" |}.

Definition env_corrupting_bad : Env :=
  {| catalog := fun _ id =>
                  if eq_str id "bad" then Ok bad_product else Ok small_product;
     archive := fun _ url _ =>
                  if String.eqb url (pi_url bad_product)
                  then (Some corrupt_file, None)
                  else (Some (complete_file small_product), None);
     pycurl_version := pycurl_version_of [7; 43; 0] |}.

(** The outcome of a batch, when it has one. *)
Definition batch_world
  (run : option (Api * World * res (gmap string (option ProductInfo))))
  : World :=
  match run with
  | Some (_, w, _) => w
  | None => empty_world
  end.

Definition batch_map
  (run : option (Api * World * res (gmap string (option ProductInfo))))
  : gmap string (option ProductInfo) :=
  match run with
  | Some (_, _, Ok m) => m
  | _ => ∅
  end.

Definition batch_api
  (run : option (Api * World * res (gmap string (option ProductInfo))))
  (a : Api) : Api :=
  match run with
  | Some (a', _, _) => a'
  | None => a
  end.

(** The version test of [download], for PycURL release [v]. *)
Definition code_finds_broken (v : list Z) : res bool :=
  pycurl_known_broken (reliable_env small_product (pycurl_version_of v)).

(** The test agrees with the order of version numbers on the release
    [a.b.c]. *)
Definition test_agrees (a b c : Z) : bool :=
  match code_finds_broken [a; b; c] with
  | Ok r => Bool.eqb r (version_leb [a; b; c] known_broken_version)
  | Raise _ => false
  end.

(** The [n] integers from [lo] on. *)
Definition range (lo : Z) (n : nat) : list Z :=
  map (fun k => lo + Z.of_nat k) (seq 0 n).

(** Every call of the method returns or raises. *)
Definition always_returns
  (download_method : json -> string -> bool -> bool -> World ->
                     option (World * res (string * ProductInfo))) : Prop :=
  forall (id : json) (directory_path : string) (checksum check_existing : bool)
         (w : World),
    is_Some (download_method id directory_path checksum check_existing w).

(* ===================================================================== *)
(** ** The rest of the client: responses and queries *)
(* ===================================================================== *)

(** [s[-1]] *)
Fixpoint last_char (s : string) : res ascii :=
  match s with
  | EmptyString => Raise IndexError
  | String c EmptyString => Ok c
  | String _ r => last_char r
  end.

(** [_url_trail_slash].  The test [api_url[-1] is not '/'] compares
    one-character strings, which the interpreter shares: it is the test
    that the two characters differ. *)
Definition _url_trail_slash (api_url : string) : res string :=
  let* c := last_char api_url in
  Ok (if negb (Ascii.eqb c "/") then api_url ++ "/" else api_url).

(** White space, for [strip] and [rstrip] (the ASCII part of it). *)
Definition is_py_space (c : ascii) : bool :=
  let n := nat_of_ascii c in
  ((9 <=? n) && (n <=? 13) || (28 <=? n) && (n <=? 32))%nat.

(** [s.lstrip()], [s.rstrip()], [s.strip()] *)
Fixpoint lstrip (s : string) : string :=
  match s with
  | String c r => if is_py_space c then lstrip r else s
  | EmptyString => EmptyString
  end.

Fixpoint rstrip (s : string) : string :=
  match s with
  | EmptyString => EmptyString
  | String c r =>
      match rstrip r with
      | EmptyString => if is_py_space c then EmptyString else String c EmptyString
      | r' => String c r'
      end
  end.

Definition strip (s : string) : string := lstrip (rstrip s).

(** [s.startswith('{')] *)
Definition starts_with_brace (s : string) : bool :=
  match s with
  | String "{" _ => true
  | _ => false
  end.

(** The attributes of a [SentinelAPIError]; [JNull] is [None]. *)
Record ApiError : Type := {
  err_http_status : Z;
  err_code : json;
  err_msg : json;
  err_response_body : string
}.

(** [response.raise_for_status()]: an [HTTPError] for the statuses 400 to
    599. *)
Definition raise_for_status (response : Response) : res unit :=
  if (400 <=? status_code response) && (status_code response <? 600)
  then Raise (OtherError "HTTPError")
  else Ok tt.

(** [response.json()]; [response.text] is [raw_content]. *)
Definition response_json (response : Response) : res json :=
  match body_json response with
  | Some j => Ok j
  | None => Raise ValueError
  end.

(** [response.json()['error']['message']['value']] *)
Definition error_message_value (response : Response) : res json :=
  let* j := response_json response in
  let* e := subscript j "error" in
  let* m := subscript e "message" in
  subscript m "value".

(** [response.json()['error']['code']] *)
Definition error_code (response : Response) : res json :=
  let* j := response_json response in
  let* e := subscript j "error" in
  subscript e "code".

Section ScihubResponse.

(** [html2text.HTML2Text().handle(text)], images and anchors ignored, is
    taken as given. *)
Variable html2text_handle : string -> res string.

(** The handler of the inner [try], entered with the message found so
    far: the text of a body that does not look like JSON is rendered by
    [html2text]; whatever that raises is passed over. *)
Definition message_fallback (msg : json) (response : Response) : json :=
  if negb (starts_with_brace (rstrip (raw_content response)))
  then
    match html2text_handle (raw_content response) with
    | Ok text => JStr (strip text)
    | Raise _ => msg
    end
  else msg.

(** The [api_error] that [_check_scihub_response] builds. *)
Definition api_error_of (response : Response) : ApiError :=
  let msg := JStr "API response not valid. JSON decoding failed." in
  let code := JNull in
  match error_message_value response with
  | Ok value =>
      match error_code response with
      | Ok c =>
          {| err_http_status := status_code response; err_code := c;
             err_msg := value; err_response_body := raw_content response |}
      | Raise _ =>
          {| err_http_status := status_code response; err_code := code;
             err_msg := message_fallback value response;
             err_response_body := raw_content response |}
      end
  | Raise _ =>
      {| err_http_status := status_code response; err_code := code;
         err_msg := message_fallback msg response;
         err_response_body := raw_content response |}
  end.

(** [_check_scihub_response]: [None] when it returns, [Some api_error]
    when it raises that [SentinelAPIError]. *)
Definition _check_scihub_response (response : Response) : option ApiError :=
  match (let* _ := raise_for_status response in response_json response) with
  | Ok _ => None
  | Raise _ => Some (api_error_of response)
  end.

(** The raised [SentinelAPIError] as a value of [exn], which keeps the
    status and the message (when it is a string). *)
Definition exn_of_api_error (err : ApiError) : exn :=
  SentinelAPIError (err_http_status err)
    (match err_msg err with
     | JStr s => s
     | _ => EmptyString
     end).

(** [query_raw]; [posted] is what [requests.post] returns or raises. *)
Definition query_raw (a : Api) (query : string) (posted : res Response)
  : Api * res unit :=
  let a1 := {| last_query := Some query; content := content a;
               products := products a |} in
  match posted with
  | Raise e => (a1, Raise e)
  | Ok response =>
      let a2 := {| last_query := Some query; content := Some response;
                   products := products a |} in
      match _check_scihub_response response with
      | Some err => (a2, Raise (exn_of_api_error err))
      | None => (a2, Ok tt)
      end
  end.

(** [query]; [post] is the catalog, from the query string it is sent. *)
Definition query (cls : SentinelAPI_class) (a : Api)
  (area point : option string) (initial_date : date_arg)
  (end_date : option date_arg) (keywords : list (string * string))
  (post : string -> res Response) : Api * res unit :=
  match query_string cls area point initial_date end_date keywords with
  | Raise e => (a, Raise e)
  | Ok q => query_raw a q (post q)
  end.

End ScihubResponse.

(** [SentinelAPI.__init__]: the attributes of a new client, and its
    [api_url]. *)
Definition new_client (api_url : string) : res (string * Api) :=
  let* url := _url_trail_slash api_url in
  Ok (url, {| last_query := None; content := None; products := None |}).

(* ===================================================================== *)
(** ** Vocabulary of the further properties *)
(* ===================================================================== *)

(** A date of the calendar, in the years [datetime] knows. *)
Definition valid_date (d : date) : Prop :=
  1 <= d_year d <= 9999
  /\ 1 <= d_month d <= 12
  /\ 1 <= d_day d <= days_in_month (d_year d) (d_month d).

(** The date written [YYYYMMDD]. *)
Definition ymd_string (d : date) : string :=
  zero_padded 4 (d_year d) ++ zero_padded 2 (d_month d)
  ++ zero_padded 2 (d_day d).

(** [month_then_day] reads back the month and the day written on two
    digits each. *)
Definition reads_back (m d : Z) : bool :=
  match month_then_day (zero_padded 2 m ++ zero_padded 2 d) with
  | Some (m', d', EmptyString) => (m' =? m) && (d' =? d)
  | _ => false
  end.

(** The files other than [path] are the same in [w] and [w']. *)
Definition same_files_except (path : string) (w w' : World) : Prop :=
  forall p : string, p <> path -> fs w' !! p = fs w !! p.

(** None of the events removes a file. *)
Definition is_not_remove (e : Event) : Prop :=
  match e with
  | EvRemove _ => False
  | _ => True
  end.

(** The world a call of [download] leaves, when it returns. *)
Definition world_after {A} (run : option (World * A)) : World :=
  match run with
  | Some (w, _) => w
  | None => empty_world
  end.

(** The lines [k/n products downloaded] for [k] from [i + 1] on, [len]
    of them. *)
Definition progress_lines (i len n : nat) : list Event :=
  map (fun k => EvPrint (MsgProgress k n)) (seq (S i) len).

(** Every product has a title that is a string. *)
Definition all_titled (ps : list json) : Prop :=
  forall p : json, In p ps -> exists title : string, title_of p = Ok title.

(** The same events, [k] times over. *)
Fixpoint repeated (k : nat) (events : list Event) : list Event :=
  match k with
  | O => []
  | S k' => (events ++ repeated k' events)%list
  end.

(** [x] is a dictionary whose [name] is not [name]. *)
Definition named_otherwise (name : string) (x : json) : Prop :=
  exists n : json, subscript x "name" = Ok n /\ eq_str n name = false.

(* ===================================================================== *)
(** ** The keyword arguments passed on to the transfer *)
(* ===================================================================== *)

(** [pycurl.CAINFO], the number of the curl option. *)
Definition CAINFO : Z := 10065.

(** A key of a [dict] of options: an option number or a string. *)
Definition dict_key : Type := Z + string.

(** The value of a keyword argument; the items of a list and the values
    of a dict are JSON-like values, [JNull] being [None]. *)
Inductive kwarg : Type :=
| KwNone
| KwBool (b : bool)
| KwInt (z : Z)
| KwStr (s : string)
| KwList (l : list json)
| KwDict (d : gmap dict_key json).

(** The position that the index [i] denotes in a sequence of [len]
    items. *)
Definition py_position (len : nat) (i : Z) : res nat :=
  if (0 <=? i) && (i <? Z.of_nat len) then Ok (Z.to_nat i)
  else if (- Z.of_nat len <=? i) && (i <? 0) then Ok (Z.to_nat (Z.of_nat len + i))
  else Raise IndexError.

(** [v[i]] with an integer [i]. *)
Definition kw_getitem (v : kwarg) (i : Z) : res json :=
  match v with
  | KwDict d =>
      match d !! (inl i : dict_key) with
      | Some x => Ok x
      | None => Raise (KeyError (decimal i))
      end
  | KwList l => let* n := py_position (length l) i in py_index l n
  | KwStr s =>
      let* n := py_position (String.length s) i in
      match String.get n s with
      | Some c => Ok (JStr (String c EmptyString))
      | None => Raise IndexError
      end
  | KwNone | KwBool _ | KwInt _ => Raise TypeError
  end.

(** [v[i] = x] with an integer [i]. *)
Definition kw_setitem (v : kwarg) (i : Z) (x : json) : res kwarg :=
  match v with
  | KwDict d => Ok (KwDict (<[(inl i : dict_key) := x]> d))
  | KwList l => let* n := py_position (length l) i in Ok (KwList (<[n := x]> l))
  | KwNone | KwBool _ | KwInt _ | KwStr _ => Raise TypeError
  end.

(** [kwargs_dict['pass_through_opts'][pycurl.CAINFO]] *)
Definition user_cainfo (kwargs_dict : gmap string kwarg) : res json :=
  match kwargs_dict !! "pass_through_opts" with
  | Some opts => kw_getitem opts CAINFO
  | None => Raise (KeyError "pass_through_opts")
  end.

(** [certifi.where()]; the module [certifi] is [None] when it could not be
    imported. *)
Definition certifi_where (certifi : option string) : res string :=
  match certifi with
  | Some path => Ok path
  | None => Raise AttributeError
  end.

Definition _fillin_cainfo (certifi : option string)
  (kwargs_dict : gmap string kwarg) : res (gmap string kwarg) :=
  let* cainfo :=
    match user_cainfo kwargs_dict with
    | Raise (KeyError _) =>
        match certifi_where certifi with
        | Ok path => Ok (JStr path)
        | Raise AttributeError => Ok JNull
        | Raise e => Raise e
        end
    | found => found
    end in
  match cainfo with
  | JNull => Ok kwargs_dict
  | _ =>
      let pass_through_opts :=
        default (KwDict ∅) (kwargs_dict !! "pass_through_opts") in
      let* pass_through_opts := kw_setitem pass_through_opts CAINFO cainfo in
      Ok (<["pass_through_opts" := pass_through_opts]> kwargs_dict)
  end.

(* ===================================================================== *)
(** ** The checksum of a file, block by block *)
(* ===================================================================== *)

(** [f.read(n)] on the bytes that are left: at most [n] of them, all of
    them for a negative [n]. *)
Definition f_read (n : Z) (rest : string) : string :=
  if n <? 0 then rest else String.substring 0 (Z.to_nat n) rest.

(** The bytes left after [n] of them have been read. *)
Fixpoint skip (n : nat) (s : string) : string :=
  match n, s with
  | O, _ => s
  | S n', String _ r => skip n' r
  | S _, EmptyString => EmptyString
  end.

Section Md5Blocks.

(** [hashlib.md5()], its [update] and its [hexdigest] are taken as
    given. *)
Variable md5_state : Type.
Variable md5_new : md5_state.
Variable md5_update : md5_state -> string -> md5_state.
Variable md5_hexdigest : md5_state -> string.

(** The [while True] loop of [md5_compare]: the state of the hash and the
    number of bytes reported to the progress bar. *)
Fixpoint read_blocks (fuel : nat) (block_size : Z) (rest : string)
  (md5 : md5_state) (progress : Z) : option (md5_state * Z) :=
  match fuel with
  | O => None
  | S fuel' =>
      let block_data := f_read block_size rest in
      match block_data with
      | EmptyString => Some (md5, progress)
      | String _ _ =>
          read_blocks fuel' block_size
            (skip (String.length block_data) rest)
            (md5_update md5 block_data)
            (progress + Z.of_nat (String.length block_data))
      end
  end.

(** [md5_compare(file_path, checksum, block_size)] on the bytes of the
    file: the answer, and the progress reported. *)
Definition md5_compare_blocks (fuel : nat) (file_bytes checksum : string)
  (block_size : Z) : option (bool * Z) :=
  match read_blocks fuel block_size file_bytes md5_new 0 with
  | Some (md5, progress) =>
      Some (String.eqb (lower (md5_hexdigest md5)) (lower checksum), progress)
  | None => None
  end.

(** The hash of [bytes] fed in one piece. *)
Definition fed_at_once (bytes : string) : md5_state :=
  match bytes with
  | EmptyString => md5_new
  | String _ _ => md5_update md5_new bytes
  end.

End Md5Blocks.

(* ===================================================================== *)
(** ** Footprints *)
(* ===================================================================== *)

(** The footprint [get_product_info] returns: the coordinates of the GML
    ring [poly_coords], each pair turned around. *)
Definition coord_string (poly_coords : string) : string :=
  String.concat ","
    (map (fun double_coord => String.concat " " (rev double_coord))
       (map (fun coord => py_split coord ",") (py_split poly_coords " "))).

(** A [geojson.Feature] whose geometry is a [geojson.Polygon]. *)
Record Feature : Type := {
  geometry : list (list (float * float));
  feature_id : Z;
  properties : gmap string json
}.

(** [s[10:-2]] *)
Definition slice_10_2 (s : string) : string :=
  String.substring 10 (String.length s - 12) s.

(** [next(x for x in items if x["name"] == name)["content"]] *)
Definition named_content (name : string) (items : json) : res json :=
  let* xs := py_iter items in
  let* x := next_named name xs in
  subscript x "content".

(** [next(x for x in scene["str"] if x["name"] == name)["content"]] *)
Definition str_content (name : string) (scene : json) : res json :=
  let* strs := subscript scene "str" in
  named_content name strs.

(** The footprint of the scene, cut at the commas: a list has slices but
    no [split]; a dict, a number, a boolean and [None] have no slices. *)
Definition footprint_coord_list (scene : json) : res (list string) :=
  let* content := str_content "footprint" scene in
  match content with
  | JStr s => Ok (py_split (slice_10_2 s) ",")
  | JList _ => Raise AttributeError
  | _ => Raise TypeError
  end.

(** [next(x for x in links if len(x.keys()) == 1)] *)
Fixpoint next_single_key (links : list json) : res json :=
  match links with
  | [] => Raise StopIteration
  | x :: rest =>
      match x with
      | JDict kvs =>
          if Nat.eqb (length kvs) 1 then Ok x else next_single_key rest
      | _ => Raise AttributeError
      end
  end.

(** The properties the dict display gives. *)
Definition first_props (scene : json) : res (gmap string json) :=
  let* product_id := subscript scene "id" in
  let* dates := subscript scene "date" in
  let* date_beginposition := named_content "beginposition" dates in
  let* links := subscript scene "link" in
  let* xs := py_iter links in
  let* x := next_single_key xs in
  let* download_link := subscript x "href" in
  Ok (<["download_link" := download_link]>
        (<["date_beginposition" := date_beginposition]>
           (<["product_id" := product_id]> ∅))).

(** [for str_prop in str_properties: props.update({str_prop: ...})]: the
    properties when the loop ends, and the exception that ended it. *)
Fixpoint update_props (scene : json) (str_properties : list string)
  (props : gmap string json) : gmap string json * option exn :=
  match str_properties with
  | [] => (props, None)
  | str_prop :: rest =>
      match str_content str_prop scene with
      | Ok v => update_props scene rest (<[str_prop := v]> props)
      | Raise e => (props, Some e)
      end
  end.

(** The two lists called [str_properties]. *)
Definition str_properties_tried : list string :=
  ["platformname"; "identifier"; "polarisationmode";
   "sensoroperationalmode"; "orbitdirection"; "producttype"].

Definition str_properties_otherwise : list string :=
  ["platformname"; "identifier";
   "sensoroperationalmode"; "orbitdirection"; "producttype"].

(** [props] of one scene: the [try] and, whatever it raised, the
    [except]. *)
Definition scene_props (scene : json) : res (gmap string json) :=
  let* props := first_props scene in
  match update_props scene str_properties_tried props with
  | (props, None) => Ok props
  | (props, Some _) =>
      match update_props scene str_properties_otherwise props with
      | (props, None) => Ok props
      | (_, Some e) => Raise e
      end
  end.

Section Footprints.

(** [float(s)] is taken as given ([None] for [ValueError]). *)
Variable py_float : string -> option float.

Definition to_float (s : string) : res float :=
  match py_float s with
  | Some f => Ok f
  | None => Raise ValueError
  end.

(** The ring of the polygon: one pair of floats for each coordinate. *)
Fixpoint polygon_ring (coord_list : list string) : res (list (float * float)) :=
  match coord_list with
  | [] => Ok []
  | coord :: rest =>
      let pieces := py_split coord " " in
      let* c0 := py_index pieces 0 in
      let* x := to_float c0 in
      let* c1 := py_index pieces 1 in
      let* y := to_float c1 in
      let* ring := polygon_ring rest in
      Ok ((x, y) :: ring)
  end.

(** The body of the loop of [get_footprints], for the scene numbered
    [id]. *)
Definition feature_of (scene : json) (id : Z) : res Feature :=
  let* coord_list := footprint_coord_list scene in
  let* ring := polygon_ring coord_list in
  let* props := scene_props scene in
  Ok {| geometry := [ring]; feature_id := id; properties := props |}.

Fixpoint footprints_loop (scenes : list json) (id : Z)
  (feature_list : list Feature) : res (list Feature) :=
  match scenes with
  | [] => Ok feature_list
  | scene :: rest =>
      let id := id + 1 in
      let* feature := feature_of scene id in
      footprints_loop rest id (feature_list ++ [feature])
  end.

Definition get_footprints (a : Api) : Api * list Message * res (list Feature) :=
  let '(a', out, r) := get_products a in
  (a', out,
   let* ps := r in
   let* scenes := py_iter ps in
   footprints_loop scenes 0 []).

End Footprints.

(** ** Vocabulary of the footprints *)

(** A pair of coordinates as GML writes it, and turned around. *)
Definition gml_pair (p : string * string) : string := fst p ++ "," ++ snd p.
Definition turned_pair (p : string * string) : string := snd p ++ " " ++ fst p.

(** Neither a blank nor a comma in [s]. *)
Definition plain_number (s : string) : Prop :=
  contains " " s = false /\ contains "," s = false.

(** The numbers [k+1 .. k+n]. *)
Fixpoint numbered_from (k : Z) (n : nat) : list Z :=
  match n with
  | O => []
  | S n' => (k + 1) :: numbered_from (k + 1) n'
  end.

(** The scene and its feature, whatever its number. *)
Definition feature_of_scene (py_float : string -> option float)
  (scene : json) (f : Feature) : Prop :=
  feature_of py_float scene (feature_id f) = Ok f.

(** A Sentinel-2 scene of a search response: no [polarisationmode]. *)
Definition sentinel2_scene : json :=
  JDict [("title", JStr "S2A_OPER_PRD_MSIL1C");
         ("id", JStr "a8dd0cfd-613e-45ce-868c-d79177b916ed");
         ("link", JList [JDict [("href", JStr "https://scihub/odata/v1/Products/$value")];
                         JDict [("rel", JStr "alternative");
                                ("href", JStr "https://scihub/odata/v1/Products/")]]);
         ("date", JList [JDict [("name", JStr "ingestiondate");
                                ("content", JStr "2016-01-03T09:12:11Z")];
                         JDict [("name", JStr "beginposition");
                                ("content", JStr "2016-01-02T10:14:32Z")]]);
         ("str", JList [JDict [("name", JStr "footprint");
                               ("content", JStr "POLYGON ((13 52,14 52,14 53,13 52))")];
                        JDict [("name", JStr "platformname");
                               ("content", JStr "Sentinel-2")];
                        JDict [("name", JStr "identifier");
                               ("content", JStr "S2A_OPER_PRD_MSIL1C")];
                        JDict [("name", JStr "sensoroperationalmode");
                               ("content", JStr "INS-NOBS")];
                        JDict [("name", JStr "orbitdirection");
                               ("content", JStr "DESCENDING")];
                        JDict [("name", JStr "producttype");
                               ("content", JStr "S2MSI1C")]])].

(* ===================================================================== *)
(** * Properties *)
(* ===================================================================== *)

(** ** The catalog client *)

Lemma get_products_entry (a : Api) (j feed entry : json) :
  content_json a = Ok j ->
  subscript j "feed" = Ok feed ->
  subscript feed "entry" = Ok entry ->
  returned (get_products a)
  = Ok (if is_dict entry then JList [entry] else entry).
Proof.
  intros Hj Hf He. unfold get_products.
  rewrite Hj. simpl. rewrite Hf. simpl. rewrite He.
  destruct (is_dict entry); reflexivity.
Qed.

Lemma get_products_missing_key (a : Api) (k : string) :
  (let* j := content_json a in
   let* feed := subscript j "feed" in
   subscript feed "entry") = Raise (KeyError k) ->
  get_products a = (a, [MsgNoProducts], Ok (JList [])).
Proof. intros H. unfold get_products. rewrite H. reflexivity. Qed.

(** C5: a search response whose [feed.entry] is a single object gives the
    same one-element list as a response whose [feed.entry] is the list of
    that object alone; a response where the [entry] key (or the [feed]
    key) is missing gives the empty list, not an exception. *)
Theorem C5_get_products_normalizes :
  (forall (fields rest_feed rest_body : list (string * json)),
      let single :=
        JDict (("feed", JDict (("entry", JDict fields) :: rest_feed))
               :: rest_body) in
      let native :=
        JDict (("feed", JDict (("entry", JList [JDict fields]) :: rest_feed))
               :: rest_body) in
      returned (get_products (response_of single)) = Ok (JList [JDict fields])
      /\ returned (get_products (response_of native))
         = returned (get_products (response_of single)))
  /\ (forall (feed rest_body : list (string * json)),
         assoc "entry" feed = None ->
         returned (get_products
                     (response_of (JDict (("feed", JDict feed) :: rest_body))))
         = Ok (JList []))
  /\ (forall (body : list (string * json)),
         assoc "feed" body = None ->
         returned (get_products (response_of (JDict body))) = Ok (JList [])).
Proof.
  split; [| split].
  - intros fields rest_feed rest_body. split; reflexivity.
  - intros feed rest_body Hnone.
    unfold get_products, response_of, content_json. simpl.
    rewrite Hnone. reflexivity.
  - intros body Hnone.
    unfold get_products, response_of, content_json. simpl.
    rewrite Hnone. reflexivity.
Qed.

(** ** The metadata loop of [download] *)

Lemma after_requests_0 (w : World) : after_requests w 0 [] = w.
Proof.
  destruct w as [f r t tr]. unfold after_requests. simpl.
  rewrite Nat.add_0_r, app_nil_r. reflexivity.
Qed.

Lemma resolve_product_info_retries (env : Env) (id : json) (info : ProductInfo) :
  forall (n fuel : nat) (w : World),
    (forall k, (k < n)%nat ->
               is_SentinelAPIError_res (catalog env (requests_made w + k) id) = true) ->
    catalog env (requests_made w + n) id = Ok info ->
    (n < fuel)%nat ->
    resolve_product_info fuel env id w
    = Some (after_requests w (S n)
              (retry_events env id (requests_made w) n ++ [EvGetProductInfo id]),
            Ok info).
Proof.
  induction n as [| n IH]; intros fuel w Hfail Hok Hfuel.
  - destruct fuel as [| fuel]; [lia |]. simpl.
    rewrite Nat.add_0_r in Hok. rewrite Hok.
    unfold after_requests. simpl. do 3 f_equal. lia.
  - destruct fuel as [| fuel]; [lia |]. simpl.
    pose proof (Hfail 0%nat ltac:(lia)) as H0.
    rewrite Nat.add_0_r in H0.
    destruct (catalog env (requests_made w) id) as [i | e] eqn:Hc;
      [discriminate |].
    simpl in H0. rewrite H0.
    rewrite IH.
    + unfold after_requests, log. simpl. rewrite <- !app_assoc. simpl.
      replace (S (requests_made w + S n)) with (requests_made w + S (S n))%nat
        by lia.
      reflexivity.
    + intros k Hk. simpl. rewrite <- Nat.add_succ_r. apply Hfail. lia.
    + simpl. rewrite <- Nat.add_succ_r. exact Hok.
    + lia.
Qed.

Lemma resolve_product_info_diverges (env : Env) (id : json) :
  (forall k, is_SentinelAPIError_res (catalog env k id) = true) ->
  forall (fuel : nat) (w : World), resolve_product_info fuel env id w = None.
Proof.
  intros Hall. induction fuel as [| fuel IH]; intros w; [reflexivity |].
  simpl. specialize (Hall (requests_made w)).
  destruct (catalog env (requests_made w) id) as [i | e]; [discriminate |].
  simpl in Hall. rewrite Hall. apply IH.
Qed.

Lemma resolve_product_info_raises (env : Env) (id : json) :
  forall (fuel : nat) (w w' : World) (e : exn),
    resolve_product_info fuel env id w = Some (w', Raise e) ->
    is_SentinelAPIError e = false.
Proof.
  induction fuel as [| fuel IH]; intros w w' e H; [discriminate |].
  simpl in H.
  destruct (catalog env (requests_made w) id) as [i | e0]; [discriminate |].
  destruct (is_SentinelAPIError e0) eqn:He0.
  - eapply IH. exact H.
  - inversion H; subst. exact He0.
Qed.


(** ** The download of one product *)

Lemma download_resolves (fuel : nat) (env : Env) (id : json)
  (directory_path : string) (checksum check_existing : bool)
  (w w1 : World) (info : ProductInfo) :
  resolve_product_info fuel env id w = Some (w1, Ok info) ->
  download fuel env id directory_path checksum check_existing w
  = Some (download_resolved env id directory_path checksum check_existing
            info w1).
Proof. intros H. unfold download. rewrite H. reflexivity. Qed.

Lemma file_exists_lookup (w : World) (path : string) (f : File) :
  fs w !! path = Some f ->
  file_exists w path = true /\ getsize w path = f_size f.
Proof. intros H. unfold file_exists, getsize. rewrite H. split; reflexivity. Qed.

Lemma file_exists_log (e : Event) (w : World) (path : string) :
  fs (log e w) !! path = fs w !! path.
Proof. reflexivity. Qed.

Lemma remove_lookup (w : World) (path : string) :
  fs (remove path w) !! path = None.
Proof. unfold remove. simpl. apply lookup_delete_eq. Qed.

(** Where no file stands at [path], the transfer starts from nothing: the
    workaround has nothing to do and the first thing that happens is a
    transfer without a resume offset. *)
Lemma transfer_and_verify_fresh (env : Env) (info : ProductInfo)
  (path : string) (checksum : bool) (w : World) :
  fs w !! path = None ->
  exists (w' : World) (r : res (string * ProductInfo)) (tail : list Event),
    transfer_and_verify env info path checksum w = (w', r)
    /\ trace w' = (trace w ++ EvTransfer (pi_url info) path None :: tail)%list.
Proof.
  intros Hnone. unfold transfer_and_verify, pycurl_workaround, file_exists.
  rewrite Hnone. simpl. unfold homura_download. rewrite Hnone.
  destruct (archive env (transfers_made w) (pi_url info) None) as [kept raised].
  destruct raised as [e |].
  - eexists _, _, []. split; reflexivity.
  - unfold verify_download. destruct checksum.
    + unfold md5_compare.
      match goal with |- context [fs ?W !! path] =>
        destruct (fs W !! path) as [g |] eqn:Hg end.
      * destruct (checksum_eq (f_md5 g) (pi_md5 info));
          eexists _, _, [EvChecksum path]; split; try reflexivity;
          simpl; rewrite <- app_assoc; reflexivity.
      * eexists _, _, []. split; reflexivity.
    + eexists _, _, []. split; reflexivity.
Qed.

(** C3: when the file at the target path has exactly the expected size,
    [download] with [check_existing=False] returns [(path, product_info)]
    at once, having printed two lines and transferred nothing; with
    [check_existing=True] and a matching checksum it returns at once too,
    having only read the file; with a checksum that does not match it
    removes the file and goes on to download it again from the start. *)
Theorem C3_existing_file_of_expected_size (fuel : nat) (env : Env) (id : json)
  (directory_path : string) (checksum check_existing : bool)
  (w w1 : World) (info : ProductInfo) (f : File) :
  resolve_product_info fuel env id w = Some (w1, Ok info) ->
  let path := join directory_path (pi_title info ++ ".zip") in
  fs w1 !! path = Some f ->
  f_size f = pi_size info ->
  let w2 := log (EvPrint (MsgDownloading id path)) w1 in
  (check_existing = false ->
   download fuel env id directory_path checksum check_existing w
   = Some (log (EvPrint (MsgAlreadyDownloaded path)) w2, Ok (path, info)))
  /\ (check_existing = true ->
      checksum_eq (f_md5 f) (pi_md5 info) = true ->
      download fuel env id directory_path checksum check_existing w
      = Some (log (EvPrint (MsgAlreadyDownloaded path))
                (log (EvChecksum path) w2),
              Ok (path, info)))
  /\ (check_existing = true ->
      checksum_eq (f_md5 f) (pi_md5 info) = false ->
      let w3 :=
        remove path (log (EvPrint (MsgCorrupt path)) (log (EvChecksum path) w2)) in
      download fuel env id directory_path checksum check_existing w
      = Some (transfer_and_verify env info path checksum w3)
      /\ fs w3 !! path = None
      /\ exists (w' : World) (r : res (string * ProductInfo)) (tail : list Event),
          transfer_and_verify env info path checksum w3 = (w', r)
          /\ trace w'
             = (trace w3 ++ EvTransfer (pi_url info) path None :: tail)%list).
Proof.
  intros Hres path Hf Hsize w2.
  rewrite (download_resolves _ _ _ _ _ _ _ _ _ Hres).
  unfold download_resolved. fold path. fold w2.
  assert (Hf2 : fs w2 !! path = Some f) by exact Hf.
  destruct (file_exists_lookup _ _ _ Hf2) as [Hex Hsz].
  unfold skip_existing. rewrite Hex, Hsz, Hsize, Z.eqb_refl. cbn [andb].
  split; [| split].
  - intros ->. reflexivity.
  - intros -> Heq. cbn [negb]. unfold md5_compare. rewrite Hf2, Heq.
    reflexivity.
  - intros -> Hne. cbn [negb]. unfold md5_compare. rewrite Hf2, Hne.
    set (w3 := remove path _). split; [reflexivity |].
    assert (Hgone : fs w3 !! path = None) by apply remove_lookup.
    split; [exact Hgone |].
    apply transfer_and_verify_fresh. exact Hgone.
Qed.

Lemma checksum_eq_iff (a b : string) :
  checksum_eq a b = true <-> lower a = lower b.
Proof. unfold checksum_eq. apply String.eqb_eq. Qed.

Lemma md5_compare_file (w : World) (path checksum : string) (f : File) :
  fs w !! path = Some f ->
  md5_compare path checksum w
  = (log (EvChecksum path) w, Ok (checksum_eq (f_md5 f) checksum)).
Proof. intros H. unfold md5_compare. rewrite H. reflexivity. Qed.

(** C6: with [checksum=True], when the file the transfer has left does not
    have the checksum of the product, [download] raises
    [InvalidChecksumError] and the file stays where it is: nothing happens
    after the transfer but the reading of the file.  The comparison is an
    equality of the two hex strings once both are lower-cased, so
    [ABC123] and [abc123] are equal. *)
Theorem C6_checksum_mismatch_raises_and_keeps_file :
  (forall (fuel : nat) (env : Env) (id : json) (directory_path : string)
          (check_existing : bool) (w w1 w2 w3 w4 : World)
          (info : ProductInfo) (f : File),
      resolve_product_info fuel env id w = Some (w1, Ok info) ->
      let path := join directory_path (pi_title info ++ ".zip") in
      skip_existing info path check_existing
        (log (EvPrint (MsgDownloading id path)) w1) = (w2, Ok false) ->
      pycurl_workaround env path w2 = (w3, Ok tt) ->
      homura_download env (pi_url info) path w3 = (w4, Ok tt) ->
      fs w4 !! path = Some f ->
      checksum_eq (f_md5 f) (pi_md5 info) = false ->
      let w' := log (EvChecksum path) w4 in
      download fuel env id directory_path true check_existing w
      = Some (w', Raise (InvalidChecksumError
                           "File corrupt: checksums do not match"))
      /\ fs w' = fs w4
      /\ fs w' !! path = Some f)
  /\ checksum_eq "ABC123" "abc123" = true
  /\ (forall a b : string, checksum_eq a b = true <-> lower a = lower b)
  /\ (forall (w : World) (path checksum : string) (f : File),
         fs w !! path = Some f ->
         md5_compare path checksum w
         = (log (EvChecksum path) w, Ok (checksum_eq (f_md5 f) checksum))).
Proof.
  split; [| split; [reflexivity | split]].
  - intros fuel env id directory_path check_existing w w1 w2 w3 w4 info f
           Hres path Hskip Hwork Htransfer Hf Hne w'.
    rewrite (download_resolves _ _ _ _ _ _ _ _ _ Hres).
    unfold download_resolved. fold path. rewrite Hskip.
    unfold transfer_and_verify. rewrite Hwork, Htransfer.
    unfold verify_download. rewrite (md5_compare_file _ _ _ _ Hf), Hne.
    split; [reflexivity | split; [reflexivity | exact Hf]].
  - apply checksum_eq_iff.
  - apply md5_compare_file.
Qed.

(** ** The workaround for resumed transfers over 2 GiB *)

(** What the code does: with a file of 2 GiB or more at the target path,
    the file is removed exactly when the first word of [pycurl.version],
    lower-cased, is at or before [pycurl/7.43.0] in the order of strings;
    otherwise it is kept. *)
Lemma pycurl_workaround_lexicographic (env : Env) (path token : string)
  (rest : list string) (w : World) (f : File) :
  fs w !! path = Some f ->
  2 ^ 31 <= f_size f ->
  py_split_ws (pycurl_version env) = token :: rest ->
  pycurl_workaround env path w
  = (if String.leb (lower token) "pycurl/7.43.0" then remove path w else w,
     Ok tt).
Proof.
  intros Hf Hsize Htok. unfold pycurl_workaround.
  destruct (file_exists_lookup _ _ _ Hf) as [-> ->].
  assert ((f_size f >=? 2 ^ 31) = true) as -> by lia.
  cbn [andb]. unfold pycurl_known_broken. rewrite Htok. cbn.
  destruct (String.leb (lower token) "pycurl/7.43.0"); reflexivity.
Qed.

Lemma in_range (lo z : Z) (n : nat) :
  lo <= z < lo + Z.of_nat n -> In z (range lo n).
Proof.
  intros Hz. unfold range. apply in_map_iff.
  exists (Z.to_nat (z - lo)). split; [lia |]. apply in_seq. lia.
Qed.

Lemma test_agrees_on_all_like_7_43_0 :
  forallb (fun a =>
             forallb (fun b => forallb (test_agrees a b) (range 0 10))
               (range 10 90))
    (range 0 10) = true.
Proof. vm_compute. reflexivity. Qed.

(** On the releases [a.b.c] written with as many digits as [7.43.0], the
    comparison of strings is the comparison of version numbers. *)
Lemma pycurl_test_agrees_on_like_7_43_0 (a b c : Z) :
  0 <= a <= 9 -> 10 <= b <= 99 -> 0 <= c <= 9 ->
  code_finds_broken [a; b; c]
  = Ok (version_leb [a; b; c] known_broken_version).
Proof.
  intros Ha Hb Hc.
  pose proof test_agrees_on_all_like_7_43_0 as Hall.
  rewrite forallb_forall in Hall.
  specialize (Hall a (in_range 0 a 10 ltac:(lia))).
  rewrite forallb_forall in Hall.
  specialize (Hall b (in_range 10 b 90 ltac:(lia))).
  rewrite forallb_forall in Hall.
  specialize (Hall c (in_range 0 c 10 ltac:(lia))).
  unfold test_agrees in Hall.
  destruct (code_finds_broken [a; b; c]) as [r |]; [| discriminate].
  apply Bool.eqb_prop in Hall. now subst r.
Qed.

(** C2, on the code: the test of the version is a comparison of strings.
    A PycURL release 7.9.8 is below 7.43.0, yet its partial file of 2 GiB
    is kept and the transfer resumes at byte [2^31]; a release 7.100.0 is
    above 7.43.0, yet its partial file is removed.  Releases 7.43.0 and
    7.43.0.1 are treated as the claim says. *)
Theorem C2_version_test_is_lexicographic :
  (version_leb [7; 9; 8] known_broken_version = true
   /\ resumed_big_download [7; 9; 8]
      = Some [EvGetProductInfo (JStr "a8dd0cfd");
              EvPrint (MsgDownloading (JStr "a8dd0cfd") "./S1A_EW_GRDH.zip");
              EvTransfer (pi_url big_product) "./S1A_EW_GRDH.zip"
                (Some (2 ^ 31))])
  /\ (version_leb [7; 100; 0] known_broken_version = false
      /\ resumed_big_download [7; 100; 0]
         = Some [EvGetProductInfo (JStr "a8dd0cfd");
                 EvPrint (MsgDownloading (JStr "a8dd0cfd") "./S1A_EW_GRDH.zip");
                 EvRemove "./S1A_EW_GRDH.zip";
                 EvTransfer (pi_url big_product) "./S1A_EW_GRDH.zip" None])
  /\ (version_leb [7; 43; 0] known_broken_version = true
      /\ resumed_big_download [7; 43; 0]
         = Some [EvGetProductInfo (JStr "a8dd0cfd");
                 EvPrint (MsgDownloading (JStr "a8dd0cfd") "./S1A_EW_GRDH.zip");
                 EvRemove "./S1A_EW_GRDH.zip";
                 EvTransfer (pi_url big_product) "./S1A_EW_GRDH.zip" None])
  /\ (version_leb [7; 43; 0; 1] known_broken_version = false
      /\ resumed_big_download [7; 43; 0; 1]
         = Some [EvGetProductInfo (JStr "a8dd0cfd");
                 EvPrint (MsgDownloading (JStr "a8dd0cfd") "./S1A_EW_GRDH.zip");
                 EvTransfer (pi_url big_product) "./S1A_EW_GRDH.zip"
                   (Some (2 ^ 31))]).
Proof. repeat split; vm_compute; reflexivity. Qed.

(** ** The query builder *)

Lemma string_app_assoc (a b c : string) : (a ++ b) ++ c = a ++ (b ++ c).
Proof.
  induction a as [| x a IH]; simpl; [reflexivity |].
  f_equal. exact IH.
Qed.

Lemma string_app_empty_r (a : string) : a ++ "" = a.
Proof.
  induction a as [| x a IH]; simpl; [reflexivity |].
  f_equal. exact IH.
Qed.

Lemma assoc_not_in {A} (k : string) (kvs : list (string * A)) :
  ~ In k (map fst kvs) -> assoc k kvs = None.
Proof.
  induction kvs as [| [k' v] kvs IH]; intros Hnot; [reflexivity |].
  simpl in *. destruct (String.eqb_spec k k') as [-> | Hne].
  - exfalso. apply Hnot. now left.
  - apply IH. intros Hin. apply Hnot. now right.
Qed.

Lemma assoc_in {A} (k : string) (kvs : list (string * A)) :
  In k (map fst kvs) -> exists v, assoc k kvs = Some v.
Proof.
  induction kvs as [| [k' v] kvs IH]; intros Hin; [destruct Hin |].
  simpl in *. destruct (String.eqb_spec k k') as [-> | Hne].
  - now exists v.
  - destruct Hin as [Heq | Hin]; [congruence | now apply IH].
Qed.

(** A dictionary read through [assoc] does not depend on the order of its
    pairs. *)
Lemma assoc_Permutation {A} (k : string) (l1 l2 : list (string * A)) :
  l1 ≡ₚ l2 -> NoDup (map fst l1) -> assoc k l1 = assoc k l2.
Proof.
  induction 1 as [| [k1 v1] l1 l2 Hperm IH | [k1 v1] [k2 v2] l
                 | l1 l2 l3 H12 IH12 H23 IH23]; intros Hnodup.
  - reflexivity.
  - simpl. destruct (String.eqb k k1); [reflexivity |].
    apply IH. now inversion Hnodup.
  - simpl. destruct (String.eqb_spec k k1) as [-> | Hne1];
      destruct (String.eqb_spec k1 k2) as [-> | Hne2]; try reflexivity.
    exfalso. inversion Hnodup as [| ? ? Hnot _]. apply Hnot. now left.
  - rewrite IH12 by exact Hnodup. apply IH23.
    assert (Hkeys : map fst l1 ≡ₚ map fst l2) by now apply Permutation_map.
    rewrite <- Hkeys. exact Hnodup.
Qed.

Lemma filters_loop_ext (kw1 kw2 : list (string * string)) :
  (forall k, assoc k kw1 = assoc k kw2) ->
  forall (ks : list string) (acc : string),
    filters_loop kw1 ks acc = filters_loop kw2 ks acc.
Proof.
  intros Hext. induction ks as [| k ks IH]; intros acc; [reflexivity |].
  simpl. rewrite <- Hext. destruct (assoc k kw1); [apply IH | reflexivity].
Qed.

Lemma sorted_Permutation (l1 l2 : list string) :
  l1 ≡ₚ l2 -> sorted l1 = sorted l2.
Proof.
  intros Hperm. unfold sorted.
  apply (StronglySorted_unique String.le).
  - apply StronglySorted_merge_sort; apply _.
  - apply StronglySorted_merge_sort; apply _.
  - rewrite !merge_sort_Permutation. exact Hperm.
Qed.

Lemma filters_loop_clauses (keywords : list (string * string)) :
  forall (ks : list string) (acc : string),
    (forall k, In k ks -> In k (keys keywords)) ->
    filters_loop keywords ks acc = Ok (acc ++ filter_clauses keywords ks).
Proof.
  induction ks as [| k ks IH]; intros acc Hin.
  - simpl. now rewrite string_app_empty_r.
  - simpl. destruct (assoc_in k keywords) as [v Hv]; [apply Hin; now left |].
    rewrite Hv. simpl. rewrite IH by (intros k' Hk'; apply Hin; now right).
    now rewrite string_app_assoc.
Qed.

Lemma sorted_keys_in (keywords : list (string * string)) (k : string) :
  In k (sorted (keys keywords)) -> In k (keys keywords).
Proof.
  unfold sorted. intros Hin.
  eapply Permutation_in; [apply (merge_sort_Permutation String.le) | exact Hin].
Qed.

(** The query is the date clause, the area clause, the point clause and
    the filter clauses of the sorted keys, in this order. *)
Lemma format_query_shape (cls : SentinelAPI_class) (area point : option string)
  (initial_date : date_arg) (end_date : option date_arg)
  (keywords : list (string * string)) (q : string) :
  format_query cls area point initial_date end_date keywords = Ok q ->
  exists (i : date_arg) (d1 d2 : string),
    effective_initial_date initial_date (effective_end_date cls end_date) = Ok i
    /\ format_date i = Ok d1
    /\ format_date (effective_end_date cls end_date) = Ok d2
    /\ q = date_clause d1 d2 ++ area_clause area ++ point_clause point
           ++ filter_clauses keywords (sorted (keys keywords)).
Proof.
  unfold format_query. fold (effective_end_date cls end_date).
  fold (effective_initial_date initial_date (effective_end_date cls end_date)).
  destruct (negb (is_Some_b area || is_Some_b point)); [discriminate |].
  destruct (effective_initial_date initial_date (effective_end_date cls end_date))
    as [i |] eqn:Hi; [| discriminate].
  cbn [res_bind].
  destruct (format_date i) as [d1 |] eqn:H1; [| discriminate]. cbn [res_bind].
  destruct (format_date (effective_end_date cls end_date)) as [d2 |] eqn:H2;
    [| discriminate].
  cbn [res_bind].
  rewrite filters_loop_clauses by apply sorted_keys_in.
  cbn [res_bind]. intros [= <-]. exists i, d1, d2.
  repeat split; first [reflexivity | assumption].
Qed.


Lemma minus_24h_datetime (d : datetime) (i : date_arg) :
  minus_24h (ADatetime d) = Ok i ->
  exists y : datetime, datetime_minus_24h d = Ok y /\ i = ADatetime y.
Proof.
  unfold minus_24h. destruct (datetime_minus_24h d) as [y |]; [| discriminate].
  cbn [res_bind]. intros [= <-]. now exists y.
Qed.

(** C10: the [end_date] that [format_query] and [query] use when the
    caller gives none is the time at which the module was imported (the
    clock read when each [def] was executed), not the time of the call:
    two calls at any two later times, with the same arguments, build the
    same query, and the date range of that query is the 24 hours before
    the import. *)
Theorem C10_default_end_date_fixed_at_import
  (query_def_time format_query_def_time : datetime)
  (area point : option string) (initial_date : date_arg)
  (keywords : list (string * string)) :
  let rt := import_module query_def_time format_query_def_time in
  (forall now1 now2 : datetime,
      call_format_query (elapse rt now1) area point initial_date None keywords
      = call_format_query (elapse rt now2) area point initial_date None keywords
      /\ call_query (elapse rt now1) area point initial_date None keywords
         = call_query (elapse rt now2) area point initial_date None keywords)
  /\ (forall now : datetime,
         call_format_query (elapse rt now) area point initial_date None keywords
         = call_format_query (elapse rt now) area point initial_date
             (Some (ADatetime format_query_def_time)) keywords
         /\ call_query (elapse rt now) area point initial_date None keywords
            = call_format_query (elapse rt now) area point initial_date
                (Some (ADatetime query_def_time)) keywords)
  /\ (forall (now : datetime) (q : string),
         call_format_query (elapse rt now) area point ANone None keywords = Ok q ->
         exists day_before : datetime,
           datetime_minus_24h format_query_def_time = Ok day_before
           /\ q = date_clause (strftime day_before)
                    (strftime format_query_def_time)
                  ++ area_clause area ++ point_clause point
                  ++ filter_clauses keywords (sorted (keys keywords))).
Proof.
  intros rt. split; [| split].
  - intros now1 now2. split; reflexivity.
  - intros now. split; reflexivity.
  - intros now q Hq. unfold call_format_query in Hq.
    apply format_query_shape in Hq as (i & d1 & d2 & Hi & H1 & H2 & ->).
    cbn in Hi, H2.
    apply minus_24h_datetime in Hi as (y & Hy & ->).
    cbn in H1. injection H1 as <-. injection H2 as <-.
    exists y. split; [exact Hy | reflexivity].
Qed.

(** The module is imported on 1 March 2016 at noon; a query built a week
    later without dates still ranges over the day before the import. *)
Example format_query_a_week_after_import :
  let noon := {| dt_date := {| d_year := 2016; d_month := 3; d_day := 1 |};
                 dt_hour := 12; dt_minute := 0; dt_second := 0;
                 dt_microsecond := 0 |} in
  let a_week_later :=
    {| dt_date := {| d_year := 2016; d_month := 3; d_day := 8 |};
       dt_hour := 12; dt_minute := 0; dt_second := 0; dt_microsecond := 0 |} in
  call_format_query (elapse (import_module noon noon) a_week_later)
    None (Some "52.5, 13.4") ANone None [("producttype", "SLC")]
  = Ok ("(beginPosition:[2016-02-29T12:00:00Z TO 2016-03-01T12:00:00Z])"
        ++ " AND (footprint:" ++ dquote ++ "intersects(52.5, 13.4)" ++ dquote
        ++ ") AND (producttype:SLC)").
Proof. vm_compute. reflexivity. Qed.

(** ** The total size of the products *)

Lemma py_split_no_sep (s : string) (sep : ascii) :
  contains sep s = false -> py_split s sep = [s].
Proof.
  induction s as [| c r IH]; intros Hno; [reflexivity |].
  simpl in *. apply orb_false_elim in Hno as [Hc Hr].
  rewrite Hc, (IH Hr). reflexivity.
Qed.

Lemma py_split_at_sep (v r : string) (sep : ascii) :
  contains sep v = false ->
  py_split (v ++ String sep r) sep = v :: py_split r sep.
Proof.
  induction v as [| c v IH]; intros Hno.
  - simpl. rewrite Ascii.eqb_refl. reflexivity.
  - simpl in *. apply orb_false_elim in Hno as [Hc Hv].
    rewrite Hc, (IH Hv). reflexivity.
Qed.

Lemma py_split_value_unit (v u : string) :
  contains " " v = false -> contains " " u = false ->
  py_split (v ++ " " ++ u) " " = [v; u].
Proof.
  intros Hv Hu. change (v ++ " " ++ u) with (v ++ String " " u).
  rewrite py_split_at_sep by exact Hv. now rewrite py_split_no_sep.
Qed.

Section ProductsSizeProperties.

Variable py_float : string -> option float.
Variable py_round2 : float -> float.

(** The two [if]s of the loop body convert as [size_in_gb] says. *)
Lemma product_size_value_unit (product : json) (v u : string) (x : float) :
  size_content product = Ok (JStr (v ++ " " ++ u)) ->
  contains " " v = false ->
  contains " " u = false ->
  py_float v = Some x ->
  product_size py_float product = Ok (size_in_gb x u).
Proof.
  intros Hcontent Hv Hu Hx. unfold product_size. rewrite Hcontent.
  cbn [res_bind]. rewrite py_split_value_unit by assumption.
  cbn [py_index lookup list_lookup res_bind]. rewrite Hx.
  cbn [res_bind]. f_equal. unfold size_in_gb.
  destruct (String.eqb_spec u "MB") as [-> | _]; [reflexivity |].
  destruct (String.eqb u "KB"); reflexivity.
Qed.

Lemma size_loop_total (ps : list json) (sizes : list float) :
  Forall2 (fun p g => product_size py_float p = Ok g) ps sizes ->
  forall total : number,
    size_loop py_float ps total
    = Ok (fold_left (fun t g => NFloat (add_float t g)) sizes total).
Proof.
  induction 1 as [| p g ps sizes Hp _ IH]; intros total; [reflexivity |].
  simpl. rewrite Hp. cbn [res_bind]. apply IH.
Qed.

(** C9: [get_products_size] turns the size string of every entry into
    GB (a value in MB divided by 1024, a value in KB divided by
    1024 * 1024, a value in GB left as it is), adds the sizes up and
    rounds once, at the end; for the sizes [500 MB] and [1 KB] the
    result is [round(500/1024 + 1/1024/1024, 2)]. *)
Theorem C9_get_products_size :
  (forall (product : json) (v u : string) (x : float),
      size_content product = Ok (JStr (v ++ " " ++ u)) ->
      contains " " v = false ->
      contains " " u = false ->
      py_float v = Some x ->
      product_size py_float product = Ok (size_in_gb x u))
  /\ (forall x : float,
         size_in_gb x "MB" = (x / 1024)%float
         /\ size_in_gb x "KB" = (x / (1024 * 1024))%float
         /\ size_in_gb x "GB" = x)
  /\ (forall (a : Api) (ps : list json) (sizes : list float),
         returned (get_products a) = Ok (JList ps) ->
         Forall2 (fun p g => product_size py_float p = Ok g) ps sizes ->
         returned (get_products_size py_float py_round2 a)
         = Ok (round2 py_round2 (total_size sizes)))
  /\ (py_float "500" = Some 500%float ->
      py_float "1" = Some 1%float ->
      returned (get_products_size py_float py_round2
                  (response_of
                     (feed_of (JList [entry_with_size "500 MB";
                                      entry_with_size "1 KB"]))))
      = Ok (NFloat (py_round2 (500 / 1024 + 1 / 1024 / 1024)%float))).
Proof.
  split; [| split; [| split]].
  - apply product_size_value_unit.
  - intros x. repeat split; reflexivity.
  - intros a ps sizes Hps Hsizes. unfold get_products_size.
    destruct (get_products a) as [[a' out] r]. cbn in Hps. subst r.
    cbn [returned snd res_bind py_iter].
    rewrite (size_loop_total _ _ Hsizes). reflexivity.
  - intros H500 H1.
    unfold get_products_size, returned.
    cbn -[PrimFloat.div PrimFloat.add float_of_int].
    rewrite H500, H1.
    cbn -[PrimFloat.div PrimFloat.add float_of_int].
    vm_compute. reflexivity.
Qed.

End ProductsSizeProperties.

(** ** What a download adds to the trace *)

Lemma extends_refl (w : World) : extends w w.
Proof. exists []. split; [now rewrite app_nil_r | constructor]. Qed.

Lemma extends_trans (w1 w2 w3 : World) :
  extends w1 w2 -> extends w2 w3 -> extends w1 w3.
Proof.
  intros (e1 & H1 & F1) (e2 & H2 & F2). exists (e1 ++ e2)%list. split.
  - rewrite H2, H1, <- app_assoc. reflexivity.
  - apply Forall_app. now split.
Qed.

Lemma extends_log (e : Event) (w : World) :
  is_not_call e -> extends w (log e w).
Proof. intros He. exists [e]. split; [reflexivity | now repeat constructor]. Qed.

Lemma extends_remove (path : string) (w : World) : extends w (remove path w).
Proof. exists [EvRemove path]. split; [reflexivity | now repeat constructor]. Qed.

Lemma extends_md5_compare (path checksum : string) (w w' : World) (r : res bool) :
  md5_compare path checksum w = (w', r) -> extends w w'.
Proof.
  unfold md5_compare. destruct (fs w !! path); intros [= <- <-].
  - now apply extends_log.
  - apply extends_refl.
Qed.

Lemma extends_homura_download (env : Env) (url path : string) (w w' : World)
  (r : res unit) :
  homura_download env url path w = (w', r) -> extends w w'.
Proof.
  unfold homura_download.
  destruct (archive env (transfers_made w) url (fs w !! path)) as [kept raised].
  destruct raised; intros [= <- <-];
    (eexists [_]; split; [reflexivity | now repeat constructor]).
Qed.

Lemma extends_pycurl_workaround (env : Env) (path : string) (w w' : World)
  (r : res unit) :
  pycurl_workaround env path w = (w', r) -> extends w w'.
Proof.
  unfold pycurl_workaround.
  destruct (file_exists w path && (getsize w path >=? 2 ^ 31)).
  - destruct (pycurl_known_broken env) as [[|] |]; intros [= <- <-];
      first [apply extends_remove | apply extends_refl].
  - intros [= <- <-]. apply extends_refl.
Qed.

Lemma extends_skip_existing (info : ProductInfo) (path : string)
  (check_existing : bool) (w w' : World) (r : res bool) :
  skip_existing info path check_existing w = (w', r) -> extends w w'.
Proof.
  unfold skip_existing.
  destruct (file_exists w path && (getsize w path =? pi_size info)).
  - destruct (negb check_existing).
    + intros [= <- <-]. now apply extends_log.
    + destruct (md5_compare path (pi_md5 info) w) as [w1 [[|] | e]] eqn:Hmd5;
        apply extends_md5_compare in Hmd5; intros [= <- <-].
      * eapply extends_trans; [exact Hmd5 | now apply extends_log].
      * eapply extends_trans; [exact Hmd5 |].
        eapply extends_trans; [| apply extends_remove]. now apply extends_log.
      * exact Hmd5.
  - intros [= <- <-]. apply extends_refl.
Qed.

Lemma extends_verify_download (info : ProductInfo) (path : string)
  (checksum : bool) (w w' : World) (r : res (string * ProductInfo)) :
  verify_download info path checksum w = (w', r) -> extends w w'.
Proof.
  unfold verify_download. destruct checksum.
  - destruct (md5_compare path (pi_md5 info) w) as [w1 [[|] | e]] eqn:Hmd5;
      apply extends_md5_compare in Hmd5; intros [= <- <-]; exact Hmd5.
  - intros [= <- <-]. apply extends_refl.
Qed.

Lemma extends_transfer_and_verify (env : Env) (info : ProductInfo)
  (path : string) (checksum : bool) (w w' : World)
  (r : res (string * ProductInfo)) :
  transfer_and_verify env info path checksum w = (w', r) -> extends w w'.
Proof.
  unfold transfer_and_verify.
  destruct (pycurl_workaround env path w) as [w1 [u | e]] eqn:Hwork;
    apply extends_pycurl_workaround in Hwork.
  - destruct (homura_download env (pi_url info) path w1) as [w2 [u' | e]]
      eqn:Htransfer; apply extends_homura_download in Htransfer.
    + intros Hverify. apply extends_verify_download in Hverify.
      eauto using extends_trans.
    + intros [= <- <-]. eauto using extends_trans.
  - intros [= <- <-]. exact Hwork.
Qed.

Lemma extends_download_resolved (env : Env) (id : json) (directory_path : string)
  (checksum check_existing : bool) (info : ProductInfo) (w w' : World)
  (r : res (string * ProductInfo)) :
  download_resolved env id directory_path checksum check_existing info w
  = (w', r) ->
  extends w w'.
Proof.
  unfold download_resolved.
  set (path := join directory_path (pi_title info ++ ".zip")).
  set (w0 := log (EvPrint (MsgDownloading id path)) w).
  assert (H0 : extends w w0) by now apply extends_log.
  destruct (skip_existing info path check_existing w0) as [w1 [[|] | e]]
    eqn:Hskip; apply extends_skip_existing in Hskip.
  - intros [= <- <-]. eauto using extends_trans.
  - intros Hrest. apply extends_transfer_and_verify in Hrest.
    eauto using extends_trans.
  - intros [= <- <-]. eauto using extends_trans.
Qed.

Lemma extends_resolve_product_info (env : Env) (id : json) :
  forall (fuel : nat) (w w' : World) (r : res ProductInfo),
    resolve_product_info fuel env id w = Some (w', r) -> extends w w'.
Proof.
  induction fuel as [| fuel IH]; intros w w' r H; [discriminate |].
  simpl in H.
  assert (Hreq : extends w
                   {| fs := fs w; requests_made := S (requests_made w);
                      transfers_made := transfers_made w;
                      trace := (trace w ++ [EvGetProductInfo id])%list |})
    by (exists [EvGetProductInfo id]; split;
        [reflexivity | now repeat constructor]).
  destruct (catalog env (requests_made w) id) as [info | e].
  - injection H as <- <-. exact Hreq.
  - destruct (is_SentinelAPIError e).
    + apply IH in H. eapply extends_trans; [exact Hreq |].
      eapply extends_trans; [| exact H].
      eapply extends_trans; now apply extends_log.
    + injection H as <- <-. exact Hreq.
Qed.

(** The method of the class only adds events of its own. *)
Lemma download_adds_own_events (fuel : nat) (env : Env) :
  adds_own_events (download fuel env).
Proof.
  intros id directory_path checksum check_existing w w' r. unfold download.
  destruct (resolve_product_info fuel env id w) as [[w1 [info | e]] |] eqn:Hres;
    [| | discriminate]; apply extends_resolve_product_info in Hres.
  - intros [= H]. apply extends_download_resolved in H.
    eauto using extends_trans.
  - intros [= <- <-]. exact Hres.
Qed.

(** The path [download] returns is the target path of the title the
    catalog gave. *)
Lemma download_resolved_returns_target (env : Env) (id : json)
  (directory_path : string) (checksum check_existing : bool)
  (info info' : ProductInfo) (w w' : World) (path : string) :
  download_resolved env id directory_path checksum check_existing info w
  = (w', Ok (path, info')) ->
  path = target_path directory_path (pi_title info) /\ info' = info.
Proof.
  unfold download_resolved, transfer_and_verify, verify_download, target_path.
  repeat match goal with
         | |- context [match ?x with _ => _ end] => destruct x
         end;
    intros [= <- <- <-]; split; reflexivity.
Qed.

Lemma resolve_product_info_answer (env : Env) (id : json) :
  forall (fuel : nat) (w w' : World) (info : ProductInfo),
    resolve_product_info fuel env id w = Some (w', Ok info) ->
    exists n : nat, catalog env n id = Ok info.
Proof.
  induction fuel as [| fuel IH]; intros w w' info H; [discriminate |].
  simpl in H.
  destruct (catalog env (requests_made w) id) as [i | e] eqn:Hc.
  - injection H as <- <-. now exists (requests_made w).
  - destruct (is_SentinelAPIError e); [| discriminate]. eapply IH. exact H.
Qed.

Lemma download_returns_target (fuel : nat) (env : Env) (id : json)
  (directory_path : string) (checksum check_existing : bool)
  (w w' : World) (path : string) (info : ProductInfo) :
  download fuel env id directory_path checksum check_existing w
  = Some (w', Ok (path, info)) ->
  path = target_path directory_path (pi_title info)
  /\ exists n : nat, catalog env n id = Ok info.
Proof.
  unfold download.
  destruct (resolve_product_info fuel env id w) as [[w1 [info1 | e]] |] eqn:Hres;
    [| discriminate | discriminate].
  intros [= H]. apply download_resolved_returns_target in H as [-> ->].
  split; [reflexivity |]. eapply resolve_product_info_answer. exact Hres.
Qed.

(** ** The batch download *)

Lemma calls_app (i : nat) (a b : list Event) :
  calls i (a ++ b) = (calls i a + calls i b)%nat.
Proof. induction a as [| e a IH]; simpl; [reflexivity | rewrite IH; lia]. Qed.

Lemma calls_not_call (i : nat) (events : list Event) :
  Forall is_not_call events -> calls i events = 0%nat.
Proof.
  induction 1 as [| e events He _ IH]; [reflexivity |].
  simpl. rewrite IH. destruct e; simpl in *; try reflexivity. destruct He.
Qed.

Section BatchProperties.

Variable download_method :
  json -> string -> bool -> bool -> World ->
  option (World * res (string * ProductInfo)).

Hypothesis download_method_adds_own_events : adds_own_events download_method.

Lemma attempts_loop_unfold (fuel i : nat) (product : json)
  (title directory_path : string) (checksum check_existing : bool)
  (st : Attempts) (w : World) :
  attempts_loop download_method fuel i product title directory_path checksum
    check_existing st w
  = if negb (at_download_successful st) && (at_remaining_attempts st >? 0)
    then
      match fuel with
      | O => None
      | S fuel' =>
          match try_download download_method i product directory_path
                  checksum check_existing w with
          | None => None
          | Some (w1, Ok (path, product_info)) =>
              attempts_loop download_method fuel' i product title
                directory_path checksum check_existing
                {| at_path := path; at_product_info := Some product_info;
                   at_download_successful := true;
                   at_remaining_attempts := at_remaining_attempts st - 1 |}
                w1
          | Some (w1, Raise e) =>
              if is_fatal e then Some (w1, Raise e)
              else
                attempts_loop download_method fuel' i product title
                  directory_path checksum check_existing
                  (one_attempt_less st) (log_caught title e w1)
          end
      end
    else Some (w, Ok st).
Proof. destruct fuel; reflexivity. Qed.

(** One pass through the [try] block: at most one call, for the product
    of index [i]. *)
Lemma try_download_events (i : nat) (product : json) (directory_path : string)
  (checksum check_existing : bool) (w w' : World)
  (r : res (string * ProductInfo)) :
  try_download download_method i product directory_path checksum
    check_existing w = Some (w', r) ->
  exists events : list Event,
    trace w' = (trace w ++ events)%list
    /\ calls i events
       = match subscript product "id" with Ok _ => 1%nat | Raise _ => 0%nat end
    /\ forall j, j <> i -> calls j events = 0%nat.
Proof.
  unfold try_download. destruct (subscript product "id") as [id | e].
  - intros H. apply download_method_adds_own_events in H
      as (events & Htrace & Hnot).
    exists (EvDownloadCall i id :: events). simpl in Htrace.
    rewrite <- app_assoc in Htrace. split; [exact Htrace |]. split.
    + simpl. rewrite Nat.eqb_refl, (calls_not_call _ _ Hnot). reflexivity.
    + intros j Hj. simpl. rewrite (calls_not_call _ _ Hnot).
      destruct (Nat.eqb_spec i j); [congruence | reflexivity].
  - intros [= <- <-]. exists []. rewrite app_nil_r. repeat split.
Qed.

Lemma log_caught_events (title : string) (e : exn) (w : World) :
  exists events : list Event,
    trace (log_caught title e w) = (trace w ++ events)%list
    /\ Forall is_not_call events.
Proof.
  destruct e; simpl;
    first [ (eexists [_]; split; [reflexivity | now repeat constructor])
          | (eexists [_; _]; split;
             [rewrite <- app_assoc; reflexivity | now repeat constructor]) ].
Qed.

(** The [while] loop calls [download] at most [fuel] times, and only for
    the product of index [i]. *)
Lemma attempts_loop_events (i : nat) (product : json)
  (title directory_path : string) (checksum check_existing : bool) :
  forall (fuel : nat) (st : Attempts) (w w' : World) (r : res Attempts),
    attempts_loop download_method fuel i product title directory_path
      checksum check_existing st w = Some (w', r) ->
    exists events : list Event,
      trace w' = (trace w ++ events)%list
      /\ (calls i events <= fuel)%nat
      /\ forall j, j <> i -> calls j events = 0%nat.
Proof.
  induction fuel as [| fuel IH]; intros st w w' r; rewrite attempts_loop_unfold;
    destruct (negb (at_download_successful st) && (at_remaining_attempts st >? 0));
    try discriminate;
    try (intros [= <- <-]; exists []; rewrite app_nil_r;
         repeat split; simpl; lia).
  destruct (try_download download_method i product directory_path checksum
              check_existing w) as [[w1 [[path info] | e]] |] eqn:Htry;
    [| | discriminate];
    apply try_download_events in Htry as (ev1 & Ht1 & Hc1 & Ho1).
  - intros H. apply IH in H as (ev2 & Ht2 & Hc2 & Ho2).
    exists (ev1 ++ ev2)%list. split; [| split].
    + rewrite Ht2, Ht1, <- app_assoc. reflexivity.
    + rewrite calls_app, Hc1. destruct (subscript product "id"); lia.
    + intros j Hj. rewrite calls_app, Ho1, Ho2 by exact Hj. reflexivity.
  - destruct (is_fatal e).
    + intros [= <- <-]. exists ev1. split; [exact Ht1 |]. split.
      * rewrite Hc1. destruct (subscript product "id"); lia.
      * exact Ho1.
    + intros H. apply IH in H as (ev2 & Ht2 & Hc2 & Ho2).
      destruct (log_caught_events title e w1) as (evl & Htl & Hnl).
      exists (ev1 ++ evl ++ ev2)%list. split; [| split].
      * rewrite Ht2, Htl, Ht1, <- !app_assoc. reflexivity.
      * rewrite !calls_app, Hc1, (calls_not_call _ _ Hnl).
        destruct (subscript product "id"); lia.
      * intros j Hj.
        rewrite !calls_app, Ho1, (calls_not_call _ _ Hnl), Ho2 by exact Hj.
        reflexivity.
Qed.

(** The [for] loop from index [i]: at most [max_attempts] calls for any
    product, and none for a product before [i]. *)
Lemma products_loop_events (directory_path : string) (max_attempts : Z)
  (checksum check_existing : bool) (n : nat) :
  forall (ps : list json) (i : nat)
         (result : gmap string (option ProductInfo)) (w w' : World)
         (r : res (gmap string (option ProductInfo))),
    products_loop download_method ps i n directory_path max_attempts
      checksum check_existing result w = Some (w', r) ->
    exists events : list Event,
      trace w' = (trace w ++ events)%list
      /\ (forall j, (calls j events <= Z.to_nat max_attempts)%nat)
      /\ (forall j, (j < i)%nat \/ (i + length ps <= j)%nat ->
                    calls j events = 0%nat).
Proof.
  induction ps as [| product rest IH]; intros i result w w' r.
  - intros [= <- <-]. exists []. rewrite app_nil_r.
    repeat split; simpl; lia.
  - simpl. destruct (title_of product) as [title | e].
    2: { intros [= <- <-]. exists []. rewrite app_nil_r.
         repeat split; simpl; lia. }
    match goal with
    | |- context [attempts_loop ?d ?f ?i ?p ?t ?dp ?c ?ce ?st ?w] =>
        destruct (attempts_loop d f i p t dp c ce st w)
          as [[w1 [st' | e]] |] eqn:Hloop
    end; [| | discriminate];
      apply attempts_loop_events in Hloop as (ev1 & Ht1 & Hc1 & Ho1).
    + intros H. apply IH in H as (ev2 & Ht2 & Hc2 & Ho2).
      exists (ev1 ++ EvPrint (MsgProgress (S i) n) :: ev2)%list.
      split; [| split].
      * rewrite Ht2. simpl. rewrite Ht1, <- !app_assoc. reflexivity.
      * intros j. rewrite calls_app. simpl.
        destruct (Nat.eq_dec j i) as [-> | Hj].
        -- rewrite (Ho2 i) by lia. lia.
        -- rewrite (Ho1 j Hj). apply Hc2.
      * intros j Hj. rewrite calls_app. simpl in *.
        rewrite (Ho1 j) by lia. rewrite (Ho2 j) by lia. reflexivity.
    + intros [= <- <-]. exists ev1. split; [exact Ht1 |]. split.
      * intros j. destruct (Nat.eq_dec j i) as [-> | Hj];
          [exact Hc1 | rewrite (Ho1 j Hj); lia].
      * intros j Hj. apply Ho1. simpl in Hj. lia.
Qed.

(** When every attempt for the product raises an exception that is not
    fatal, the [while] loop makes every pass its variables allow: as many
    calls as [remaining_attempts] says, and the variables otherwise
    unchanged. *)
Lemma attempts_loop_exhausts (i : nat) (product id : json)
  (title directory_path : string) (checksum check_existing : bool) :
  subscript product "id" = Ok id ->
  forall (fuel : nat) (st : Attempts) (w : World),
    at_download_successful st = false ->
    Z.to_nat (at_remaining_attempts st) = fuel ->
    every_attempt_fails download_method fuel i id title directory_path
      checksum check_existing w ->
    exists (w' : World) (events : list Event),
      attempts_loop download_method fuel i product title directory_path
        checksum check_existing st w
      = Some (w', Ok {| at_path := at_path st;
                        at_product_info := at_product_info st;
                        at_download_successful := false;
                        at_remaining_attempts :=
                          at_remaining_attempts st - Z.of_nat fuel |})
      /\ trace w' = (trace w ++ events)%list
      /\ calls i events = fuel
      /\ forall j, j <> i -> calls j events = 0%nat.
Proof.
  intros Hid.
  induction fuel as [| fuel IH]; intros st w Hsucc Hrem Hfails;
    rewrite attempts_loop_unfold, Hsucc; cbn [negb andb].
  - assert ((at_remaining_attempts st >? 0) = false) as -> by lia.
    exists w, []. rewrite app_nil_r, Z.sub_0_r.
    destruct st; simpl in *; subst. repeat split.
  - assert ((at_remaining_attempts st >? 0) = true) as -> by lia.
    cbn [every_attempt_fails] in Hfails.
    destruct Hfails as (w1 & e & Hcall & Hnf & Hrest).
    assert (Htry : try_download download_method i product directory_path
                     checksum check_existing w = Some (w1, Raise e))
      by (unfold try_download; rewrite Hid; exact Hcall).
    rewrite Htry, Hnf.
    apply try_download_events in Htry as (ev1 & Ht1 & Hc1 & Ho1).
    rewrite Hid in Hc1.
    destruct (log_caught_events title e w1) as (evl & Htl & Hnl).
    destruct (IH (one_attempt_less st) (log_caught title e w1))
      as (w' & ev2 & Hloop & Ht2 & Hc2 & Ho2);
      [exact Hsucc | simpl; lia | exact Hrest |].
    exists w', (ev1 ++ evl ++ ev2)%list. split; [| split; [| split]].
    + rewrite Hloop.
      cbn [one_attempt_less at_path at_product_info at_download_successful
             at_remaining_attempts].
      replace (at_remaining_attempts st - 1 - Z.of_nat fuel)
        with (at_remaining_attempts st - Z.of_nat (S fuel)) by lia.
      reflexivity.
    + rewrite Ht2, Htl, Ht1, <- !app_assoc. reflexivity.
    + rewrite !calls_app, Hc1, (calls_not_call _ _ Hnl), Hc2. lia.
    + intros j Hj.
      rewrite !calls_app, Ho1, (calls_not_call _ _ Hnl), Ho2 by exact Hj.
      reflexivity.
Qed.

(** A product whose every attempt fails is filed under its target path
    with no product info, after [max_attempts] calls, and the [for] loop
    goes on with the next product. *)
Lemma products_loop_exhausted (i n : nat) (product id : json)
  (title directory_path : string) (max_attempts : Z)
  (checksum check_existing : bool) (rest : list json)
  (result : gmap string (option ProductInfo)) (w : World) :
  subscript product "id" = Ok id ->
  title_of product = Ok title ->
  every_attempt_fails download_method (Z.to_nat max_attempts) i id title
    directory_path checksum check_existing w ->
  exists (w1 : World) (events : list Event),
    trace w1 = (trace w ++ events)%list
    /\ calls i events = Z.to_nat max_attempts
    /\ (forall j, j <> i -> calls j events = 0%nat)
    /\ products_loop download_method (product :: rest) i n directory_path
         max_attempts checksum check_existing result w
       = products_loop download_method rest (S i) n directory_path
           max_attempts checksum check_existing
           (<[target_path directory_path title := None]> result)
           (log (EvPrint (MsgProgress (S i) n)) w1).
Proof.
  intros Hid Htitle Hfails.
  destruct (attempts_loop_exhausts i product id title directory_path
              checksum check_existing Hid (Z.to_nat max_attempts)
              (first_attempt directory_path title max_attempts) w)
    as (w1 & events & Hloop & Ht & Hc & Ho);
    [reflexivity | reflexivity | exact Hfails |].
  exists w1, events. repeat split; try assumption.
  cbn [products_loop]. rewrite Htitle.
  change {| at_path := join directory_path (title ++ ".zip");
            at_product_info := None; at_download_successful := false;
            at_remaining_attempts := max_attempts |}
    with (first_attempt directory_path title max_attempts).
  rewrite Hloop. reflexivity.
Qed.

(** The [for] loop over [ps1 ++ ps2] is the loop over [ps1] followed,
    when that one ends without an exception, by the loop over [ps2]. *)
Lemma products_loop_app (directory_path : string) (max_attempts : Z)
  (checksum check_existing : bool) (n : nat) (ps2 : list json) :
  forall (ps1 : list json) (i : nat)
         (result result1 : gmap string (option ProductInfo)) (w w1 : World),
    products_loop download_method ps1 i n directory_path max_attempts
      checksum check_existing result w = Some (w1, Ok result1) ->
    products_loop download_method (ps1 ++ ps2) i n directory_path
      max_attempts checksum check_existing result w
    = products_loop download_method ps2 (i + length ps1) n directory_path
        max_attempts checksum check_existing result1 w1.
Proof.
  induction ps1 as [| p ps1 IH]; intros i result result1 w w1.
  - intros [= <- <-]. simpl. rewrite Nat.add_0_r. reflexivity.
  - simpl. destruct (title_of p) as [title | e]; [| discriminate].
    match goal with
    | |- context [attempts_loop ?d ?f ?i ?p ?t ?dp ?c ?ce ?st ?w] =>
        destruct (attempts_loop d f i p t dp c ce st w)
          as [[w0 [st' | e]] |]
    end; [| discriminate | discriminate].
    intros H. rewrite (IH _ _ _ _ _ H). f_equal. lia.
Qed.

(** When the [while] loop ends, [path] holds the target path or a path
    that a call of [download] returned. *)
Lemma attempts_loop_path (i : nat) (product : json)
  (title directory_path : string) (checksum check_existing : bool)
  (k : string) :
  never_filed_at download_method directory_path checksum check_existing
    [product] k ->
  forall (fuel : nat) (st st' : Attempts) (w w' : World),
    at_path st <> k ->
    attempts_loop download_method fuel i product title directory_path
      checksum check_existing st w = Some (w', Ok st') ->
    at_path st' <> k.
Proof.
  intros Hnever.
  induction fuel as [| fuel IH]; intros st st' w w' Hst;
    rewrite attempts_loop_unfold;
    destruct (negb (at_download_successful st) && (at_remaining_attempts st >? 0));
    try discriminate; try (intros [= <- <-]; exact Hst).
  destruct (try_download download_method i product directory_path checksum
              check_existing w) as [[w1 [[path info] | e]] |] eqn:Htry;
    [| | discriminate].
  - apply IH. simpl. unfold try_download in Htry.
    destruct (subscript product "id") as [id |] eqn:Hid; [| discriminate].
    eapply (Hnever product id); [now left | exact Hid | exact Htry].
  - destruct (is_fatal e); [discriminate |]. apply IH. exact Hst.
Qed.

(** A path under which no product of [ps] is filed keeps its entry. *)
Lemma products_loop_keeps (directory_path : string) (max_attempts : Z)
  (checksum check_existing : bool) (n : nat) (k : string) :
  forall (ps : list json) (i : nat)
         (result result' : gmap string (option ProductInfo)) (w w' : World),
    never_filed_at download_method directory_path checksum check_existing
      ps k ->
    no_product_at directory_path ps k ->
    products_loop download_method ps i n directory_path max_attempts
      checksum check_existing result w = Some (w', Ok result') ->
    result' !! k = result !! k.
Proof.
  induction ps as [| p ps IH]; intros i result result' w w' Hnever Hno.
  - intros [= <- <-]. reflexivity.
  - simpl. destruct (title_of p) as [title | e] eqn:Htitle; [| discriminate].
    match goal with
    | |- context [attempts_loop ?d ?f ?i ?p ?t ?dp ?c ?ce ?st ?w] =>
        destruct (attempts_loop d f i p t dp c ce st w)
          as [[w0 [st' | e]] |] eqn:Hloop
    end; [| discriminate | discriminate].
    intros H. apply IH in H.
    + rewrite H. apply lookup_insert_ne.
      eapply attempts_loop_path; [| | exact Hloop].
      * intros p' id' w0' w1' path' info' [<- | []]. apply Hnever. now left.
      * simpl. apply (Hno p title); [now left |].
        unfold title_of in Htitle.
        destruct (subscript p "title") as [[] |]; simpl in Htitle;
          congruence.
    + intros p' id' w0' w1' path' info' Hin. apply Hnever. now right.
    + intros p' t' Hin. apply Hno. now right.
Qed.

Lemma download_all_unfold (a a' : Api) (out : list Message) (ps : list json)
  (directory_path : string) (max_attempts : Z)
  (checksum check_existing : bool) (w : World) :
  get_products a = (a', out, Ok (JList ps)) ->
  download_all download_method a directory_path max_attempts checksum
    check_existing w
  = batch_from a'
      (products_loop download_method ps 0 (length ps) directory_path
         max_attempts checksum check_existing ∅
         (batch_start (length ps) out w)).
Proof. intros H. unfold download_all. rewrite H. reflexivity. Qed.

End BatchProperties.

(** The fuel of the [while] loop is enough: when every call of [download]
    comes back, so do the loop, the [for] loop and [download_all]. *)
Lemma attempts_loop_returns
  (download_method : json -> string -> bool -> bool -> World ->
                     option (World * res (string * ProductInfo)))
  (i : nat) (product : json) (title directory_path : string)
  (checksum check_existing : bool) :
  always_returns download_method ->
  forall (fuel : nat) (st : Attempts) (w : World),
    (Z.to_nat (at_remaining_attempts st) <= fuel)%nat ->
    is_Some (attempts_loop download_method fuel i product title directory_path
               checksum check_existing st w).
Proof.
  intros Hreturns.
  induction fuel as [| fuel IH]; intros st w Hfuel;
    rewrite attempts_loop_unfold;
    destruct (negb (at_download_successful st) && (at_remaining_attempts st >? 0))
      eqn:Hcond; try (eexists; reflexivity).
  - apply andb_prop in Hcond as [_ Hpos]. lia.
  - apply andb_prop in Hcond as [_ Hpos].
    assert (Htry : is_Some (try_download download_method i product
                              directory_path checksum check_existing w)).
    { unfold try_download. destruct (subscript product "id");
        [apply Hreturns | eexists; reflexivity]. }
    destruct Htry as [[w1 [[path info] | e]] ->].
    + apply IH. simpl. lia.
    + destruct (is_fatal e); [eexists; reflexivity |]. apply IH. simpl. lia.
Qed.

Lemma products_loop_returns
  (download_method : json -> string -> bool -> bool -> World ->
                     option (World * res (string * ProductInfo)))
  (directory_path : string) (max_attempts : Z) (checksum check_existing : bool)
  (n : nat) :
  always_returns download_method ->
  forall (ps : list json) (i : nat)
         (result : gmap string (option ProductInfo)) (w : World),
    is_Some (products_loop download_method ps i n directory_path max_attempts
               checksum check_existing result w).
Proof.
  intros Hreturns. induction ps as [| p ps IH]; intros i result w.
  - eexists; reflexivity.
  - simpl. destruct (title_of p) as [title | e]; [| eexists; reflexivity].
    match goal with
    | |- context [attempts_loop ?d ?f ?i ?p ?t ?dp ?c ?ce ?st ?w] =>
        destruct (attempts_loop_returns d i p t dp c ce Hreturns f st w)
          as [[w1 [st' | e]] ->]; [simpl; lia | |]
    end.
    + apply IH.
    + eexists; reflexivity.
Qed.

Lemma download_all_returns
  (download_method : json -> string -> bool -> bool -> World ->
                     option (World * res (string * ProductInfo)))
  (a : Api) (directory_path : string) (max_attempts : Z)
  (checksum check_existing : bool) (w : World) :
  always_returns download_method ->
  is_Some (download_all download_method a directory_path max_attempts checksum
             check_existing w).
Proof.
  intros Hreturns. unfold download_all.
  destruct (get_products a) as [[a' out] r].
  match goal with
  | |- context [match ?x with Ok _ => _ | Raise _ => _ end] =>
      destruct x as [[n ps] | e]
  end; [| eexists; reflexivity].
  match goal with
  | |- context [products_loop ?d ?ps ?i ?n ?dp ?m ?c ?ce ?res ?w] =>
      destruct (products_loop_returns d dp m c ce n Hreturns ps i res w)
        as [[w' r'] ->]
  end.
  eexists; reflexivity.
Qed.

Lemma title_of_string (product : json) (title : string) :
  subscript product "title" = Ok (JStr title) -> title_of product = Ok title.
Proof. intros H. unfold title_of. rewrite H. reflexivity. Qed.

Lemma batch_start_events (n : nat) (out : list Message) (w : World) :
  exists events : list Event,
    trace (batch_start n out w) = (trace w ++ events)%list
    /\ Forall is_not_call events.
Proof.
  exists (map EvPrint out ++ [EvPrint (MsgWillDownload n)])%list. split.
  - unfold batch_start. simpl. rewrite <- app_assoc. reflexivity.
  - apply Forall_app. split; [| now repeat constructor].
    induction out; simpl; now constructor.
Qed.

Lemma batch_from_Some (a a' : Api) (w' : World)
  (outcome : option (World * res (gmap string (option ProductInfo))))
  (r : res (gmap string (option ProductInfo))) :
  batch_from a outcome = Some (a', w', r) -> outcome = Some (w', r).
Proof. destruct outcome as [[w0 r0] |]; simpl; [| discriminate]. congruence. Qed.

Lemma download_all_returns_list (download_method :
    json -> string -> bool -> bool -> World ->
    option (World * res (string * ProductInfo)))
  (a a' : Api) (directory_path : string) (max_attempts : Z)
  (checksum check_existing : bool) (w w' : World)
  (r : res (gmap string (option ProductInfo))) :
  download_all download_method a directory_path max_attempts checksum
    check_existing w = Some (a', w', r) ->
  (exists (out : list Message) (n : nat) (ps : list json),
      products_loop download_method ps 0 n directory_path max_attempts
        checksum check_existing ∅ (batch_start n out w) = Some (w', r))
  \/ (exists out : list Message, w' = log_all (map EvPrint out) w).
Proof.
  unfold download_all. destruct (get_products a) as [[a0 out] r0].
  destruct r0 as [products | e]; cbn [res_bind].
  - destruct (py_len products) as [n | e]; cbn [res_bind].
    + destruct (py_iter products) as [ps | e]; cbn [res_bind].
      * intros H. apply batch_from_Some in H. left. now exists out, n, ps.
      * intros [= <- <- <-]. right. now exists out.
    + intros [= <- <- <-]. right. now exists out.
  - intros [= <- <- <-]. right. now exists out.
Qed.


Lemma log_caught_trace (title : string) (e : exn) (w : World) :
  trace (log_caught title e w) = (trace w ++ caught_messages title e)%list.
Proof. destruct e; simpl; try reflexivity; now rewrite <- app_assoc. Qed.

Lemma attempts_loop_raises_fatal
  (download_method : json -> string -> bool -> bool -> World ->
                     option (World * res (string * ProductInfo)))
  (i : nat) (product : json) (title directory_path : string)
  (checksum check_existing : bool) :
  forall (fuel : nat) (st : Attempts) (w w' : World) (e : exn),
    attempts_loop download_method fuel i product title directory_path checksum
      check_existing st w = Some (w', Raise e) ->
    is_fatal e = true.
Proof.
  induction fuel as [| fuel IH]; intros st w w' e;
    rewrite attempts_loop_unfold;
    destruct (negb (at_download_successful st) && (at_remaining_attempts st >? 0));
    try discriminate.
  destruct (try_download download_method i product directory_path checksum
              check_existing w) as [[w1 [[path info] | e1]] |];
    [| | discriminate].
  - apply IH.
  - destruct (is_fatal e1) eqn:Hf; [| apply IH].
    intros [= <- <-]. exact Hf.
Qed.

(** C8: in [download_all], a [KeyboardInterrupt], [SystemExit],
    [SystemError] or [MemoryError] raised during an attempt leaves the
    loop and [download_all] at once, with nothing printed, retried or
    filed after it; any other exception is caught, printed, and costs one
    of the remaining attempts; and no exception other than those four
    leaves the [while] loop. *)
Theorem C8_fatal_exceptions_abort_the_batch
  (download_method : json -> string -> bool -> bool -> World ->
                     option (World * res (string * ProductInfo)))
  (directory_path : string) (max_attempts : Z) (checksum check_existing : bool) :
  (forall e : exn,
      is_fatal e = true
      <-> e = KeyboardInterrupt \/ e = SystemExit \/ e = SystemError
          \/ e = MemoryError)
  /\ (forall (fuel i : nat) (product : json) (title : string) (st : Attempts)
             (w w1 : World) (e : exn),
         at_download_successful st = false ->
         0 < at_remaining_attempts st ->
         try_download download_method i product directory_path checksum
           check_existing w = Some (w1, Raise e) ->
         (is_fatal e = true ->
          attempts_loop download_method (S fuel) i product title directory_path
            checksum check_existing st w = Some (w1, Raise e))
         /\ (is_fatal e = false ->
             attempts_loop download_method (S fuel) i product title
               directory_path checksum check_existing st w
             = attempts_loop download_method fuel i product title
                 directory_path checksum check_existing (one_attempt_less st)
                 (log_caught title e w1)
             /\ trace (log_caught title e w1)
                = (trace w1 ++ caught_messages title e)%list
             /\ at_remaining_attempts (one_attempt_less st)
                = at_remaining_attempts st - 1))
  /\ (forall (fuel i : nat) (product : json) (title : string) (st : Attempts)
             (w w' : World) (e : exn),
         attempts_loop download_method fuel i product title directory_path
           checksum check_existing st w = Some (w', Raise e) ->
         is_fatal e = true)
  /\ (forall (a a' : Api) (out : list Message) (ps1 ps2 : list json)
             (product : json) (title : string) (w w1 w2 : World)
             (result1 : gmap string (option ProductInfo)) (e : exn),
         get_products a = (a', out, Ok (JList (ps1 ++ product :: ps2))) ->
         subscript product "title" = Ok (JStr title) ->
         let n := length (ps1 ++ product :: ps2) in
         products_loop download_method ps1 0 n directory_path max_attempts
           checksum check_existing ∅ (batch_start n out w)
         = Some (w1, Ok result1) ->
         attempts_loop download_method (Z.to_nat max_attempts) (length ps1)
           product title directory_path checksum check_existing
           (first_attempt directory_path title max_attempts) w1
         = Some (w2, Raise e) ->
         download_all download_method a directory_path max_attempts checksum
           check_existing w = Some (a', w2, Raise e)).
Proof.
  split; [| split; [| split]].
  - intros e. split.
    + destruct e; simpl; intros H; try discriminate; auto.
    + intros [-> | [-> | [-> | ->]]]; reflexivity.
  - intros fuel i product title st w w1 e Hsucc Hrem Htry.
    assert (Hcond : negb (at_download_successful st)
                    && (at_remaining_attempts st >? 0) = true)
      by (rewrite Hsucc; simpl; lia).
    split; intros Hf; rewrite attempts_loop_unfold, Hcond, Htry, Hf.
    + reflexivity.
    + split; [reflexivity |]. split; [apply log_caught_trace | reflexivity].
  - intros fuel i product title. apply attempts_loop_raises_fatal.
  - intros a a' out ps1 ps2 product title w w1 w2 result1 e Hget Htitle n
           Hps1 Hloop.
    rewrite (download_all_unfold _ _ _ _ _ _ _ _ _ _ Hget). fold n.
    rewrite (products_loop_app _ _ _ _ _ _ _ _ _ _ _ _ _ Hps1).
    cbn [products_loop]. rewrite (title_of_string _ _ Htitle).
    change {| at_path := join directory_path (title ++ ".zip");
              at_product_info := None; at_download_successful := false;
              at_remaining_attempts := max_attempts |}
      with (first_attempt directory_path title max_attempts).
    simpl Nat.add. rewrite Hloop. reflexivity.
Qed.

(* ===================================================================== *)
(** * The statements at concrete inputs *)
(* ===================================================================== *)

(** C5 on a response with one product, and on responses without [entry]
    and without [feed]. *)
Lemma C5_get_products_single_entry :
  returned (get_products (response_of (feed_of (entry "good" "T2"))))
  = Ok (JList [entry "good" "T2"])
  /\ returned (get_products (response_of (feed_of (JList [entry "good" "T2"]))))
     = returned (get_products (response_of (feed_of (entry "good" "T2"))))
  /\ returned (get_products (response_of (JDict [("feed", JDict [])])))
     = Ok (JList [])
  /\ returned (get_products (response_of (JDict []))) = Ok (JList []).
Proof.
  destruct C5_get_products_normalizes as (Hsingle & Hentry & Hfeed).
  destruct (Hsingle [("title", JStr "T2"); ("id", JStr "good")]
              [] []) as [H1 _].
  split; [reflexivity |]. split; [reflexivity |]. split.
  - apply Hentry. reflexivity.
  - apply Hfeed. reflexivity.
Defined.



(** C3 on a complete file of [small_product] found in the current
    directory: kept without a check, kept after a check, and, with another
    content, removed and downloaded again. *)
Lemma C3_complete_file_found :
  (let w := world_with_file "./T2.zip" (complete_file small_product) in
   download 1 (reliable_env small_product (pycurl_version_of [7; 43; 0]))
     (JStr "good") "." false false w
   = Some (log (EvPrint (MsgAlreadyDownloaded "./T2.zip"))
             (log (EvPrint (MsgDownloading (JStr "good") "./T2.zip"))
                (after_requests w 1 [EvGetProductInfo (JStr "good")])),
           Ok ("./T2.zip", small_product)))
  /\ (let w := world_with_file "./T2.zip" (complete_file small_product) in
      download 1 (reliable_env small_product (pycurl_version_of [7; 43; 0]))
        (JStr "good") "." false true w
      = Some (log (EvPrint (MsgAlreadyDownloaded "./T2.zip"))
                (log (EvChecksum "./T2.zip")
                   (log (EvPrint (MsgDownloading (JStr "good") "./T2.zip"))
                      (after_requests w 1 [EvGetProductInfo (JStr "good")]))),
              Ok ("./T2.zip", small_product)))
  /\ (let w := world_with_file "./T2.zip" corrupt_file in
      exists (w' : World) (r : res (string * ProductInfo)) (tail : list Event),
        download 1 (reliable_env small_product (pycurl_version_of [7; 43; 0]))
          (JStr "good") "." false true w = Some (w', r)
        /\ trace w'
           = ([EvGetProductInfo (JStr "good");
               EvPrint (MsgDownloading (JStr "good") "./T2.zip");
               EvChecksum "./T2.zip";
               EvPrint (MsgCorrupt "./T2.zip");
               EvRemove "./T2.zip";
               EvTransfer (pi_url small_product) "./T2.zip" None] ++ tail)%list).
Proof.
  split; [| split].
  - intros w.
    apply (C3_existing_file_of_expected_size 1
             (reliable_env small_product (pycurl_version_of [7; 43; 0]))
             (JStr "good") "." false false w
             (after_requests w 1 [EvGetProductInfo (JStr "good")])
             small_product (complete_file small_product));
      reflexivity.
  - intros w.
    apply (C3_existing_file_of_expected_size 1
             (reliable_env small_product (pycurl_version_of [7; 43; 0]))
             (JStr "good") "." false true w
             (after_requests w 1 [EvGetProductInfo (JStr "good")])
             small_product (complete_file small_product));
      reflexivity.
  - intros w.
    destruct (C3_existing_file_of_expected_size 1
                (reliable_env small_product (pycurl_version_of [7; 43; 0]))
                (JStr "good") "." false true w
                (after_requests w 1 [EvGetProductInfo (JStr "good")])
                small_product corrupt_file)
      as (_ & _ & Hcorrupt); [reflexivity | reflexivity | reflexivity |].
    destruct Hcorrupt as (Hdl & _ & w' & r & tail & Hrest & Htrace);
      [reflexivity | reflexivity |].
    exists w', r, tail. split.
    + rewrite Hdl. f_equal. exact Hrest.
    + rewrite Htrace. reflexivity.
Defined.

(** C6 on a transfer that leaves a file with the wrong content. *)
Lemma C6_corrupt_transfer :
  exists w' : World,
    download 1 env_corrupting (JStr "good") "." true false empty_world
    = Some (w', Raise (InvalidChecksumError
                         "File corrupt: checksums do not match"))
    /\ fs w' !! "./T2.zip" = Some corrupt_file
    /\ trace w'
       = [EvGetProductInfo (JStr "good");
          EvPrint (MsgDownloading (JStr "good") "./T2.zip");
          EvTransfer (pi_url small_product) "./T2.zip" None;
          EvChecksum "./T2.zip"].
Proof.
  destruct C6_checksum_mismatch_raises_and_keeps_file as (Hraise & _).
  edestruct (Hraise 1%nat env_corrupting (JStr "good") "." false empty_world)
    as (Hdl & _ & Hfile);
    [reflexivity | reflexivity | reflexivity | reflexivity | reflexivity
    | reflexivity |].
  eexists. split; [exact Hdl |]. split; [exact Hfile | reflexivity].
Defined.

(** C9 with a [float] that reads digits and a rounding to hundredths. *)
Lemma C9_sizes_500_MB_and_1_KB :
  returned (get_products_size float_of_digits round_hundredths
              (response_of (feed_of (JList [entry_with_size "500 MB";
                                            entry_with_size "1 KB"]))))
  = Ok (NFloat (round_hundredths (500 / 1024 + 1 / 1024 / 1024)%float))
  /\ product_size float_of_digits (entry_with_size "500 MB")
     = Ok (size_in_gb 500%float "MB").
Proof.
  destruct (C9_get_products_size float_of_digits round_hundredths)
    as (Hone & _ & _ & Hexample).
  split.
  - apply Hexample; reflexivity.
  - apply (Hone (entry_with_size "500 MB") "500" "MB" 500%float); reflexivity.
Defined.

(** A method that fails in every world fails at every attempt of a
    run. *)
Lemma always_fails_every_attempt_fails
  (download_method : json -> string -> bool -> bool -> World ->
                     option (World * res (string * ProductInfo)))
  (id : json) (title directory_path : string)
  (checksum check_existing : bool) :
  always_fails download_method id directory_path checksum check_existing ->
  forall (n i : nat) (w : World),
    every_attempt_fails download_method n i id title directory_path checksum
      check_existing w.
Proof.
  intros Hfails. induction n as [| n IH]; intros i w; [exact I |].
  cbn [every_attempt_fails].
  destruct (Hfails (log (EvDownloadCall i id) w)) as (w' & e & Hcall & Hnf).
  exists w', e. split; [exact Hcall |]. split; [exact Hnf | apply IH].
Qed.

Lemma connection_error_always_fails :
  always_fails (download 1 (env_failing_with connection_error)) (JStr "bad")
    "." false false.
Proof. intros w. eexists _, _. split; reflexivity. Qed.

(** Where the catalog knows the product [good] as [T2], no call for it
    returns the path of [T1]. *)
Lemma good_is_filed_as_T2 (env : Env) (checksum check_existing : bool) :
  (forall n : nat, catalog env n (JStr "good") = Ok small_product) ->
  never_filed_at (download 1 env) "." checksum check_existing
    [entry "good" "T2"] "./T1.zip".
Proof.
  intros Hcatalog p id w w' path' info [<- | []] Hid H.
  injection Hid as <-.
  apply download_returns_target in H as [-> (n & Hn)].
  rewrite Hcatalog in Hn. injection Hn as <-. vm_compute. discriminate.
Qed.

Lemma T2_is_not_T1 :
  no_product_at "." [entry "good" "T2"] "./T1.zip".
Proof.
  intros p title [<- | []] Htitle. injection Htitle as <-.
  vm_compute. discriminate.
Qed.


(** C8 on a batch of three products where the second is interrupted. *)
Lemma C8_interrupt_at_second_product :
  exists (a' : Api) (w' : World),
    api_download_all 1 (env_failing_with KeyboardInterrupt) good_bad_good "."
      3 false false empty_world
    = Some (a', w', Raise KeyboardInterrupt)
    /\ trace w'
       = [EvPrint (MsgWillDownload 3);
          EvDownloadCall 0 (JStr "good");
          EvGetProductInfo (JStr "good");
          EvPrint (MsgDownloading (JStr "good") "./T2.zip");
          EvTransfer (pi_url small_product) "./T2.zip" None;
          EvPrint (MsgProgress 1 3);
          EvDownloadCall 1 (JStr "bad");
          EvGetProductInfo (JStr "bad")].
Proof.
  destruct (C8_fatal_exceptions_abort_the_batch
              (download 1 (env_failing_with KeyboardInterrupt)) "." 3 false false)
    as (_ & _ & _ & Habort).
  eexists _, _. split.
  - unfold api_download_all.
    eapply (Habort good_bad_good _ [] [entry "good" "T2"] [entry "good" "T3"]
              (entry "bad" "T1") "T1" empty_world);
      [reflexivity | reflexivity | reflexivity | reflexivity].
  - vm_compute. reflexivity.
Defined.

(** C10 on an import on 1 March 2016 at noon and calls one and seven days
    later. *)
Lemma C10_calls_one_and_seven_days_later :
  let noon (day : Z) :=
    {| dt_date := {| d_year := 2016; d_month := 3; d_day := day |};
       dt_hour := 12; dt_minute := 0; dt_second := 0; dt_microsecond := 0 |} in
  let rt := import_module (noon 1) (noon 1) in
  call_format_query (elapse rt (noon 2)) None (Some "52.5, 13.4") ANone None []
  = call_format_query (elapse rt (noon 8)) None (Some "52.5, 13.4") ANone None []
  /\ call_format_query (elapse rt (noon 8)) None (Some "52.5, 13.4") ANone None []
     = Ok ("(beginPosition:[2016-02-29T12:00:00Z TO 2016-03-01T12:00:00Z])"
           ++ " AND (footprint:" ++ dquote ++ "intersects(52.5, 13.4)" ++ dquote
           ++ ")").
Proof.
  intros noon rt.
  destruct (C10_default_end_date_fixed_at_import (noon 1) (noon 1) None
              (Some "52.5, 13.4") ANone []) as (Hsame & _ & _).
  split.
  - apply (Hsame (noon 2) (noon 8)).
  - vm_compute. reflexivity.
Defined.
(* ===================================================================== *)
(** * Further properties of the program *)
(* ===================================================================== *)

(** ** Dates *)

Lemma digit_in_digit_char (lo hi z : Z) (r : string) :
  lo <= z mod 10 <= hi ->
  digit_in lo hi (String (digit_char z) r) = Some (z mod 10, r).
Proof.
  intros Hrange. unfold digit_in, digit_char.
  assert (Hz : 0 <= z mod 10 < 10) by (apply Z.mod_pos_bound; lia).
  rewrite nat_ascii_embedding by lia.
  replace (Z.of_nat (48 + Z.to_nat (z mod 10)) - 48) with (z mod 10) by lia.
  assert (((lo <=? z mod 10) && (z mod 10 <=? hi)) = true) as -> by lia.
  reflexivity.
Qed.

Lemma digit_in_other (lo hi : Z) (c : ascii) (r : string) :
  (nat_of_ascii c < 48)%nat -> 0 <= lo ->
  digit_in lo hi (String c r) = None.
Proof.
  intros Hc Hlo. unfold digit_in.
  assert (((lo <=? Z.of_nat (nat_of_ascii c) - 48)
           && (Z.of_nat (nat_of_ascii c) - 48 <=? hi)) = false) as -> by lia.
  reflexivity.
Qed.

Lemma zero_padded_2 (z : Z) :
  zero_padded 2 z
  = String (digit_char (z / 10)) (String (digit_char z) EmptyString).
Proof. reflexivity. Qed.

Lemma zero_padded_4 (z : Z) :
  zero_padded 4 z
  = String (digit_char (z / 10 / 10 / 10))
      (String (digit_char (z / 10 / 10))
         (String (digit_char (z / 10)) (String (digit_char z) EmptyString))).
Proof. reflexivity. Qed.

(** Four digits are read for the year, whatever follows. *)
Lemma four_digits_zero_padded (y : Z) (r : string) :
  four_digits (zero_padded 4 y ++ r)
  = Some (100 * (10 * (y / 10 / 10 / 10 mod 10) + y / 10 / 10 mod 10)
          + (10 * (y / 10 mod 10) + y mod 10), r).
Proof.
  rewrite zero_padded_4. cbn [String.append]. unfold four_digits, two_digits.
  assert (Hd : forall z, 0 <= z mod 10 <= 9)
    by (intros z; pose proof (Z.mod_pos_bound z 10); lia).
  rewrite !digit_in_digit_char by apply Hd. reflexivity.
Qed.

Lemma string_length_app (a b : string) :
  String.length (a ++ b) = (String.length a + String.length b)%nat.
Proof. induction a; cbn; [reflexivity | now f_equal]. Qed.

(** What [strptime] reads: a digit is one character, and the pattern
    [%Y%m%d] matches eight characters at most. *)
Lemma digit_in_length (lo hi v : Z) (s r : string) :
  digit_in lo hi s = Some (v, r) -> String.length s = S (String.length r).
Proof.
  unfold digit_in. destruct s as [| c s]; [discriminate |].
  destruct ((lo <=? Z.of_nat (nat_of_ascii c) - 48)
            && (Z.of_nat (nat_of_ascii c) - 48 <=? hi)); [| discriminate].
  now intros [= _ <-].
Qed.

Lemma two_digits_length (lo1 hi1 lo2 hi2 v : Z) (s r : string) :
  two_digits lo1 hi1 lo2 hi2 s = Some (v, r) ->
  String.length s = S (S (String.length r)).
Proof.
  unfold two_digits.
  destruct (digit_in lo1 hi1 s) as [[a r1] |] eqn:H1; [| discriminate].
  destruct (digit_in lo2 hi2 r1) as [[b r2] |] eqn:H2; [| discriminate].
  intros [= _ <-]. apply digit_in_length in H1, H2. lia.
Qed.

Lemma space_digit_length (v : Z) (s r : string) :
  space_digit s = Some (v, r) -> String.length s = S (S (String.length r)).
Proof.
  unfold space_digit. destruct s as [| c s]; [discriminate |].
  destruct (Ascii.eqb_spec c " ") as [-> | Hc].
  - intros H. apply digit_in_length in H. cbn [String.length]. lia.
  - destruct c as [[] [] [] [] [] [] [] []]; try discriminate.
    now contradiction Hc.
Qed.

Lemma day_alternatives_length (v : Z) (s r : string) :
  first_match day_alternatives s = Some (v, r) ->
  (String.length s <= 2 + String.length r)%nat.
Proof.
  unfold day_alternatives. cbn [first_match].
  destruct (two_digits 3 3 0 1 s) as [[] |] eqn:H1;
    [intros [= <- <-]; apply two_digits_length in H1; lia |].
  destruct (two_digits 1 2 0 9 s) as [[] |] eqn:H2;
    [intros [= <- <-]; apply two_digits_length in H2; lia |].
  destruct (two_digits 0 0 1 9 s) as [[] |] eqn:H3;
    [intros [= <- <-]; apply two_digits_length in H3; lia |].
  destruct (digit_in 1 9 s) as [[] |] eqn:H4;
    [intros [= <- <-]; apply digit_in_length in H4; lia |].
  destruct (space_digit s) as [[] |] eqn:H5; [| discriminate].
  intros [= <- <-]. apply space_digit_length in H5. lia.
Qed.

Lemma month_then_day_length (m d : Z) (s r : string) :
  month_then_day s = Some (m, d, r) ->
  (String.length s <= 4 + String.length r)%nat.
Proof.
  unfold month_then_day, month_alternatives. cbn [map first_match].
  destruct (two_digits 1 1 0 2 s) as [[m1 r1] |] eqn:H1.
  - destruct (first_match day_alternatives r1) as [[d1 r1'] |] eqn:D1.
    + intros [= _ _ <-]. apply two_digits_length in H1.
      apply day_alternatives_length in D1. lia.
    + destruct (two_digits 0 0 1 9 s) as [[m2 r2] |] eqn:H2.
      * destruct (first_match day_alternatives r2) as [[d2 r2'] |] eqn:D2.
        -- intros [= _ _ <-]. apply two_digits_length in H2.
           apply day_alternatives_length in D2. lia.
        -- destruct (digit_in 1 9 s) as [[m3 r3] |] eqn:H3; [| discriminate].
           destruct (first_match day_alternatives r3) as [[d3 r3'] |] eqn:D3;
             [| discriminate].
           intros [= _ _ <-]. apply digit_in_length in H3.
           apply day_alternatives_length in D3. lia.
      * destruct (digit_in 1 9 s) as [[m3 r3] |] eqn:H3; [| discriminate].
        destruct (first_match day_alternatives r3) as [[d3 r3'] |] eqn:D3;
          [| discriminate].
        intros [= _ _ <-]. apply digit_in_length in H3.
        apply day_alternatives_length in D3. lia.
  - destruct (two_digits 0 0 1 9 s) as [[m2 r2] |] eqn:H2.
    + destruct (first_match day_alternatives r2) as [[d2 r2'] |] eqn:D2.
      * intros [= _ _ <-]. apply two_digits_length in H2.
        apply day_alternatives_length in D2. lia.
      * destruct (digit_in 1 9 s) as [[m3 r3] |] eqn:H3; [| discriminate].
        destruct (first_match day_alternatives r3) as [[d3 r3'] |] eqn:D3;
          [| discriminate].
        intros [= _ _ <-]. apply digit_in_length in H3.
        apply day_alternatives_length in D3. lia.
    + destruct (digit_in 1 9 s) as [[m3 r3] |] eqn:H3; [| discriminate].
      destruct (first_match day_alternatives r3) as [[d3 r3'] |] eqn:D3;
        [| discriminate].
      intros [= _ _ <-]. apply digit_in_length in H3.
      apply day_alternatives_length in D3. lia.
Qed.

Lemma strptime_Ymd_length (s : string) (d : datetime) :
  strptime_Ymd s = Some d -> (String.length s <= 8)%nat.
Proof.
  unfold strptime_Ymd, four_digits.
  destruct (two_digits 0 9 0 9 s) as [[hi r1] |] eqn:H1; [| discriminate].
  destruct (two_digits 0 9 0 9 r1) as [[lo r2] |] eqn:H2; [| discriminate].
  destruct (month_then_day r2) as [[[m day] r3] |] eqn:H3; [| discriminate].
  destruct r3; [| discriminate]. intros _.
  apply two_digits_length in H1, H2. apply month_then_day_length in H3.
  cbn [String.length] in H3. lia.
Qed.

(** A formatted date is longer than that, whatever the year. *)
Lemma strftime_length (d : datetime) :
  String.length (strftime d)
  = (String.length (year_digits (d_year (dt_date d))) + 16)%nat.
Proof.
  unfold strftime. rewrite !string_length_app, !zero_padded_2.
  cbn [String.length]. lia.
Qed.

Lemma strptime_Ymd_strftime (d : datetime) : strptime_Ymd (strftime d) = None.
Proof.
  destruct (strptime_Ymd (strftime d)) as [d' |] eqn:H; [| reflexivity].
  apply strptime_Ymd_length in H. rewrite strftime_length in H. lia.
Qed.

(** X1: a date that [format_date] has formatted is left as it is when it
    is formatted again. *)
Theorem X1_format_date_idempotent (in_date : date_arg) (s : string) :
  format_date in_date = Ok s -> format_date (AStr s) = Ok s.
Proof.
  destruct in_date as [| d | d | t]; simpl.
  - discriminate.
  - intros [= <-]. now rewrite strptime_Ymd_strftime.
  - intros [= <-]. now rewrite strptime_Ymd_strftime.
  - destruct (strptime_Ymd t) as [d |] eqn:Ht.
    + intros [= <-]. now rewrite strptime_Ymd_strftime.
    + intros [= <-]. now rewrite Ht.
Qed.

Lemma X1_format_date_twice :
  format_date (AStr "20151219") = Ok "2015-12-19T00:00:00Z"
  /\ format_date (AStr "2015-12-19T00:00:00Z") = Ok "2015-12-19T00:00:00Z".
Proof.
  split; [reflexivity |].
  apply (X1_format_date_idempotent (AStr "20151219")). reflexivity.
Defined.

Lemma reads_back_all :
  forallb (fun m => forallb (reads_back m) (range 1 31)) (range 1 12) = true.
Proof. vm_compute. reflexivity. Qed.

Lemma month_then_day_zero_padded (m d : Z) :
  1 <= m <= 12 -> 1 <= d <= 31 ->
  month_then_day (zero_padded 2 m ++ zero_padded 2 d) = Some (m, d, EmptyString).
Proof.
  intros Hm Hd. pose proof reads_back_all as Hall.
  rewrite forallb_forall in Hall.
  specialize (Hall m (in_range 1 m 12 ltac:(lia))).
  rewrite forallb_forall in Hall.
  specialize (Hall d (in_range 1 d 31 ltac:(lia))).
  unfold reads_back in Hall.
  destruct (month_then_day (zero_padded 2 m ++ zero_padded 2 d))
    as [[[m' d'] [|]] |]; try discriminate.
  apply andb_prop in Hall as [Hm' Hd'].
  apply Z.eqb_eq in Hm', Hd'. now subst.
Qed.

Lemma days_in_month_le_31 (y m : Z) : days_in_month y m <= 31.
Proof.
  unfold days_in_month. destruct ((m =? 2) && is_leap y); [lia |].
  destruct (Z.to_nat (m - 1)) as [| [| [| [| [| [| [| [| [| [| [| [| n]]]]]]]]]]]];
    simpl; try lia. destruct n; simpl; lia.
Qed.

(** From the year 1000 on the year has its four digits; before, it has
    fewer. *)
Lemma year_digits_from_1000 :
  forallb (fun y => String.eqb (year_digits y) (zero_padded 4 y))
    (range 1000 (Z.to_nat 9000)) = true.
Proof. vm_compute. reflexivity. Qed.

Lemma year_digits_before_1000 :
  forallb (fun y => (String.length (year_digits y) <? 4)%nat) (range 1 999)
  = true.
Proof. vm_compute. reflexivity. Qed.

(** X2: a date of the calendar written [YYYYMMDD] is formatted as the
    [date] object of that day is: the year, [-MM-DDT00:00:00Z] after it.
    From the year 1000 on that is [YYYY-MM-DDT00:00:00Z]; an earlier year
    is printed without its leading zeros, so that the result is shorter
    than that. *)
Theorem X2_format_date_of_ymd_string (d : date) :
  valid_date d ->
  format_date (AStr (ymd_string d)) = format_date (ADate d)
  /\ format_date (AStr (ymd_string d))
     = Ok (year_digits (d_year d) ++ "-" ++ zero_padded 2 (d_month d) ++ "-"
           ++ zero_padded 2 (d_day d) ++ "T00:00:00Z")
  /\ (1000 <= d_year d ->
      format_date (AStr (ymd_string d))
      = Ok (zero_padded 4 (d_year d) ++ "-" ++ zero_padded 2 (d_month d)
            ++ "-" ++ zero_padded 2 (d_day d) ++ "T00:00:00Z"))
  /\ (d_year d < 1000 ->
      forall s : string,
        format_date (AStr (ymd_string d)) = Ok s ->
        (String.length s < 20)%nat).
Proof.
  intros (Hy & Hm & Hd).
  assert (Hparse : strptime_Ymd (ymd_string d) = Some (midnight d)).
  { unfold strptime_Ymd, ymd_string. rewrite four_digits_zero_padded.
    replace (100 * (10 * (d_year d / 10 / 10 / 10 mod 10)
                    + d_year d / 10 / 10 mod 10)
             + (10 * (d_year d / 10 mod 10) + d_year d mod 10))
      with (d_year d) by (Z.div_mod_to_equations; lia).
    pose proof (days_in_month_le_31 (d_year d) (d_month d)) as H31.
    rewrite month_then_day_zero_padded by lia.
    assert (((1 <=? d_year d)
             && (d_day d <=? days_in_month (d_year d) (d_month d))) = true)
      as -> by lia.
    destruct d; reflexivity. }
  unfold format_date. rewrite Hparse.
  assert (Hmidnight : strftime (midnight d)
                      = year_digits (d_year d) ++ "-"
                        ++ zero_padded 2 (d_month d) ++ "-"
                        ++ zero_padded 2 (d_day d) ++ "T00:00:00Z").
  { unfold strftime, midnight.
    cbn [dt_date dt_hour dt_minute dt_second].
    change (zero_padded 2 0) with "00". reflexivity. }
  split; [reflexivity |]. split; [now rewrite Hmidnight |]. split.
  - intros Hyear. rewrite Hmidnight.
    pose proof year_digits_from_1000 as Hall.
    rewrite forallb_forall in Hall.
    specialize (Hall (d_year d) (in_range 1000 (d_year d) (Z.to_nat 9000) ltac:(lia))).
    apply String.eqb_eq in Hall. now rewrite Hall.
  - intros Hyear s [= <-]. rewrite strftime_length.
    cbn [midnight dt_date].
    pose proof year_digits_before_1000 as Hall.
    rewrite forallb_forall in Hall.
    specialize (Hall (d_year d) (in_range 1 (d_year d) 999 ltac:(lia))).
    apply Nat.ltb_lt in Hall. lia.
Qed.

Lemma X2_leap_day_2016 :
  format_date (AStr "20160229") = Ok "2016-02-29T00:00:00Z"
  /\ format_date (AStr "00010102") = Ok "1-01-02T00:00:00Z".
Proof.
  split.
  - apply (X2_format_date_of_ymd_string
             {| d_year := 2016; d_month := 2; d_day := 29 |});
      [repeat split; vm_compute; congruence | vm_compute; congruence].
  - apply (X2_format_date_of_ymd_string
             {| d_year := 1; d_month := 1; d_day := 2 |}).
    repeat split; vm_compute; congruence.
Defined.

(** ** When [format_query] fails *)

Lemma format_date_Ok (a : date_arg) :
  a <> ANone -> exists s : string, format_date a = Ok s.
Proof.
  destruct a as [| d | d | t]; intros Ha; [congruence | | |]; simpl;
    try (eexists; reflexivity).
  destruct (strptime_Ymd t); eexists; reflexivity.
Qed.

Lemma format_query_dates_Ok (cls : SentinelAPI_class)
  (area point : option string) (initial_date i : date_arg)
  (end_date : option date_arg) (keywords : list (string * string)) :
  is_Some_b area || is_Some_b point = true ->
  effective_initial_date initial_date (effective_end_date cls end_date) = Ok i ->
  i <> ANone ->
  effective_end_date cls end_date <> ANone ->
  exists q : string,
    format_query cls area point initial_date end_date keywords = Ok q.
Proof.
  intros Hgiven Hi Hine Hene. unfold format_query.
  fold (effective_end_date cls end_date).
  fold (effective_initial_date initial_date (effective_end_date cls end_date)).
  rewrite Hgiven, Hi. cbn [negb res_bind].
  destruct (format_date_Ok i Hine) as [d1 ->].
  destruct (format_date_Ok _ Hene) as [d2 ->]. cbn [res_bind].
  rewrite filters_loop_clauses by apply sorted_keys_in.
  eexists. reflexivity.
Qed.

(** X3: [format_query] raises [AssertionError] when neither an area nor a
    point is given, whatever the dates.  With one of them, it succeeds as
    soon as both dates are given (as objects or strings); with no initial
    date it succeeds for an end date later than day one of the calendar,
    raises [OverflowError] for day one, and raises [TypeError] when the
    end date is a string, which has no day before. *)
Theorem X3_format_query_failures (cls : SentinelAPI_class)
  (area point : option string) (keywords : list (string * string)) :
  (area = None -> point = None ->
   forall (initial_date : date_arg) (end_date : option date_arg),
     format_query cls area point initial_date end_date keywords
     = Raise (AssertionError "Either an area or a point must be given."))
  /\ (is_Some_b area || is_Some_b point = true ->
      (forall initial_date end_date : date_arg,
          initial_date <> ANone -> end_date <> ANone ->
          exists q : string,
            format_query cls area point initial_date (Some end_date) keywords
            = Ok q)
      /\ (forall s : string,
             format_query cls area point ANone (Some (AStr s)) keywords
             = Raise TypeError)
      /\ (forall d : datetime,
             (1 < toordinal (dt_date d) <= MAXORDINAL + 1 ->
              exists q : string,
                format_query cls area point ANone (Some (ADatetime d)) keywords
                = Ok q)
             /\ (toordinal (dt_date d) <= 1 ->
                 format_query cls area point ANone (Some (ADatetime d)) keywords
                 = Raise OverflowError))).
Proof.
  split.
  - intros -> -> initial_date end_date. reflexivity.
  - intros Hgiven. split; [| split].
    + intros initial_date end_date Hi He.
      apply (format_query_dates_Ok cls area point initial_date initial_date);
        try assumption.
      destruct initial_date; [congruence | reflexivity ..].
    + intros s. unfold format_query. rewrite Hgiven. reflexivity.
    + intros d. split.
      * intros Hord.
        assert (Hday : date_minus_24h (dt_date d)
                       = Ok (fromordinal (toordinal (dt_date d) - 1))).
        { unfold date_minus_24h.
          assert (((0 <? toordinal (dt_date d) - 1)
                   && (toordinal (dt_date d) - 1 <=? MAXORDINAL)) = true)
            as -> by lia.
          reflexivity. }
        eapply (format_query_dates_Ok cls area point ANone);
          [assumption | | | discriminate].
        -- cbn [effective_end_date effective_initial_date minus_24h].
           unfold datetime_minus_24h. rewrite Hday. reflexivity.
        -- discriminate.
      * intros Hord. unfold format_query. rewrite Hgiven.
        cbn [negb minus_24h]. unfold datetime_minus_24h, date_minus_24h.
        assert (((0 <? toordinal (dt_date d) - 1)
                 && (toordinal (dt_date d) - 1 <=? MAXORDINAL)) = false)
          as -> by lia.
        reflexivity.
Qed.

Lemma X3_end_date_string_without_initial_date :
  format_query
    (class_body (midnight {| d_year := 2016; d_month := 3; d_day := 1 |})
       (midnight {| d_year := 2016; d_month := 3; d_day := 1 |}))
    (Some "0 0,1 1,0 1,0 0") None ANone (Some (AStr "20160301")) []
  = Raise TypeError
  /\ exists q : string,
      format_query
        (class_body (midnight {| d_year := 2016; d_month := 3; d_day := 1 |})
           (midnight {| d_year := 2016; d_month := 3; d_day := 1 |}))
        (Some "0 0,1 1,0 1,0 0") None (AStr "20160229")
        (Some (AStr "20160301")) []
      = Ok q.
Proof.
  destruct (X3_format_query_failures
              (class_body (midnight {| d_year := 2016; d_month := 3; d_day := 1 |})
                 (midnight {| d_year := 2016; d_month := 3; d_day := 1 |}))
              (Some "0 0,1 1,0 1,0 0") None []) as [_ Hgiven].
  destruct (Hgiven eq_refl) as (Hboth & Hstring & _).
  split; [apply Hstring |]. apply Hboth; discriminate.
Defined.

(** ** More on the download of one product *)

Lemma homura_download_trace (env : Env) (url path : string) (w w' : World)
  (r : res unit) :
  homura_download env url path w = (w', r) ->
  trace w' = (trace w ++ [EvTransfer url path (f_size <$> fs w !! path)])%list.
Proof.
  unfold homura_download.
  destruct (archive env (transfers_made w) url (fs w !! path)) as [kept raised].
  destruct raised; intros [= <- <-]; reflexivity.
Qed.

Lemma verify_download_trace (info : ProductInfo) (path : string)
  (checksum : bool) (w w' : World) (r : res (string * ProductInfo)) :
  verify_download info path checksum w = (w', r) ->
  exists tail : list Event,
    trace w' = (trace w ++ tail)%list /\ Forall is_not_remove tail
    /\ fs w' = fs w.
Proof.
  unfold verify_download, md5_compare. destruct checksum.
  - destruct (fs w !! path) as [f |].
    + destruct (checksum_eq (f_md5 f) (pi_md5 info)); intros [= <- <-];
        (exists [EvChecksum path]; repeat split; now repeat constructor).
    + intros [= <- <-]. exists []. rewrite app_nil_r. repeat split. constructor.
  - intros [= <- <-]. exists []. rewrite app_nil_r. repeat split. constructor.
Qed.

(** X4: an incomplete download is continued.  When the file at the target
    path does not have the expected size, and is smaller than 2 GiB or the
    version test does not fire, [download] removes nothing: it prints one
    line and the transfer resumes from the length of the file. *)
Theorem X4_partial_file_is_resumed (fuel : nat) (env : Env) (id : json)
  (directory_path : string) (checksum check_existing : bool)
  (w w1 : World) (info : ProductInfo) (f : File) :
  resolve_product_info fuel env id w = Some (w1, Ok info) ->
  let path := join directory_path (pi_title info ++ ".zip") in
  fs w1 !! path = Some f ->
  f_size f <> pi_size info ->
  f_size f < 2 ^ 31 \/ pycurl_known_broken env = Ok false ->
  exists (w' : World) (r : res (string * ProductInfo)) (tail : list Event),
    download fuel env id directory_path checksum check_existing w = Some (w', r)
    /\ trace w'
       = (trace w1
          ++ [EvPrint (MsgDownloading id path);
              EvTransfer (pi_url info) path (Some (f_size f))]
          ++ tail)%list
    /\ Forall is_not_remove tail.
Proof.
  intros Hres path Hf Hsize Hsafe.
  rewrite (download_resolves _ _ _ _ _ _ _ _ _ Hres).
  unfold download_resolved. fold path.
  set (w2 := log (EvPrint (MsgDownloading id path)) w1).
  assert (Hf2 : fs w2 !! path = Some f) by exact Hf.
  destruct (file_exists_lookup _ _ _ Hf2) as [Hex Hsz].
  assert (Hskip : skip_existing info path check_existing w2 = (w2, Ok false)).
  { unfold skip_existing. rewrite Hex, Hsz.
    assert ((f_size f =? pi_size info) = false) as -> by lia. reflexivity. }
  assert (Hwork : pycurl_workaround env path w2 = (w2, Ok tt)).
  { unfold pycurl_workaround. rewrite Hex, Hsz.
    destruct Hsafe as [Hsmall | Hversion].
    - assert ((f_size f >=? 2 ^ 31) = false) as -> by lia. reflexivity.
    - rewrite Hversion. destruct (true && (f_size f >=? 2 ^ 31)); reflexivity. }
  rewrite Hskip. unfold transfer_and_verify. rewrite Hwork.
  destruct (homura_download env (pi_url info) path w2) as [w3 [u | e]]
    eqn:Htransfer;
    pose proof (homura_download_trace _ _ _ _ _ _ Htransfer) as Ht3;
    rewrite Hf2 in Ht3; simpl in Ht3.
  - destruct (verify_download info path checksum w3) as [w4 r] eqn:Hverify.
    apply verify_download_trace in Hverify as (tail & Ht4 & Hnr & _).
    exists w4, r, tail. split; [reflexivity |]. split; [| exact Hnr].
    rewrite Ht4, Ht3, <- !app_assoc. reflexivity.
  - exists w3, (Raise e), []. split; [reflexivity |]. split; [| constructor].
    rewrite Ht3, <- !app_assoc. reflexivity.
Qed.

Lemma X4_half_downloaded_file :
  exists (w' : World) (r : res (string * ProductInfo)) (tail : list Event),
    download 1 (reliable_env small_product (pycurl_version_of [7; 43; 0]))
      (JStr "good") "." false false
      (world_with_file "./T2.zip" {| f_size := 50; f_md5 := "ffffff" |})
    = Some (w', r)
    /\ trace w'
       = ([EvGetProductInfo (JStr "good")]
          ++ [EvPrint (MsgDownloading (JStr "good") "./T2.zip");
              EvTransfer (pi_url small_product) "./T2.zip" (Some 50)]
          ++ tail)%list
    /\ Forall is_not_remove tail.
Proof.
  apply (X4_partial_file_is_resumed 1
           (reliable_env small_product (pycurl_version_of [7; 43; 0]))
           (JStr "good") "." false false
           (world_with_file "./T2.zip" {| f_size := 50; f_md5 := "ffffff" |})
           (after_requests
              (world_with_file "./T2.zip" {| f_size := 50; f_md5 := "ffffff" |})
              1 [EvGetProductInfo (JStr "good")])
           small_product {| f_size := 50; f_md5 := "ffffff" |}).
  - reflexivity.
  - reflexivity.
  - simpl. lia.
  - left. simpl. lia.
Defined.

Lemma same_files_except_refl (path : string) (w : World) :
  same_files_except path w w.
Proof. intros p _. reflexivity. Qed.

Lemma same_files_except_trans (path : string) (w1 w2 w3 : World) :
  same_files_except path w1 w2 -> same_files_except path w2 w3 ->
  same_files_except path w1 w3.
Proof. intros H12 H23 p Hp. rewrite (H23 p Hp). apply H12, Hp. Qed.

Lemma same_files_fs (path : string) (w w' : World) :
  fs w' = fs w -> same_files_except path w w'.
Proof. intros H p _. now rewrite H. Qed.

Lemma same_files_remove (path : string) (w : World) :
  same_files_except path w (remove path w).
Proof. intros p Hp. unfold remove. simpl. now apply lookup_delete_ne. Qed.

Lemma same_files_md5_compare (path checksum : string) (w w' : World)
  (r : res bool) :
  md5_compare path checksum w = (w', r) -> fs w' = fs w.
Proof.
  unfold md5_compare. destruct (fs w !! path); intros [= <- <-]; reflexivity.
Qed.

Lemma same_files_homura_download (env : Env) (url path : string)
  (w w' : World) (r : res unit) :
  homura_download env url path w = (w', r) -> same_files_except path w w'.
Proof.
  unfold homura_download.
  destruct (archive env (transfers_made w) url (fs w !! path)) as [kept raised].
  intros H p Hp.
  assert (Hfs : fs w' = match kept with
                        | Some f => <[path := f]> (fs w)
                        | None => delete path (fs w)
                        end)
    by (destruct raised; injection H as <- _; reflexivity).
  rewrite Hfs. destruct kept;
    [now apply lookup_insert_ne | now apply lookup_delete_ne].
Qed.

Lemma same_files_download_resolved (env : Env) (id : json)
  (directory_path : string) (checksum check_existing : bool)
  (info : ProductInfo) (w w' : World) (r : res (string * ProductInfo)) :
  download_resolved env id directory_path checksum check_existing info w
  = (w', r) ->
  same_files_except (target_path directory_path (pi_title info)) w w'.
Proof.
  unfold download_resolved, target_path.
  set (path := join directory_path (pi_title info ++ ".zip")).
  set (w0 := log (EvPrint (MsgDownloading id path)) w).
  assert (Hskip : forall w1 r1,
             skip_existing info path check_existing w0 = (w1, r1) ->
             same_files_except path w w1).
  { unfold skip_existing. intros w1 r1.
    destruct (file_exists w0 path && (getsize w0 path =? pi_size info)).
    - destruct (negb check_existing).
      + intros [= <- <-]. now apply same_files_fs.
      + destruct (md5_compare path (pi_md5 info) w0) as [w2 [[|] | e]] eqn:Hmd5;
          apply same_files_md5_compare in Hmd5; intros [= <- <-].
        * apply same_files_fs. exact Hmd5.
        * eapply same_files_except_trans; [| apply same_files_remove].
          apply same_files_fs. exact Hmd5.
        * apply same_files_fs. exact Hmd5.
    - intros [= <- <-]. now apply same_files_fs. }
  destruct (skip_existing info path check_existing w0) as [w1 [[|] | e]]
    eqn:Hs; specialize (Hskip _ _ eq_refl).
  - intros [= <- <-]. exact Hskip.
  - unfold transfer_and_verify.
    assert (Hwork : forall w2 r2,
               pycurl_workaround env path w1 = (w2, r2) ->
               same_files_except path w1 w2).
    { unfold pycurl_workaround. intros w2 r2.
      destruct (file_exists w1 path && (getsize w1 path >=? 2 ^ 31)).
      - destruct (pycurl_known_broken env) as [[|] | e]; intros [= <- <-];
          first [apply same_files_remove | apply same_files_except_refl].
      - intros [= <- <-]. apply same_files_except_refl. }
    destruct (pycurl_workaround env path w1) as [w2 [u | e]] eqn:Hw;
      specialize (Hwork _ _ eq_refl).
    + destruct (homura_download env (pi_url info) path w2) as [w3 [u' | e]]
        eqn:Ht; apply same_files_homura_download in Ht.
      * intros Hv. apply verify_download_trace in Hv as (_ & _ & _ & Hfs).
        eauto using same_files_except_trans, same_files_fs.
      * intros [= <- <-]. eauto using same_files_except_trans.
    + intros [= <- <-]. eauto using same_files_except_trans.
  - intros [= <- <-]. exact Hskip.
Qed.

Lemma resolve_product_info_fs (env : Env) (id : json) :
  forall (fuel : nat) (w w' : World) (r : res ProductInfo),
    resolve_product_info fuel env id w = Some (w', r) -> fs w' = fs w.
Proof.
  induction fuel as [| fuel IH]; intros w w' r H; [discriminate |].
  simpl in H. destruct (catalog env (requests_made w) id) as [info | e].
  - injection H as <- _. reflexivity.
  - destruct (is_SentinelAPIError e).
    + apply IH in H. exact H.
    + injection H as <- _. reflexivity.
Qed.

(** X5: [download] touches no file but the one at the target path, which
    is named after the title the catalog gives: every other file is after
    the call what it was before, however the call ends. *)
Theorem X5_download_touches_only_the_target (fuel : nat) (env : Env)
  (id : json) (directory_path : string) (checksum check_existing : bool)
  (w w' : World) (r : res (string * ProductInfo)) (p : string) :
  download fuel env id directory_path checksum check_existing w = Some (w', r) ->
  (forall (n : nat) (info : ProductInfo),
      catalog env n id = Ok info ->
      target_path directory_path (pi_title info) <> p) ->
  fs w' !! p = fs w !! p.
Proof.
  unfold download.
  destruct (resolve_product_info fuel env id w) as [[w1 [info | e]] |] eqn:Hres;
    [| | discriminate]; pose proof (resolve_product_info_fs _ _ _ _ _ _ Hres) as Hfs.
  - intros [= H] Hother.
    apply same_files_download_resolved in H.
    destruct (resolve_product_info_answer _ _ _ _ _ _ Hres) as [n Hn].
    rewrite (H p) by (intros ->; exact (Hother n info Hn eq_refl)).
    now rewrite Hfs.
  - intros [= <- <-] _. now rewrite Hfs.
Qed.

Lemma X5_other_archive_untouched :
  fs (world_after
        (download 1 env_corrupting (JStr "good") "." true true
           (world_with_file "./T1.zip" corrupt_file)))
  !! "./T1.zip"
  = Some corrupt_file.
Proof.
  destruct (download 1 env_corrupting (JStr "good") "." true true
              (world_with_file "./T1.zip" corrupt_file))
    as [[w' r] |] eqn:Hrun; [| discriminate].
  simpl.
  rewrite (X5_download_touches_only_the_target 1 env_corrupting (JStr "good")
             "." true true (world_with_file "./T1.zip" corrupt_file) w' r
             "./T1.zip" Hrun); [reflexivity |].
  intros n info [= <-]. vm_compute. discriminate.
Defined.

(** ** A corrupt transfer followed by a second attempt *)

Lemma resolve_product_info_at_once (fuel : nat) (env : Env) (id : json)
  (w : World) (info : ProductInfo) :
  catalog env (requests_made w) id = Ok info ->
  resolve_product_info (S fuel) env id w
  = Some (after_requests w 1 [EvGetProductInfo id], Ok info).
Proof.
  intros Hc. simpl. rewrite Hc. unfold after_requests.
  rewrite Nat.add_1_r. reflexivity.
Qed.

Lemma download_corrupt_transfer (fuel : nat) (env : Env) (id : json)
  (directory_path : string) (check_existing : bool) (w : World)
  (info : ProductInfo) (f : File) :
  let path := join directory_path (pi_title info ++ ".zip") in
  catalog env (requests_made w) id = Ok info ->
  fs w !! path = None ->
  archive env (transfers_made w) (pi_url info) None = (Some f, None) ->
  checksum_eq (f_md5 f) (pi_md5 info) = false ->
  exists w1 : World,
    download (S fuel) env id directory_path true check_existing w
    = Some (w1, Raise (InvalidChecksumError
                         "File corrupt: checksums do not match"))
    /\ fs w1 = <[path := f]> (fs w)
    /\ trace w1
       = (trace w
          ++ [EvGetProductInfo id; EvPrint (MsgDownloading id path);
              EvTransfer (pi_url info) path None; EvChecksum path])%list.
Proof.
  intros path Hc Hnone Harchive Hne.
  rewrite (download_resolves _ _ _ _ _ _ _ _ _
             (resolve_product_info_at_once fuel env id w info Hc)).
  unfold download_resolved. fold path.
  set (w2 := log (EvPrint (MsgDownloading id path))
               (after_requests w 1 [EvGetProductInfo id])).
  assert (Hnone2 : fs w2 !! path = None) by exact Hnone.
  assert (Hskip : skip_existing info path check_existing w2 = (w2, Ok false))
    by (unfold skip_existing, file_exists; rewrite Hnone2; reflexivity).
  assert (Hwork : pycurl_workaround env path w2 = (w2, Ok tt))
    by (unfold pycurl_workaround, file_exists; rewrite Hnone2; reflexivity).
  rewrite Hskip. unfold transfer_and_verify. rewrite Hwork.
  unfold homura_download. rewrite Hnone2.
  change (transfers_made w2) with (transfers_made w). rewrite Harchive.
  unfold verify_download, md5_compare. cbn [fs].
  rewrite lookup_insert_eq, Hne.
  eexists. split; [reflexivity |]. split; [reflexivity |].
  simpl. rewrite <- !app_assoc. reflexivity.
Qed.

Lemma download_skips_complete_file (fuel : nat) (env : Env) (id : json)
  (directory_path : string) (checksum : bool) (w : World)
  (info : ProductInfo) (f : File) :
  let path := join directory_path (pi_title info ++ ".zip") in
  catalog env (requests_made w) id = Ok info ->
  fs w !! path = Some f ->
  f_size f = pi_size info ->
  exists w1 : World,
    download (S fuel) env id directory_path checksum false w
    = Some (w1, Ok (path, info))
    /\ fs w1 = fs w
    /\ trace w1
       = (trace w
          ++ [EvGetProductInfo id; EvPrint (MsgDownloading id path);
              EvPrint (MsgAlreadyDownloaded path)])%list.
Proof.
  intros path Hc Hf Hsize.
  rewrite (download_resolves _ _ _ _ _ _ _ _ _
             (resolve_product_info_at_once fuel env id w info Hc)).
  unfold download_resolved. fold path.
  set (w2 := log (EvPrint (MsgDownloading id path))
               (after_requests w 1 [EvGetProductInfo id])).
  assert (Hf2 : fs w2 !! path = Some f) by exact Hf.
  destruct (file_exists_lookup _ _ _ Hf2) as [Hex Hsz].
  unfold skip_existing. rewrite Hex, Hsz, Hsize, Z.eqb_refl. cbn [andb negb].
  eexists. split; [reflexivity |]. split; [reflexivity |].
  simpl. rewrite <- !app_assoc. reflexivity.
Qed.

(** X6: with [checksum=True] and [check_existing=False], a product whose
    transfer leaves a file of the expected size and the wrong content is
    reported as downloaded by [download_all]: the first attempt raises
    [InvalidChecksumError], the second finds a file of the expected size,
    takes it for a finished download and returns without reading it.  The
    product is filed with its product info after two calls and one
    transfer, and the corrupt file is still there. *)
Theorem X6_corrupt_file_is_accepted_at_the_second_attempt
  (fuel i : nat) (env : Env) (product id : json)
  (title directory_path : string) (max_attempts : Z) (w : World)
  (info : ProductInfo) (f : File) :
  let path := join directory_path (pi_title info ++ ".zip") in
  subscript product "id" = Ok id ->
  (forall n : nat, catalog env n id = Ok info) ->
  fs w !! path = None ->
  archive env (transfers_made w) (pi_url info) None = (Some f, None) ->
  f_size f = pi_size info ->
  checksum_eq (f_md5 f) (pi_md5 info) = false ->
  2 <= max_attempts ->
  exists w' : World,
    attempts_loop (download (S fuel) env) (Z.to_nat max_attempts) i product
      title directory_path true false
      (first_attempt directory_path title max_attempts) w
    = Some (w', Ok {| at_path := path; at_product_info := Some info;
                      at_download_successful := true;
                      at_remaining_attempts := max_attempts - 2 |})
    /\ fs w' !! path = Some f
    /\ trace w'
       = (trace w
          ++ [EvDownloadCall i id; EvGetProductInfo id;
              EvPrint (MsgDownloading id path);
              EvTransfer (pi_url info) path None; EvChecksum path;
              EvPrint MsgInvalidChecksum;
              EvDownloadCall i id; EvGetProductInfo id;
              EvPrint (MsgDownloading id path);
              EvPrint (MsgAlreadyDownloaded path)])%list.
Proof.
  intros path Hid Hcatalog Hnone Harchive Hsize Hne Hmax.
  destruct (Z.to_nat max_attempts) as [| [| k]] eqn:Hk; [lia | lia |].
  destruct (download_corrupt_transfer fuel env id directory_path false
              (log (EvDownloadCall i id) w) info f (Hcatalog _) Hnone Harchive
              Hne) as (w1 & Hfirst & Hfs1 & Ht1).
  fold path in Hfirst, Hfs1, Ht1.
  set (w1' := log (EvPrint MsgInvalidChecksum) w1).
  assert (Hf1 : fs w1' !! path = Some f).
  { change (fs w1') with (fs w1). rewrite Hfs1. apply lookup_insert_eq. }
  destruct (download_skips_complete_file fuel env id directory_path true
              (log (EvDownloadCall i id) w1') info f (Hcatalog _) Hf1 Hsize)
    as (w2 & Hsecond & Hfs2 & Ht2).
  fold path in Hsecond, Ht2.
  exists w2. split; [| split].
  - rewrite attempts_loop_unfold.
    cbn [first_attempt at_download_successful at_remaining_attempts negb andb].
    assert ((max_attempts >? 0) = true) as -> by lia.
    unfold try_download at 1. rewrite Hid, Hfirst. cbn [is_fatal].
    rewrite attempts_loop_unfold.
    cbn [one_attempt_less first_attempt at_download_successful
           at_remaining_attempts negb andb].
    assert ((max_attempts - 1 >? 0) = true) as -> by lia.
    unfold try_download at 1. rewrite Hid.
    change (log_caught title
              (InvalidChecksumError "File corrupt: checksums do not match") w1)
      with w1'.
    rewrite Hsecond.
    rewrite attempts_loop_unfold. cbn [at_download_successful negb andb].
    do 4 f_equal. lia.
  - rewrite Hfs2. exact Hf1.
  - rewrite Ht2. simpl. rewrite Ht1. simpl. rewrite <- !app_assoc. reflexivity.
Qed.

Lemma X6_corrupt_transfer_then_retry :
  exists w' : World,
    attempts_loop (download 1 env_corrupting) 3 0 (entry "good" "T2") "T2" "."
      true false (first_attempt "." "T2" 3) empty_world
    = Some (w', Ok {| at_path := "./T2.zip";
                      at_product_info := Some small_product;
                      at_download_successful := true;
                      at_remaining_attempts := 1 |})
    /\ fs w' !! "./T2.zip" = Some corrupt_file
    /\ checksum_eq (f_md5 corrupt_file) (pi_md5 small_product) = false.
Proof.
  destruct (X6_corrupt_file_is_accepted_at_the_second_attempt 0 0
              env_corrupting (entry "good" "T2") (JStr "good") "T2" "." 3
              empty_world small_product corrupt_file)
    as (w' & Hloop & Hfile & _);
    [reflexivity | reflexivity | reflexivity | reflexivity | reflexivity
    | reflexivity | lia |].
  exists w'. split; [exact Hloop |]. split; [exact Hfile | reflexivity].
Defined.

(** ** More on the batch download *)

Lemma log_all_log (e : Event) (es : list Event) (w : World) :
  log_all es (log e w) = log_all (e :: es) w.
Proof. unfold log_all, log. simpl. rewrite <- app_assoc. reflexivity. Qed.

Lemma log_all_nil (w : World) : log_all [] w = w.
Proof. destruct w. unfold log_all. simpl. rewrite app_nil_r. reflexivity. Qed.

(** With no attempt allowed the [for] loop files every product under its
    target path with [None], whatever the [download] method is. *)
Lemma products_loop_no_attempt
  (download_method : json -> string -> bool -> bool -> World ->
                     option (World * res (string * ProductInfo)))
  (directory_path : string) (max_attempts : Z) (checksum check_existing : bool)
  (n : nat) :
  max_attempts <= 0 ->
  forall (ps : list json) (i : nat)
         (result : gmap string (option ProductInfo)) (w : World),
    all_titled ps ->
    exists result' : gmap string (option ProductInfo),
      products_loop download_method ps i n directory_path max_attempts
        checksum check_existing result w
      = Some (log_all (progress_lines i (length ps) n) w, Ok result')
      /\ (forall k : string,
             result' !! k = Some None \/ result' !! k = result !! k)
      /\ (forall (p : json) (title : string),
             In p ps -> title_of p = Ok title ->
             result' !! target_path directory_path title = Some None).
Proof.
  intros Hmax. induction ps as [| p ps IH]; intros i result w Htitled.
  - exists result. rewrite log_all_nil. split; [reflexivity |]. split.
    + intros k. now right.
    + intros p t [].
  - destruct (Htitled p (or_introl eq_refl)) as [title Htitle].
    destruct (IH (S i) (<[target_path directory_path title := None]> result)
                (log (EvPrint (MsgProgress (S i) n)) w))
      as (result' & Hloop & Hany & Hnone);
      [intros q Hq; apply Htitled; now right |].
    exists result'. split; [| split].
    + cbn [products_loop]. rewrite Htitle, attempts_loop_unfold.
      cbn [at_download_successful at_remaining_attempts negb andb].
      assert ((max_attempts >? 0) = false) as -> by lia.
      cbn [at_path at_product_info]. fold (target_path directory_path title).
      rewrite Hloop, log_all_log. reflexivity.
    + intros k. destruct (Hany k) as [Hk | Hk]; [now left |].
      rewrite Hk. destruct (decide (target_path directory_path title = k))
        as [<- | Hne].
      * left. apply lookup_insert_eq.
      * right. now apply lookup_insert_ne.
    + intros q t [<- | Hq] Hqt.
      * assert (t = title) as -> by congruence.
        destruct (Hany (target_path directory_path title)) as [Hk | Hk];
          [exact Hk |].
        rewrite Hk. apply lookup_insert_eq.
      * now apply (Hnone q t).
Qed.

Lemma progress_lines_not_calls (i len n : nat) :
  Forall is_not_call (progress_lines i len n).
Proof.
  unfold progress_lines. apply List.Forall_forall. intros e He.
  apply in_map_iff in He as (k & <- & _). exact I.
Qed.

(** X7: with [max_attempts] zero or negative, [download_all] never calls
    [download]: whatever the method, it prints its progress lines, returns
    normally, and every product (that has a title) is in the map with
    [None]; the map has no other success to show. *)
Theorem X7_no_attempt_allowed
  (download_method : json -> string -> bool -> bool -> World ->
                     option (World * res (string * ProductInfo)))
  (a a' : Api) (out : list Message) (ps : list json) (directory_path : string)
  (max_attempts : Z) (checksum check_existing : bool) (w : World) :
  max_attempts <= 0 ->
  get_products a = (a', out, Ok (JList ps)) ->
  all_titled ps ->
  exists result : gmap string (option ProductInfo),
    download_all download_method a directory_path max_attempts checksum
      check_existing w
    = Some (a',
            log_all (progress_lines 0 (length ps) (length ps))
              (batch_start (length ps) out w),
            Ok result)
    /\ Forall is_not_call
         (map EvPrint out ++ EvPrint (MsgWillDownload (length ps))
          :: progress_lines 0 (length ps) (length ps))
    /\ (forall k : string, result !! k = Some None \/ result !! k = None)
    /\ (forall (p : json) (title : string),
           In p ps -> title_of p = Ok title ->
           result !! target_path directory_path title = Some None).
Proof.
  intros Hmax Hget Htitled.
  destruct (products_loop_no_attempt download_method directory_path
              max_attempts checksum check_existing (length ps) Hmax ps 0%nat
              ∅ (batch_start (length ps) out w) Htitled)
    as (result & Hloop & Hany & Hnone).
  exists result. split; [| split; [| split]].
  - rewrite (download_all_unfold _ _ _ _ _ _ _ _ _ _ Hget), Hloop.
    reflexivity.
  - apply Forall_app. split.
    + apply List.Forall_forall. intros e He.
      apply in_map_iff in He as (m & <- & _). exact I.
    + constructor; [exact I | apply progress_lines_not_calls].
  - intros k. destruct (Hany k) as [Hk | Hk]; [now left |].
    right. rewrite Hk. apply lookup_empty.
  - exact Hnone.
Qed.

Lemma X7_zero_attempts :
  exists result : gmap string (option ProductInfo),
    api_download_all 1 (env_failing_with connection_error) bad_then_good "."
      0 false false empty_world
    = Some (set_products bad_then_good
              (JList [entry "bad" "T1"; entry "good" "T2"]),
            log_all (progress_lines 0 2 2) (batch_start 2 [] empty_world),
            Ok result)
    /\ result !! "./T1.zip" = Some None
    /\ result !! "./T2.zip" = Some None.
Proof.
  destruct (X7_no_attempt_allowed
              (download 1 (env_failing_with connection_error)) bad_then_good
              (set_products bad_then_good
                 (JList [entry "bad" "T1"; entry "good" "T2"]))
              [] [entry "bad" "T1"; entry "good" "T2"] "." 0 false false
              empty_world)
    as (result & Hrun & _ & _ & Hnone).
  - lia.
  - reflexivity.
  - intros p [<- | [<- | []]]; eexists; reflexivity.
  - exists result. split; [exact Hrun |]. split.
    + apply (Hnone (entry "bad" "T1") "T1"); [now left | reflexivity].
    + apply (Hnone (entry "good" "T2") "T2"); [right; now left | reflexivity].
Defined.

(** X8: a product without a [title] key stops [download_all] with
    [KeyError]: the products before it have been downloaded, the map that
    recorded them is not returned, and the products after it are not
    looked at. *)
Theorem X8_product_without_title_aborts
  (download_method : json -> string -> bool -> bool -> World ->
                     option (World * res (string * ProductInfo)))
  (a a' : Api) (out : list Message) (ps1 ps2 : list json)
  (fields : list (string * json)) (directory_path : string)
  (max_attempts : Z) (checksum check_existing : bool) (w w1 : World)
  (result1 : gmap string (option ProductInfo)) :
  get_products a = (a', out, Ok (JList (ps1 ++ JDict fields :: ps2))) ->
  assoc "title" fields = None ->
  let n := length (ps1 ++ JDict fields :: ps2) in
  products_loop download_method ps1 0 n directory_path max_attempts checksum
    check_existing ∅ (batch_start n out w) = Some (w1, Ok result1) ->
  download_all download_method a directory_path max_attempts checksum
    check_existing w
  = Some (a', w1, Raise (KeyError "title")).
Proof.
  intros Hget Hnone n Hps1.
  rewrite (download_all_unfold _ _ _ _ _ _ _ _ _ _ Hget). fold n.
  rewrite (products_loop_app _ _ _ _ _ _ _ _ _ _ _ _ _ Hps1).
  cbn [products_loop]. unfold title_of, subscript. rewrite Hnone.
  reflexivity.
Qed.

Lemma X8_second_product_without_title :
  exists w1 : World,
    api_download_all 1 (reliable_env small_product (pycurl_version_of [7; 43; 0]))
      (response_of
         (feed_of (JList [entry "good" "T2"; JDict [("id", JStr "other")];
                          entry "good" "T3"])))
      "." 3 false false empty_world
    = Some (set_products
              (response_of
                 (feed_of (JList [entry "good" "T2"; JDict [("id", JStr "other")];
                                  entry "good" "T3"])))
              (JList [entry "good" "T2"; JDict [("id", JStr "other")];
                      entry "good" "T3"]),
            w1, Raise (KeyError "title"))
    /\ fs w1 !! "./T2.zip" = Some (complete_file small_product).
Proof.
  eexists. split.
  - unfold api_download_all.
    eapply (X8_product_without_title_aborts _ _ _ [] [entry "good" "T2"]
              [entry "good" "T3"] [("id", JStr "other")] "." 3 false false
              empty_world);
      [reflexivity | reflexivity | reflexivity].
  - vm_compute. reflexivity.
Defined.

Lemma log_all_app (es1 es2 : list Event) (w : World) :
  log_all es2 (log_all es1 w) = log_all (es1 ++ es2) w.
Proof. unfold log_all. simpl. rewrite <- app_assoc. reflexivity. Qed.

Lemma log_caught_log_all (title : string) (e : exn) (w : World) :
  log_caught title e w = log_all (caught_messages title e) w.
Proof.
  destruct e; unfold log_caught, caught_messages, log, log_all; simpl;
    rewrite <- ?app_assoc; reflexivity.
Qed.

(** When [product['id']] raises, every pass of the [while] loop catches
    that exception and no call is made. *)
Lemma attempts_loop_without_id
  (download_method : json -> string -> bool -> bool -> World ->
                     option (World * res (string * ProductInfo)))
  (i : nat) (product : json) (title directory_path : string)
  (checksum check_existing : bool) (e : exn) :
  subscript product "id" = Raise e ->
  is_fatal e = false ->
  forall (fuel : nat) (st : Attempts) (w : World),
    at_download_successful st = false ->
    Z.to_nat (at_remaining_attempts st) = fuel ->
    attempts_loop download_method fuel i product title directory_path checksum
      check_existing st w
    = Some (log_all (repeated fuel (caught_messages title e)) w,
            Ok {| at_path := at_path st;
                  at_product_info := at_product_info st;
                  at_download_successful := false;
                  at_remaining_attempts :=
                    at_remaining_attempts st - Z.of_nat fuel |}).
Proof.
  intros Hid Hnf.
  induction fuel as [| fuel IH]; intros st w Hsucc Hrem;
    rewrite attempts_loop_unfold, Hsucc; cbn [negb andb].
  - assert ((at_remaining_attempts st >? 0) = false) as -> by lia.
    cbn [repeated]. rewrite log_all_nil, Z.sub_0_r.
    destruct st; simpl in *; subst. reflexivity.
  - assert ((at_remaining_attempts st >? 0) = true) as -> by lia.
    unfold try_download. rewrite Hid, Hnf.
    rewrite IH by (simpl; first [exact Hsucc | lia]).
    rewrite log_caught_log_all, log_all_app.
    cbn [repeated one_attempt_less at_path at_product_info
           at_download_successful at_remaining_attempts].
    replace (at_remaining_attempts st - 1 - Z.of_nat fuel)
      with (at_remaining_attempts st - Z.of_nat (S fuel)) by lia.
    reflexivity.
Qed.

(** X9: a product with a title and no [id] key costs no call of
    [download]: every attempt fails on [product['id']] inside the [try],
    the error is printed [max_attempts] times, the product is filed with
    [None] and the loop goes on. *)
Theorem X9_product_without_id_is_filed_as_failed
  (download_method : json -> string -> bool -> bool -> World ->
                     option (World * res (string * ProductInfo)))
  (fields : list (string * json)) (title : string) (rest : list json)
  (i n : nat) (directory_path : string) (max_attempts : Z)
  (checksum check_existing : bool)
  (result : gmap string (option ProductInfo)) (w : World) :
  assoc "id" fields = None ->
  assoc "title" fields = Some (JStr title) ->
  products_loop download_method (JDict fields :: rest) i n directory_path
    max_attempts checksum check_existing result w
  = products_loop download_method rest (S i) n directory_path max_attempts
      checksum check_existing
      (<[target_path directory_path title := None]> result)
      (log (EvPrint (MsgProgress (S i) n))
         (log_all
            (repeated (Z.to_nat max_attempts)
               [EvPrintErr (MsgErrorDownloading title);
                EvPrintErr (MsgTraceback (KeyError "id"))])
            w)).
Proof.
  intros Hid Htitle. cbn [products_loop].
  assert (Ht : title_of (JDict fields) = Ok title)
    by (unfold title_of, subscript; rewrite Htitle; reflexivity).
  rewrite Ht.
  rewrite (attempts_loop_without_id download_method i (JDict fields) title
             directory_path checksum check_existing (KeyError "id"));
    [reflexivity | | reflexivity | reflexivity | reflexivity].
  unfold subscript. rewrite Hid. reflexivity.
Qed.

Lemma X9_only_product_without_id :
  products_loop (download 1 env_corrupting) [JDict [("title", JStr "T9")]]
    0 1 "." 2 true false ∅ empty_world
  = Some (log_all
            [EvPrintErr (MsgErrorDownloading "T9");
             EvPrintErr (MsgTraceback (KeyError "id"));
             EvPrintErr (MsgErrorDownloading "T9");
             EvPrintErr (MsgTraceback (KeyError "id"));
             EvPrint (MsgProgress 1 1)]
            empty_world,
          Ok {[ "./T9.zip" := None ]}).
Proof.
  rewrite (X9_product_without_id_is_filed_as_failed (download 1 env_corrupting)
             [("title", JStr "T9")] "T9" [] 0 1 "." 2 true false ∅ empty_world
             eq_refl eq_refl).
  reflexivity.
Defined.

(** ** More on the total size *)

Lemma next_named_none (name : string) (items : list json) :
  Forall (named_otherwise name) items ->
  next_named name items = Raise StopIteration.
Proof.
  induction 1 as [| x items (n & Hn & Hne) _ IH]; [reflexivity |].
  simpl. rewrite Hn. cbn [res_bind]. rewrite Hne. exact IH.
Qed.

Lemma size_loop_raises (py_float : string -> option float)
  (ps1 ps2 : list json) (p : json) (sizes : list float) (e : exn) :
  Forall2 (fun q g => product_size py_float q = Ok g) ps1 sizes ->
  product_size py_float p = Raise e ->
  forall total : number,
    size_loop py_float (ps1 ++ p :: ps2) total = Raise e.
Proof.
  induction 1 as [| q g ps1 sizes Hq _ IH]; intros Hp total; simpl.
  - rewrite Hp. reflexivity.
  - rewrite Hq. cbn [res_bind]. apply IH, Hp.
Qed.

(** X10: how [get_products_size] fails.  A product whose [str] list has no
    item named [size] raises [StopIteration]; a size whose first word is
    not a number raises [ValueError]; a size that is a number with no unit
    after it raises [IndexError]; and the exception of the first product
    that fails is the result, whatever the products before it added up
    to.  Without products the result is the integer [0]. *)
Theorem X10_get_products_size_failures (py_float : string -> option float)
  (py_round2 : float -> float) :
  (forall (product : json) (fields : list (string * json)) (items : list json),
      product = JDict fields ->
      assoc "str" fields = Some (JList items) ->
      Forall (named_otherwise "size") items ->
      product_size py_float product = Raise StopIteration)
  /\ (forall (product : json) (v rest : string),
         size_content product = Ok (JStr (v ++ String " " rest)) ->
         contains " " v = false ->
         py_float v = None ->
         product_size py_float product = Raise ValueError)
  /\ (forall (product : json) (v : string) (x : float),
         size_content product = Ok (JStr v) ->
         contains " " v = false ->
         py_float v = Some x ->
         product_size py_float product = Raise IndexError)
  /\ (forall (a : Api) (ps1 ps2 : list json) (p : json) (sizes : list float)
             (e : exn),
         returned (get_products a) = Ok (JList (ps1 ++ p :: ps2)) ->
         Forall2 (fun q g => product_size py_float q = Ok g) ps1 sizes ->
         product_size py_float p = Raise e ->
         returned (get_products_size py_float py_round2 a) = Raise e)
  /\ (forall a : Api,
         returned (get_products a) = Ok (JList []) ->
         returned (get_products_size py_float py_round2 a) = Ok (NInt 0)).
Proof.
  split; [| split; [| split; [| split]]].
  - intros product fields items -> Hstr Hnone.
    unfold product_size, size_content, subscript. rewrite Hstr.
    cbn [res_bind py_iter]. rewrite (next_named_none _ _ Hnone). reflexivity.
  - intros product v rest Hcontent Hv Hx.
    unfold product_size. rewrite Hcontent. cbn [res_bind].
    rewrite py_split_at_sep by exact Hv.
    cbn [py_index lookup list_lookup res_bind]. rewrite Hx. reflexivity.
  - intros product v x Hcontent Hv Hx.
    unfold product_size. rewrite Hcontent. cbn [res_bind].
    rewrite py_split_no_sep by exact Hv.
    cbn [py_index lookup list_lookup res_bind]. rewrite Hx. reflexivity.
  - intros a ps1 ps2 p sizes e Hps Hsizes Hp. unfold get_products_size.
    destruct (get_products a) as [[a' out] r]. cbn in Hps. subst r.
    cbn [returned snd res_bind py_iter].
    rewrite (size_loop_raises py_float ps1 ps2 p sizes e Hsizes Hp).
    reflexivity.
  - intros a Hps. unfold get_products_size.
    destruct (get_products a) as [[a' out] r]. cbn in Hps. subst r.
    reflexivity.
Qed.

Lemma X10_size_without_unit :
  returned (get_products_size float_of_digits round_hundredths
              (response_of (feed_of (JList [entry_with_size "500 MB";
                                            entry_with_size "500"]))))
  = Raise IndexError
  /\ returned (get_products_size float_of_digits round_hundredths
                 (response_of (feed_of (JList [entry_with_size "500 MB";
                                               entry "good" "T2"]))))
     = Raise (KeyError "str")
  /\ returned (get_products_size float_of_digits round_hundredths
                 (response_of (feed_of (JList []))))
     = Ok (NInt 0).
Proof.
  destruct (X10_get_products_size_failures float_of_digits round_hundredths)
    as (_ & _ & Hindex & Hfirst & Hempty).
  split; [| split].
  - apply (Hfirst _ [entry_with_size "500 MB"] [] (entry_with_size "500")
             [(500 / 1024)%float]).
    + reflexivity.
    + repeat constructor.
    + apply (Hindex _ "500" 500%float); reflexivity.
  - apply (Hfirst _ [entry_with_size "500 MB"] [] (entry "good" "T2")
             [(500 / 1024)%float]).
    + reflexivity.
    + repeat constructor.
    + reflexivity.
  - apply Hempty. reflexivity.
Defined.

(** X11: only the units [MB] and [KB], written so, are converted: a size
    in any other unit ([TB], [B], [mb], ...) is added to the total as if
    it were in GB. *)
Theorem X11_other_units_count_as_GB (py_float : string -> option float)
  (product : json) (v u : string) (x : float) :
  size_content product = Ok (JStr (v ++ " " ++ u)) ->
  contains " " v = false ->
  contains " " u = false ->
  py_float v = Some x ->
  u <> "MB" -> u <> "KB" ->
  product_size py_float product = Ok x.
Proof.
  intros Hcontent Hv Hu Hx Hmb Hkb.
  rewrite (product_size_value_unit py_float product v u x Hcontent Hv Hu Hx).
  unfold size_in_gb.
  destruct (String.eqb_spec u "MB"); [contradiction |].
  destruct (String.eqb_spec u "KB"); [contradiction |]. reflexivity.
Qed.

Lemma X11_two_terabytes :
  product_size float_of_digits (entry_with_size "2 TB") = Ok 2%float
  /\ product_size float_of_digits (entry_with_size "2 mb") = Ok 2%float.
Proof.
  split.
  - apply (X11_other_units_count_as_GB float_of_digits _ "2" "TB" 2%float);
      first [reflexivity | discriminate].
  - apply (X11_other_units_count_as_GB float_of_digits _ "2" "mb" 2%float);
      first [reflexivity | discriminate].
Defined.

(** ** The URL of the API *)

Lemma last_char_app (s : string) (c : ascii) :
  last_char (s ++ String c EmptyString) = Ok c.
Proof.
  induction s as [| x s IH]; [reflexivity |].
  simpl. destruct (s ++ String c EmptyString) eqn:Hs.
  - destruct s; discriminate.
  - exact IH.
Qed.

Lemma last_char_nonempty (s : string) :
  s <> EmptyString -> exists c : ascii, last_char s = Ok c.
Proof.
  induction s as [| x s IH]; intros Hs; [congruence |].
  destruct s as [| y s]; [now exists x |].
  destruct IH as [c Hc]; [discriminate |]. exists c. exact Hc.
Qed.

(** X12: [_url_trail_slash] returns a URL that ends with a slash: the
    URL it was given if that one ends with a slash, the same with a slash
    added if not; applied to its own result it changes nothing; and the
    empty string makes it raise [IndexError]. *)
Theorem X12_url_trail_slash (api_url : string) :
  (api_url = EmptyString -> _url_trail_slash api_url = Raise IndexError)
  /\ (api_url <> EmptyString ->
      exists url : string,
        _url_trail_slash api_url = Ok url
        /\ last_char url = Ok "/"%char
        /\ (last_char api_url = Ok "/"%char -> url = api_url)
        /\ (last_char api_url <> Ok "/"%char -> url = api_url ++ "/")
        /\ _url_trail_slash url = Ok url).
Proof.
  split; [intros ->; reflexivity |].
  intros Hs. destruct (last_char_nonempty api_url Hs) as [c Hc].
  unfold _url_trail_slash. rewrite Hc. cbn [res_bind].
  destruct (Ascii.eqb_spec c "/") as [-> | Hne]; cbn [negb].
  - exists api_url. split; [reflexivity |]. split; [exact Hc |].
    split; [reflexivity |]. split; [congruence |].
    rewrite Hc. cbn [res_bind]. rewrite Ascii.eqb_refl. reflexivity.
  - exists (api_url ++ "/"). rewrite last_char_app.
    split; [reflexivity |]. split; [reflexivity |].
    split; [congruence |]. split; [reflexivity |].
    cbn [res_bind]. rewrite Ascii.eqb_refl. reflexivity.
Qed.

Lemma X12_default_api_url :
  exists url : string,
    _url_trail_slash "https://scihub.copernicus.eu/apihub" = Ok url
    /\ last_char url = Ok "/"%char
    /\ _url_trail_slash url = Ok url.
Proof.
  destruct (X12_url_trail_slash "https://scihub.copernicus.eu/apihub")
    as [_ H].
  destruct H as (url & Hurl & Hlast & _ & _ & Hidem); [discriminate |].
  exists url. repeat split; assumption.
Defined.

(** ** The check of a response *)

(** X13: [_check_scihub_response] returns normally exactly when the status
    is not one of 400 to 599 and the body is JSON (so a redirect with a
    JSON body passes, although the docstring speaks of a 2xx status).
    When it raises, the error always carries the status and the raw body
    of the response. *)
Theorem X13_check_scihub_response_accepts
  (html2text_handle : string -> res string) (response : Response) :
  (_check_scihub_response html2text_handle response = None
   <-> (status_code response < 400 \/ 600 <= status_code response)
       /\ body_json response <> None)
  /\ (forall err : ApiError,
         _check_scihub_response html2text_handle response = Some err ->
         err_http_status err = status_code response
         /\ err_response_body err = raw_content response).
Proof.
  unfold _check_scihub_response, raise_for_status, response_json. split.
  - destruct ((400 <=? status_code response) && (status_code response <? 600))
      eqn:Hstatus; cbn [res_bind].
    + split; [discriminate |]. intros [Hs _]. lia.
    + destruct (body_json response) as [j |]; split; try discriminate.
      * intros _. split; [lia | discriminate].
      * reflexivity.
      * intros [_ Hj]. congruence.
  - intros err Herr.
    assert (Herr' : err = api_error_of html2text_handle response).
    { destruct ((400 <=? status_code response)
                && (status_code response <? 600)); cbn [res_bind] in Herr.
      - congruence.
      - destruct (body_json response); [discriminate | congruence]. }
    subst err. unfold api_error_of.
    destruct (error_message_value response);
      [destruct (error_code response) |]; split; reflexivity.
Qed.

Lemma X13_redirect_with_json_body :
  _check_scihub_response (fun _ => Raise (OtherError "unused"))
    {| status_code := 302; body_json := Some (JDict []); raw_content := "{}" |}
  = None.
Proof.
  apply (X13_check_scihub_response_accepts
           (fun _ => Raise (OtherError "unused"))
           {| status_code := 302; body_json := Some (JDict []);
              raw_content := "{}" |}).
  simpl. split; [lia | discriminate].
Defined.

(** X14: what the raised error says.  The code of the error envelope is
    kept only together with the message value: when either is missing the
    code is [None].  [html2text] has a say only when the envelope is
    incomplete and the body, right-stripped, does not start with a brace;
    in particular a JSON object refused for its status, without an
    envelope, is reported with the message that JSON decoding failed. *)
Theorem X14_check_scihub_response_message (response : Response) :
  (forall (h : string -> res string),
      err_code (api_error_of h response) <> JNull ->
      error_message_value response = Ok (err_msg (api_error_of h response))
      /\ error_code response = Ok (err_code (api_error_of h response)))
  /\ (forall (h1 h2 : string -> res string),
         starts_with_brace (rstrip (raw_content response)) = true
         \/ (exists v c, error_message_value response = Ok v
                         /\ error_code response = Ok c) ->
         api_error_of h1 response = api_error_of h2 response)
  /\ (forall (h : string -> res string) (e : exn),
         starts_with_brace (rstrip (raw_content response)) = true ->
         error_message_value response = Raise e ->
         err_msg (api_error_of h response)
         = JStr "API response not valid. JSON decoding failed."
         /\ err_code (api_error_of h response) = JNull)
  /\ (forall (h : string -> res string) (text : string),
         starts_with_brace (rstrip (raw_content response)) = false ->
         (forall v c, error_message_value response = Ok v ->
                      error_code response = Ok c -> False) ->
         h (raw_content response) = Ok text ->
         err_msg (api_error_of h response) = JStr (strip text)).
Proof.
  split; [| split; [| split]].
  - intros h. unfold api_error_of.
    destruct (error_message_value response) as [v | e];
      [destruct (error_code response) as [c | e] |]; simpl;
      intros Hc; try congruence. split; reflexivity.
  - intros h1 h2 [Hbrace | (v & c & Hv & Hc)]; unfold api_error_of.
    + unfold message_fallback. rewrite Hbrace. reflexivity.
    + rewrite Hv, Hc. reflexivity.
  - intros h e Hbrace He. unfold api_error_of, message_fallback.
    rewrite He, Hbrace. split; reflexivity.
  - intros h text Hbrace Hincomplete Hh. unfold api_error_of, message_fallback.
    rewrite Hbrace, Hh. cbn [negb].
    destruct (error_message_value response) as [v | e];
      [destruct (error_code response) as [c | e] |]; try reflexivity.
    exfalso. exact (Hincomplete v c eq_refl eq_refl).
Qed.

Lemma X14_refused_json_object :
  let response :=
    {| status_code := 500;
       body_json := Some (JDict [("error", JDict [("code", JStr "E42")])]);
       raw_content := "{}" |} in
  err_msg (api_error_of (fun text => Ok text) response)
  = JStr "API response not valid. JSON decoding failed."
  /\ err_code (api_error_of (fun text => Ok text) response) = JNull.
Proof.
  intros response.
  destruct (X14_check_scihub_response_message response) as (_ & _ & H & _).
  apply (H (fun text => Ok text) (KeyError "message")); reflexivity.
Defined.

(** ** A query and the products after it *)

Lemma get_products_reads_content (a b : Api) :
  content a = content b ->
  returned (get_products a) = returned (get_products b).
Proof.
  intros Hc. unfold get_products, content_json, content_status. rewrite Hc.
  destruct (content b) as [r |]; [| reflexivity].
  destruct (body_json r) as [j |]; [| reflexivity]. cbn [res_bind].
  destruct (subscript j "feed") as [feed | e]; cbn [res_bind].
  - destruct (subscript feed "entry") as [entry | e].
    + destruct (is_dict entry); reflexivity.
    + destruct e; reflexivity.
  - destruct e; reflexivity.
Qed.

(** X15: what is left after [query_raw].  The query is recorded in
    [last_query] whether the request succeeds or not.  When the request
    itself fails, the previous response stays and [get_products] goes on
    answering from it.  When the catalog answers with an error status and
    a JSON object without [feed] (an error envelope, say), [query_raw]
    raises [SentinelAPIError], and [get_products] called afterwards
    reports no products instead of an error; when the body is not JSON,
    [get_products] raises [SentinelAPIError] with the status of that
    response.  On a client that has not queried yet, [get_products] raises
    [AttributeError]. *)
Theorem X15_query_raw_then_get_products
  (html2text_handle : string -> res string) (a : Api) (q : string) :
  (forall posted : res Response,
      last_query (fst (query_raw html2text_handle a q posted)) = Some q
      /\ products (fst (query_raw html2text_handle a q posted)) = products a)
  /\ (forall e : exn,
         snd (query_raw html2text_handle a q (Raise e)) = Raise e
         /\ content (fst (query_raw html2text_handle a q (Raise e))) = content a
         /\ returned (get_products (fst (query_raw html2text_handle a q (Raise e))))
            = returned (get_products a))
  /\ (forall (response : Response) (fields : list (string * json)),
         400 <= status_code response < 600 ->
         body_json response = Some (JDict fields) ->
         assoc "feed" fields = None ->
         let a' := fst (query_raw html2text_handle a q (Ok response)) in
         (exists msg : string,
             snd (query_raw html2text_handle a q (Ok response))
             = Raise (SentinelAPIError (status_code response) msg))
         /\ get_products a' = (a', [MsgNoProducts], Ok (JList [])))
  /\ (forall response : Response,
         body_json response = None ->
         let a' := fst (query_raw html2text_handle a q (Ok response)) in
         (exists msg : string,
             snd (query_raw html2text_handle a q (Ok response))
             = Raise (SentinelAPIError (status_code response) msg))
         /\ returned (get_products a')
            = Raise (SentinelAPIError (status_code response)
                       "API response not valid. JSON decoding failed."))
  /\ (forall (api_url url : string) (client : Api),
         new_client api_url = Ok (url, client) ->
         get_products client = (client, [], Raise AttributeError)).
Proof.
  split; [| split; [| split; [| split]]].
  - intros posted. unfold query_raw. destruct posted as [response | e].
    + destruct (_check_scihub_response html2text_handle response);
        split; reflexivity.
    + split; reflexivity.
  - intros e. split; [reflexivity |]. split; [reflexivity |].
    now apply get_products_reads_content.
  - intros response fields Hstatus Hbody Hfeed a'.
    assert (Hcheck : _check_scihub_response html2text_handle response
                     = Some (api_error_of html2text_handle response)).
    { unfold _check_scihub_response, raise_for_status.
      assert (((400 <=? status_code response)
               && (status_code response <? 600)) = true) as -> by lia.
      reflexivity. }
    assert (Hstatus' : err_http_status (api_error_of html2text_handle response)
                       = status_code response).
    { unfold api_error_of. destruct (error_message_value response);
        [destruct (error_code response) |]; reflexivity. }
    split.
    + unfold query_raw. rewrite Hcheck. unfold exn_of_api_error.
      rewrite Hstatus'. eexists. reflexivity.
    + subst a'. unfold query_raw. rewrite Hcheck. cbn [fst].
      unfold get_products, content_json. cbn [content]. rewrite Hbody.
      cbn [res_bind]. unfold subscript at 1. rewrite Hfeed. reflexivity.
  - intros response Hbody a'.
    assert (Hcheck : _check_scihub_response html2text_handle response
                     = Some (api_error_of html2text_handle response)).
    { unfold _check_scihub_response, raise_for_status, response_json.
      rewrite Hbody.
      destruct ((400 <=? status_code response) && (status_code response <? 600));
        reflexivity. }
    assert (Hstatus' : err_http_status (api_error_of html2text_handle response)
                       = status_code response).
    { unfold api_error_of. destruct (error_message_value response);
        [destruct (error_code response) |]; reflexivity. }
    split.
    + unfold query_raw. rewrite Hcheck. unfold exn_of_api_error.
      rewrite Hstatus'. eexists. reflexivity.
    + subst a'. unfold query_raw. rewrite Hcheck. cbn [fst].
      unfold get_products, content_json, content_status. cbn [content].
      rewrite Hbody. reflexivity.
  - intros api_url url client. unfold new_client.
    destruct (_url_trail_slash api_url); [| discriminate].
    cbn [res_bind]. intros [= _ <-]. reflexivity.
Qed.

Lemma X15_error_envelope_then_no_products :
  let response :=
    {| status_code := 503;
       body_json :=
         Some (JDict [("error",
                       JDict [("code", JNull);
                              ("message", JDict [("value", JStr "Maintenance")])])]);
       raw_content := "{}" |} in
  let answer := query_raw (fun text => Ok text) (response_of (feed_of (JList [])))
                  "*" (Ok response) in
  snd answer = Raise (SentinelAPIError 503 "Maintenance")
  /\ get_products (fst answer) = (fst answer, [MsgNoProducts], Ok (JList [])).
Proof.
  intros response answer.
  destruct (X15_query_raw_then_get_products (fun text => Ok text)
              (response_of (feed_of (JList []))) "*")
    as (_ & _ & Henvelope & _).
  destruct (Henvelope response
              [("error",
                JDict [("code", JNull);
                       ("message", JDict [("value", JStr "Maintenance")])])])
    as [_ Hproducts]; [simpl; lia | reflexivity | reflexivity |].
  split; [reflexivity | exact Hproducts].
Defined.

(** ** The certificate bundle among the keyword arguments *)

Lemma py_index_not_KeyError {A} (l : list A) (n : nat) (k : string) :
  py_index l n <> Raise (KeyError k).
Proof. unfold py_index. destruct (l !! n); discriminate. Qed.

Lemma py_position_not_KeyError (len : nat) (i : Z) (k : string) :
  py_position len i <> Raise (KeyError k).
Proof.
  unfold py_position.
  destruct ((0 <=? i) && (i <? Z.of_nat len)); [discriminate |].
  destruct ((- Z.of_nat len <=? i) && (i <? 0)); discriminate.
Qed.

(** The lookup of the user's value ends in [KeyError] only when there are
    no options, or when the options are a dict without [CAINFO]. *)
Lemma user_cainfo_KeyError (kwargs_dict : gmap string kwarg) (k : string) :
  user_cainfo kwargs_dict = Raise (KeyError k) ->
  kwargs_dict !! "pass_through_opts" = None
  \/ exists d, kwargs_dict !! "pass_through_opts" = Some (KwDict d)
               /\ d !! (inl CAINFO : dict_key) = None.
Proof.
  unfold user_cainfo.
  destruct (kwargs_dict !! "pass_through_opts") as [[| b | z | s | l | d] |];
    cbn [kw_getitem]; try discriminate; [| | | now left].
  - destruct (py_position (String.length s) CAINFO) eqn:Hp; cbn [res_bind].
    + destruct (String.get a s); discriminate.
    + intros [= ->]. now apply py_position_not_KeyError in Hp.
  - destruct (py_position (length l) CAINFO) eqn:Hp; cbn [res_bind].
    + intros H. now apply py_index_not_KeyError in H.
    + intros [= ->]. now apply py_position_not_KeyError in Hp.
  - destruct (d !! (inl CAINFO : dict_key)) eqn:Hd; [discriminate |].
    intros _. right. now exists d.
Qed.

(** A value the user gave is written back where it was found. *)
Lemma user_cainfo_kept (certifi : option string)
  (kwargs_dict r : gmap string kwarg) (v : json) :
  user_cainfo kwargs_dict = Ok v ->
  _fillin_cainfo certifi kwargs_dict = Ok r ->
  r = kwargs_dict.
Proof.
  intros Hv. unfold _fillin_cainfo. rewrite Hv. cbn [res_bind].
  assert (Hset : forall r,
             (let* p := kw_setitem
                          (default (KwDict ∅) (kwargs_dict !! "pass_through_opts"))
                          CAINFO v
              in Ok (<["pass_through_opts" := p]> kwargs_dict)) = Ok r ->
             r = kwargs_dict).
  { clear r. intros r. unfold user_cainfo in Hv.
    destruct (kwargs_dict !! "pass_through_opts")
      as [[| b | z | s | l | d] |] eqn:Hopts;
      cbn [kw_getitem default from_option id kw_setitem res_bind] in *; try discriminate.
    - destruct (py_position (length l) CAINFO) as [n |]; [| discriminate].
      cbn [res_bind] in *. unfold py_index in Hv.
      destruct (l !! n) eqn:Hn; [| discriminate]. injection Hv as ->.
      intros [= <-]. rewrite list_insert_id by exact Hn.
      now apply insert_id.
    - destruct (d !! (inl CAINFO : dict_key)) eqn:Hd; [| discriminate].
      injection Hv as ->. intros [= <-].
      rewrite (insert_id d) by exact Hd. now apply insert_id. }
  destruct v; try exact (Hset r). now intros [= <-].
Qed.

(** X16: the certificate bundle is chosen in the order: the value the
    user gave under [pass_through_opts], then the bundle of [certifi],
    then none.  A value of the user is kept even when it is [None], which
    leaves [certifi] out.  Every other keyword argument and every other
    option is passed on unchanged, and filling in a second time changes
    nothing.  Options that are [None], a boolean or a number raise
    [TypeError]. *)
Theorem X16_fillin_cainfo (certifi : option string)
  (kwargs_dict : gmap string kwarg) :
  (forall r : gmap string kwarg,
      _fillin_cainfo certifi kwargs_dict = Ok r ->
      (forall k, k <> "pass_through_opts" -> r !! k = kwargs_dict !! k)
      /\ _fillin_cainfo certifi r = Ok r
      /\ (kwargs_dict !! "pass_through_opts" = None ->
          r !! "pass_through_opts"
          = (fun path => KwDict {[ (inl CAINFO : dict_key) := JStr path ]})
              <$> certifi)
      /\ (forall d, kwargs_dict !! "pass_through_opts" = Some (KwDict d) ->
          exists d',
            r !! "pass_through_opts" = Some (KwDict d')
            /\ (forall key, key <> inl CAINFO -> d' !! key = d !! key)
            /\ d' !! (inl CAINFO : dict_key)
               = match d !! (inl CAINFO : dict_key) with
                 | Some v => Some v
                 | None => JStr <$> certifi
                 end))
  /\ (forall opts,
         kwargs_dict !! "pass_through_opts" = Some opts ->
         match opts with KwNone | KwBool _ | KwInt _ => True | _ => False end ->
         _fillin_cainfo certifi kwargs_dict = Raise TypeError).
Proof.
  split.
  - intros r Hr.
    destruct (user_cainfo kwargs_dict) as [v | e] eqn:Hv.
    + (* the user gave a value *)
      pose proof (user_cainfo_kept _ _ _ _ Hv Hr) as ->.
      split; [reflexivity |]. split; [exact Hr |]. split.
      * intros Hnone. unfold user_cainfo in Hv. rewrite Hnone in Hv.
        discriminate.
      * intros d Hd. exists d. split; [exact Hd |]. split; [reflexivity |].
        unfold user_cainfo in Hv. rewrite Hd in Hv. cbn [kw_getitem] in Hv.
        destruct (d !! (inl CAINFO : dict_key)); [reflexivity | discriminate].
    + (* no value of the user *)
      unfold _fillin_cainfo in Hr. rewrite Hv in Hr.
      destruct e; try discriminate.
      destruct (user_cainfo_KeyError _ _ Hv) as [Hnone | (d & Hd & Hno)].
      * rewrite Hnone in Hr. destruct certifi as [path |];
          cbn [certifi_where res_bind default from_option id kw_setitem] in Hr;
          injection Hr as <-.
        -- split; [intros k Hk; now rewrite lookup_insert_ne |].
           split.
           { unfold _fillin_cainfo, user_cainfo. rewrite lookup_insert_eq.
             cbn [kw_getitem]. rewrite lookup_insert_eq.
             cbn [res_bind default from_option id kw_setitem].
             now rewrite !insert_insert_eq. }
           split; [intros _; now rewrite lookup_insert_eq |].
           intros d Hd. congruence.
        -- split; [reflexivity |]. split.
           { unfold _fillin_cainfo. rewrite Hv. reflexivity. }
           split; [intros _; exact Hnone |]. intros d Hd. congruence.
      * rewrite Hd in Hr. destruct certifi as [path |];
          cbn [certifi_where res_bind default from_option id kw_setitem] in Hr;
          injection Hr as <-.
        -- split; [intros k Hk; now rewrite lookup_insert_ne |].
           split.
           { unfold _fillin_cainfo, user_cainfo. rewrite lookup_insert_eq.
             cbn [kw_getitem]. rewrite lookup_insert_eq.
             cbn [res_bind default from_option id kw_setitem].
             now rewrite !insert_insert_eq. }
           split; [intros Hnone; congruence |].
           intros d0 Hd0. assert (d0 = d) as -> by congruence.
           eexists. split; [now rewrite lookup_insert_eq |].
           split; [intros key0 Hkey0; now rewrite lookup_insert_ne |].
           rewrite lookup_insert_eq, Hno. reflexivity.
        -- split; [reflexivity |]. split.
           { unfold _fillin_cainfo. rewrite Hv. reflexivity. }
           split; [intros Hnone; congruence |].
           intros d0 Hd0. assert (d0 = d) as -> by congruence.
           exists d. split; [exact Hd |]. split; [reflexivity |].
           now rewrite Hno.
  - intros opts Hopts Hkind. unfold _fillin_cainfo, user_cainfo.
    rewrite Hopts. destruct opts; try contradiction; reflexivity.
Qed.

Lemma X16_timeout_option_and_certifi :
  let options : gmap dict_key json := {[ inl 13 := JInt 30 ]} in
  let kwargs_dict : gmap string kwarg :=
    {[ "pass_through_opts" := KwDict options; "show_progress" := KwBool true ]} in
  exists r,
    _fillin_cainfo (Some "/etc/ssl/cacert.pem") kwargs_dict = Ok r
    /\ r !! "show_progress" = Some (KwBool true)
    /\ _fillin_cainfo (Some "/etc/ssl/cacert.pem") r = Ok r.
Proof.
  intros options kwargs_dict.
  exists (<["pass_through_opts" :=
             KwDict (<[(inl CAINFO : dict_key) := JStr "/etc/ssl/cacert.pem"]> options)]>
            kwargs_dict).
  assert (Hrun : _fillin_cainfo (Some "/etc/ssl/cacert.pem") kwargs_dict
                 = Ok (<["pass_through_opts" :=
                          KwDict (<[(inl CAINFO : dict_key) :=
                                     JStr "/etc/ssl/cacert.pem"]> options)]>
                         kwargs_dict)) by reflexivity.
  destruct (X16_fillin_cainfo (Some "/etc/ssl/cacert.pem") kwargs_dict)
    as [Hfilled _].
  destruct (Hfilled _ Hrun) as (Hother & Hagain & _).
  split; [exact Hrun |]. split; [| exact Hagain].
  rewrite Hother by discriminate. reflexivity.
Defined.

(** ** The checksum, block by block *)

Lemma substring_skip (n : nat) (s : string) :
  String.substring 0 n s ++ skip (String.length (String.substring 0 n s)) s = s.
Proof.
  revert s. induction n as [| n IH]; intros [| c s]; try reflexivity.
  cbn [String.substring String.length skip]. cbn. now rewrite IH.
Qed.

Lemma skip_length (n : nat) (s : string) :
  String.length (skip n s) = (String.length s - n)%nat.
Proof.
  revert s. induction n as [| n IH]; intros [| c s]; cbn; try lia.
  apply IH.
Qed.

Lemma skip_all (s : string) : skip (String.length s) s = "".
Proof. induction s; [reflexivity | assumption]. Qed.

Section Md5BlocksFacts.

Variable md5_state : Type.
Variable md5_new : md5_state.
Variable md5_update : md5_state -> string -> md5_state.
Variable md5_hexdigest : md5_state -> string.

(** Feeding the hash in pieces is feeding it the concatenation. *)
Hypothesis update_update :
  forall (s : md5_state) (a b : string),
    md5_update (md5_update s a) b = md5_update s (a ++ b).

Lemma read_blocks_all (block_size : Z) (fuel : nat) (rest : string)
  (md5 : md5_state) (progress : Z) :
  block_size <> 0 ->
  (String.length rest < fuel)%nat ->
  read_blocks md5_state md5_update fuel block_size rest md5 progress
  = Some (match rest with
          | EmptyString => md5
          | String _ _ => md5_update md5 rest
          end, progress + Z.of_nat (String.length rest)).
Proof.
  intros Hsize. revert rest md5 progress.
  induction fuel as [| fuel IH]; intros rest md5 progress Hfuel; [lia |].
  cbn [read_blocks].
  assert (Hcut : f_read block_size rest
                 ++ skip (String.length (f_read block_size rest)) rest = rest).
  { unfold f_read. destruct (block_size <? 0).
    - rewrite skip_all. apply string_app_empty_r.
    - apply substring_skip. }
  destruct rest as [| c rest].
  { assert (f_read block_size "" = "") as ->
        by (unfold f_read; destruct (block_size <? 0);
            [| destruct (Z.to_nat block_size)]; reflexivity).
    f_equal. f_equal. cbn. lia. }
  destruct (f_read block_size (String c rest)) as [| b block] eqn:Hblock.
  { exfalso. unfold f_read in Hblock. destruct (block_size <? 0) eqn:Hneg;
      [discriminate |].
    destruct (Z.to_nat block_size) eqn:Hn; [lia | discriminate]. }
  set (left_over := skip (String.length (String b block)) (String c rest)) in *.
  assert (Hlen : (String.length (String b block) + String.length left_over
                  = String.length (String c rest))%nat).
  { rewrite <- string_length_app. now f_equal. }
  rewrite IH by (cbn [String.length] in *; lia).
  f_equal. f_equal.
  - destruct left_over as [| l left_over'] eqn:Hleft.
    + rewrite <- Hcut. now rewrite string_app_empty_r.
    + rewrite update_update, Hcut. reflexivity.
  - lia.
Qed.

End Md5BlocksFacts.

(** X17: with a hash that takes its input in pieces, [md5_compare] reads
    the file to its end for every block size other than 0: the answer is
    the one of the whole file hashed at once, whatever the block size, and
    the progress bar is told the size of the file.  With a block size of 0
    nothing is read: the checksum is compared with the digest of the empty
    input. *)
Theorem X17_md5_compare_in_blocks
  (md5_state : Type) (md5_new : md5_state)
  (md5_update : md5_state -> string -> md5_state)
  (md5_hexdigest : md5_state -> string)
  (update_update : forall (s : md5_state) (a b : string),
      md5_update (md5_update s a) b = md5_update s (a ++ b))
  (fuel : nat) (file_bytes checksum : string) :
  (String.length file_bytes < fuel)%nat ->
  (forall block_size : Z,
      block_size <> 0 ->
      md5_compare_blocks md5_state md5_new md5_update md5_hexdigest
        fuel file_bytes checksum block_size
      = Some (checksum_eq
                (md5_hexdigest
                   (fed_at_once md5_state md5_new md5_update file_bytes))
                checksum,
              Z.of_nat (String.length file_bytes)))
  /\ md5_compare_blocks md5_state md5_new md5_update md5_hexdigest
       fuel file_bytes checksum 0
     = Some (checksum_eq (md5_hexdigest md5_new) checksum, 0).
Proof.
  intros Hfuel. split.
  - intros block_size Hsize. unfold md5_compare_blocks.
    rewrite (read_blocks_all md5_state md5_update update_update)
      by assumption.
    reflexivity.
  - unfold md5_compare_blocks. destruct fuel as [| fuel]; [lia |].
    cbn [read_blocks]. unfold f_read. cbn.
    destruct file_bytes; reflexivity.
Qed.

Lemma X17_blocks_of_three_bytes :
  md5_compare_blocks string "" String.append (fun s => s) 9 "sentinel" "SENTINEL" 3
  = Some (true, 8)
  /\ md5_compare_blocks string "" String.append (fun s => s) 9 "sentinel" "SENTINEL" 0
     = Some (false, 0).
Proof.
  destruct (X17_md5_compare_in_blocks string "" String.append (fun s => s)
              string_app_assoc 9 "sentinel" "SENTINEL") as [Hblocks Hzero];
    [simpl; lia |].
  split; [exact (Hblocks 3 ltac:(lia)) | exact Hzero].
Defined.

(** ** The footprint of a product *)

Lemma py_split_plain (c : ascii) (s : string) :
  contains c s = false -> py_split s c = [s].
Proof.
  induction s as [| x s IH]; [reflexivity |]. cbn [contains py_split].
  intros H. apply orb_false_iff in H as [Hx Hs]. rewrite Hx, (IH Hs).
  reflexivity.
Qed.

Lemma py_split_app (c : ascii) (a b : string) :
  contains c a = false ->
  py_split (a ++ String c b) c = a :: py_split b c.
Proof.
  induction a as [| x a IH]; cbn [contains String.append py_split].
  - intros _. cbn. now rewrite Ascii.eqb_refl.
  - intros H. apply orb_false_iff in H as [Hx Ha]. cbn.
    rewrite Hx, (IH Ha). reflexivity.
Qed.

Lemma py_split_concat (c : ascii) (x : string) (xs : list string) :
  Forall (fun s => contains c s = false) (x :: xs) ->
  py_split (String.concat (String c "") (x :: xs)) c = x :: xs.
Proof.
  revert x. induction xs as [| y xs IH]; intros x Hall.
  - apply py_split_plain. now inversion Hall.
  - inversion Hall as [| ? ? Hx Hrest]; subst.
    change (String.concat (String c "") (x :: y :: xs))
      with (x ++ String c (String.concat (String c "") (y :: xs))).
    rewrite py_split_app by exact Hx. now rewrite IH.
Qed.

Lemma contains_app (c : ascii) (a b : string) :
  contains c (a ++ b) = contains c a || contains c b.
Proof.
  induction a as [| x a IH]; [reflexivity |]. cbn. rewrite IH.
  now rewrite orb_assoc.
Qed.

(** X18: the footprint that [get_product_info] builds from a GML ring
    [lat,lon lat,lon ...] is [lon lat,lon lat,...]: every pair is turned
    around, the pairs keep their order, commas separate the pairs and
    blanks the two numbers. *)
Theorem X18_coord_string_turns_the_pairs (pairs : list (string * string)) :
  Forall (fun p => plain_number (fst p) /\ plain_number (snd p)) pairs ->
  coord_string (String.concat " " (map gml_pair pairs))
  = String.concat "," (map turned_pair pairs).
Proof.
  intros Hplain. unfold coord_string.
  destruct pairs as [| p pairs]; [reflexivity |].
  change (map gml_pair (p :: pairs)) with (gml_pair p :: map gml_pair pairs).
  rewrite (py_split_concat " ").
  - rewrite map_map. f_equal.
    change (gml_pair p :: map gml_pair pairs) with (map gml_pair (p :: pairs)).
    rewrite map_map. apply map_ext_in. intros [a b] Hin.
    rewrite List.Forall_forall in Hplain.
    destruct (Hplain _ Hin) as [[_ Ha] [_ Hb]]. cbn [fst snd] in *.
    unfold gml_pair, turned_pair. cbn [fst snd].
    change (a ++ "," ++ b) with (a ++ String "," b).
    rewrite py_split_app by exact Ha. rewrite py_split_plain by exact Hb.
    reflexivity.
  - change (gml_pair p :: map gml_pair pairs) with (map gml_pair (p :: pairs)).
    apply List.Forall_forall. intros s Hs. apply in_map_iff in Hs as ([a b] & <- & Hin).
    rewrite List.Forall_forall in Hplain.
    destruct (Hplain _ Hin) as [[Ha _] [Hb _]]. cbn [fst snd] in *.
    unfold gml_pair. cbn [fst snd]. rewrite !contains_app, Ha, Hb.
    reflexivity.
Qed.

Lemma X18_ring_of_three_points :
  coord_string "52.1,13.0 52.1,13.5 52.4,13.5"
  = "13.0 52.1,13.5 52.1,13.5 52.4".
Proof.
  apply (X18_coord_string_turns_the_pairs
           [("52.1", "13.0"); ("52.1", "13.5"); ("52.4", "13.5")]).
  repeat constructor.
Defined.

(** ** The features of a query *)

Lemma feature_of_any_id (py_float : string -> option float)
  (scene : json) (id id' : Z) (f : Feature) :
  feature_of py_float scene id = Ok f ->
  feature_of py_float scene id'
  = Ok {| geometry := geometry f; feature_id := id';
          properties := properties f |}
  /\ feature_id f = id.
Proof.
  unfold feature_of.
  destruct (footprint_coord_list scene) as [coord_list |]; [| discriminate].
  cbn [res_bind].
  destruct (polygon_ring py_float coord_list) as [ring |]; [| discriminate].
  cbn [res_bind].
  destruct (scene_props scene) as [props |]; [| discriminate].
  cbn [res_bind]. intros [= <-]. split; reflexivity.
Qed.

Lemma feature_of_raises_any_id (py_float : string -> option float)
  (scene : json) (id id' : Z) (e : exn) :
  feature_of py_float scene id = Raise e ->
  feature_of py_float scene id' = Raise e.
Proof.
  unfold feature_of.
  destruct (footprint_coord_list scene) as [coord_list |]; [| trivial].
  cbn [res_bind].
  destruct (polygon_ring py_float coord_list) as [ring |]; [| trivial].
  cbn [res_bind].
  destruct (scene_props scene) as [props |]; [| trivial].
  discriminate.
Qed.

Lemma footprints_loop_Ok (py_float : string -> option float)
  (scenes : list json) (id : Z) (feature_list fs : list Feature) :
  footprints_loop py_float scenes id feature_list = Ok fs ->
  exists new : list Feature,
    fs = (feature_list ++ new)%list
    /\ map feature_id new = numbered_from id (length scenes)
    /\ Forall2 (feature_of_scene py_float) scenes new.
Proof.
  revert id feature_list.
  induction scenes as [| scene scenes IH]; intros id feature_list.
  - intros [= <-]. exists []. rewrite app_nil_r. repeat constructor.
  - cbn [footprints_loop].
    destruct (feature_of py_float scene (id + 1)) as [f |] eqn:Hf;
      [| discriminate].
    cbn [res_bind]. intros Hloop.
    destruct (IH _ _ Hloop) as (new & -> & Hids & Hall).
    destruct (feature_of_any_id _ _ _ (id + 1) _ Hf) as [_ Hid].
    exists (f :: new). split; [now rewrite <- app_assoc |].
    split.
    + cbn [map numbered_from length]. now rewrite Hid, Hids.
    + constructor; [| exact Hall]. unfold feature_of_scene.
      now rewrite Hid.
Qed.

Lemma footprints_loop_raises (py_float : string -> option float)
  (scenes : list json) (scene : json) (e : exn) :
  In scene scenes ->
  feature_of py_float scene 0 = Raise e ->
  forall (id : Z) (feature_list : list Feature),
  exists e' : exn,
    footprints_loop py_float scenes id feature_list = Raise e'.
Proof.
  intros Hin Hbad. induction scenes as [| s scenes IH]; [contradiction |].
  intros id feature_list. cbn [footprints_loop].
  destruct (feature_of py_float s (id + 1)) as [f | e1] eqn:Hs.
  - cbn [res_bind]. destruct Hin as [-> | Hin].
    + apply (feature_of_raises_any_id _ _ _ (id + 1)) in Hbad. congruence.
    + apply (IH Hin).
  - exists e1. reflexivity.
Qed.

(** X19: the features [get_footprints] returns.  There is one feature for
    each product of the query, in the order of the query, and the features
    are numbered from 1.  One product of which no feature can be made (no
    footprint, say) and the call raises: no feature is returned for the
    other products either. *)
Theorem X19_get_footprints_features (py_float : string -> option float)
  (a : Api) (ps : json) (scenes : list json) :
  returned (get_products a) = Ok ps ->
  py_iter ps = Ok scenes ->
  (forall fs : list Feature,
      returned (get_footprints py_float a) = Ok fs ->
      length fs = length scenes
      /\ map feature_id fs = numbered_from 0 (length scenes)
      /\ Forall2 (feature_of_scene py_float) scenes fs)
  /\ (forall (scene : json) (e : exn),
         In scene scenes ->
         feature_of py_float scene 0 = Raise e ->
         exists e' : exn, returned (get_footprints py_float a) = Raise e').
Proof.
  intros Hps Hscenes.
  assert (Hrun : returned (get_footprints py_float a)
                 = footprints_loop py_float scenes 0 []).
  { unfold get_footprints, returned in *.
    destruct (get_products a) as [[a' out] r]. cbn [snd] in *.
    rewrite Hps. cbn [res_bind]. rewrite Hscenes. reflexivity. }
  rewrite Hrun. split.
  - intros fs Hfs. apply footprints_loop_Ok in Hfs as (new & -> & Hids & Hall).
    cbn [app]. split; [| split; assumption].
    symmetry. eapply Forall2_length. exact Hall.
  - intros scene e Hin Hbad. eapply footprints_loop_raises; eassumption.
Qed.

(** ** The properties of a feature *)

Lemma update_props_outside (scene : json) (names : list string)
  (props props' : gmap string json) (failure : option exn) (k : string) :
  update_props scene names props = (props', failure) ->
  ~ In k names ->
  props' !! k = props !! k.
Proof.
  revert props. induction names as [| n names IH]; intros props.
  - intros [= <- _] _. reflexivity.
  - cbn [update_props]. intros Hrun Hk.
    destruct (str_content n scene) as [v |].
    + rewrite (IH _ Hrun) by (intros H; apply Hk; now right).
      apply lookup_insert_ne. intros ->. apply Hk. now left.
    + now injection Hrun as <- _.
Qed.

Lemma update_props_done (scene : json) (names : list string)
  (props props' : gmap string json) (k : string) :
  update_props scene names props = (props', None) ->
  In k names ->
  exists v : json, str_content k scene = Ok v /\ props' !! k = Some v.
Proof.
  revert props. induction names as [| n names IH]; intros props;
    [contradiction |].
  cbn [update_props]. intros Hrun Hk.
  destruct (str_content n scene) as [v |] eqn:Hn; [| discriminate].
  destruct (in_dec string_dec k names) as [Hin | Hout].
  - exact (IH _ Hrun Hin).
  - destruct Hk as [-> | Hk]; [| contradiction].
    exists v. split; [exact Hn |].
    rewrite (update_props_outside _ _ _ _ _ _ Hrun Hout).
    apply lookup_insert_eq.
Qed.

Lemma update_props_failed (scene : json) (names : list string)
  (props props' : gmap string json) (e : exn) :
  update_props scene names props = (props', Some e) ->
  (exists k : string, In k names /\ str_content k scene = Raise e)
  /\ (forall k : string,
         props' !! k = props !! k
         \/ exists v : json, str_content k scene = Ok v /\ props' !! k = Some v).
Proof.
  revert props. induction names as [| n names IH]; intros props;
    [discriminate |].
  cbn [update_props]. intros Hrun.
  destruct (str_content n scene) as [v | e1] eqn:Hn.
  - destruct (IH _ Hrun) as [(k & Hk & Hraised) Hprops]. split.
    + exists k. split; [now right | exact Hraised].
    + intros k'. destruct (Hprops k') as [Hsame | Hset]; [| now right].
      destruct (string_dec k' n) as [-> | Hne].
      * right. exists v. split; [exact Hn |].
        rewrite Hsame. apply lookup_insert_eq.
      * left. rewrite Hsame. now apply lookup_insert_ne.
  - injection Hrun as <- <-. split; [| now left].
    exists n. split; [now left | exact Hn].
Qed.

Lemma first_props_keys (scene : json) (props : gmap string json) (k : string) :
  first_props scene = Ok props ->
  In k str_properties_tried ->
  props !! k = None.
Proof.
  unfold first_props.
  destruct (subscript scene "id"); [| discriminate]. cbn [res_bind].
  destruct (subscript scene "date"); [| discriminate]. cbn [res_bind].
  destruct (named_content "beginposition" _); [| discriminate].
  cbn [res_bind].
  destruct (subscript scene "link"); [| discriminate]. cbn [res_bind].
  destruct (py_iter _); [| discriminate]. cbn [res_bind].
  destruct (next_single_key _); [| discriminate]. cbn [res_bind].
  destruct (subscript _ "href"); [| discriminate]. cbn [res_bind].
  intros [= <-] Hk.
  assert (k <> "download_link" /\ k <> "date_beginposition"
          /\ k <> "product_id") as (H1 & H2 & H3).
  { unfold str_properties_tried in Hk. cbn [In] in Hk.
    repeat split; intros ->;
      repeat (destruct Hk as [Hk | Hk]; [discriminate |]); exact Hk. }
  rewrite !lookup_insert_ne by congruence. apply lookup_empty.
Qed.

(** X20: the properties of a feature.  A feature that is returned has the
    five properties [platformname], [identifier], [sensoroperationalmode],
    [orbitdirection] and [producttype], with the values of the scene; it
    has [polarisationmode] exactly when the scene has it.  A scene that
    lacks one of the five never gives a feature: the call raises. *)
Theorem X20_properties_of_a_feature (scene : json) :
  (forall props : gmap string json,
      scene_props scene = Ok props ->
      (forall name : string,
          In name str_properties_otherwise ->
          exists v : json,
            str_content name scene = Ok v /\ props !! name = Some v)
      /\ props !! "polarisationmode"
         = match str_content "polarisationmode" scene with
           | Ok v => Some v
           | Raise _ => None
           end)
  /\ (forall (name : string) (e : exn),
         In name str_properties_otherwise ->
         str_content name scene = Raise e ->
         exists e' : exn, scene_props scene = Raise e').
Proof.
  assert (Hsub : forall name, In name str_properties_otherwise ->
                              In name str_properties_tried).
  { intros name. unfold str_properties_otherwise, str_properties_tried.
    cbn [In]. tauto. }
  assert (Hpol_in : In "polarisationmode" str_properties_tried)
    by (right; right; now left).
  assert (Hpol_out : ~ In "polarisationmode" str_properties_otherwise).
  { unfold str_properties_otherwise. cbn [In].
    intros H; repeat (destruct H as [H | H]; [discriminate |]); exact H. }
  unfold scene_props.
  destruct (first_props scene) as [props0 | e0] eqn:Hfirst; cbn [res_bind].
  2: { split; [discriminate |]. intros. now exists e0. }
  destruct (update_props scene str_properties_tried props0)
    as [props1 [e1 |]] eqn:Htried.
  - (* the [try] raised *)
    destruct (update_props_failed _ _ _ _ _ Htried) as [(k & Hk & Hkfails) Hprops1].
    destruct (update_props scene str_properties_otherwise props1)
      as [props2 [e2 |]] eqn:Hother.
    + split; [discriminate |]. intros. now exists e2.
    + split.
      * intros props [= <-]. split.
        -- intros name Hname. exact (update_props_done _ _ _ _ _ Hother Hname).
        -- rewrite (update_props_outside _ _ _ _ _ _ Hother Hpol_out).
           assert (k = "polarisationmode") as ->.
           { destruct (in_dec string_dec k str_properties_otherwise) as [Hin |Hout].
             - destruct (update_props_done _ _ _ _ _ Hother Hin) as (v & Hv & _).
               congruence.
             - unfold str_properties_tried in Hk.
               unfold str_properties_otherwise in Hout. cbn [In] in *.
               symmetry. tauto. }
           rewrite Hkfails.
           destruct (Hprops1 "polarisationmode") as [-> | (v & Hv & _)];
             [| congruence].
           exact (first_props_keys _ _ _ Hfirst Hpol_in).
      * intros name e Hname Hfails.
        destruct (update_props_done _ _ _ _ _ Hother Hname) as (v & Hv & _).
        congruence.
  - (* the [try] went through *)
    split.
    + intros props [= <-]. split.
      * intros name Hname.
        exact (update_props_done _ _ _ _ _ Htried (Hsub _ Hname)).
      * destruct (update_props_done _ _ _ _ _ Htried Hpol_in) as (v & -> & Hv).
        exact Hv.
    + intros name e Hname Hfails.
      destruct (update_props_done _ _ _ _ _ Htried (Hsub _ Hname))
        as (v & Hv & _).
      congruence.
Qed.

(** ** The features at concrete scenes *)

Lemma X19_two_sentinel2_scenes :
  match returned (get_footprints float_of_digits
                    (response_of (feed_of (JList [sentinel2_scene;
                                                  sentinel2_scene])))) with
  | Ok fs => map feature_id fs = [1; 2]
  | Raise _ => False
  end.
Proof.
  destruct (returned (get_footprints float_of_digits
                        (response_of (feed_of (JList [sentinel2_scene;
                                                      sentinel2_scene])))))
    as [fs | e] eqn:Hrun.
  - destruct (X19_get_footprints_features float_of_digits
                (response_of (feed_of (JList [sentinel2_scene; sentinel2_scene])))
                (JList [sentinel2_scene; sentinel2_scene])
                [sentinel2_scene; sentinel2_scene] eq_refl eq_refl)
      as [Hfeatures _].
    exact (proj1 (proj2 (Hfeatures fs Hrun))).
  - vm_compute in Hrun. discriminate.
Defined.

Lemma X20_sentinel2_scene_properties :
  match scene_props sentinel2_scene with
  | Ok props =>
      props !! "producttype" = Some (JStr "S2MSI1C")
      /\ props !! "polarisationmode" = None
  | Raise _ => False
  end.
Proof.
  destruct (scene_props sentinel2_scene) as [props | e] eqn:Hrun.
  - destruct (X20_properties_of_a_feature sentinel2_scene) as [Hprops _].
    destruct (Hprops props Hrun) as [Hfive Hpol]. split.
    + destruct (Hfive "producttype") as (v & Hv & ->);
        [unfold str_properties_otherwise; cbn [In]; tauto |].
      vm_compute in Hv. congruence.
    + exact Hpol.
  - vm_compute in Hrun. discriminate.
Defined.
